(** * Alsuper price scraper: a shallow embedding of [scraper/main.py]

    The development follows the source file top to bottom: the Python and
    JavaScript string primitives the code calls, the numeric text parser
    [_num], the unit heuristic [_guess_units], the colour classifier
    [_color_is_red_or_black], the in-page query [FIND_PRICE_JS], the polling
    loop and the request handler [get_price] with its cache.

    Conventions of the embedding.
    - Text is [string]: a sequence of 8-bit characters read as ASCII.  The
      character classes ([\d], whitespace, case folding) are the ASCII ones;
      Python's and JavaScript's extra Unicode members of those classes are
      outside the model.
    - A Python exception is a value: code that can raise returns [result A].
    - A Python [float] is [pyfloat]: the exact rational value of the binary64
      number, or an infinity, or NaN.  Decimal text is converted with
      round-to-nearest-even, as [float()] does.
    - Time is a count of milliseconds on an explicit clock. *)

From Stdlib Require Import Bool Arith ZArith NArith QArith List Ascii String Lia.
Import ListNotations.

Close Scope Q_scope.
Open Scope string_scope.
Open Scope list_scope.

(* ------------------------------------------------------------------ *)
(** ** Exceptions *)

(** The exceptions of Python's class [Exception], which [except Exception]
    catches. *)
Inductive exn : Type :=
| ValueError
| IndexError
| OverflowError
| BrowserError (msg : string).

Inductive result (A : Type) : Type :=
| Returned (a : A)
| Raised (e : exn).

Arguments Returned {A} a.
Arguments Raised {A} e.

Definition bind {A B : Type} (m : result A) (k : A -> result B) : result B :=
  match m with
  | Returned a => k a
  | Raised e => Raised e
  end.

Notation "x <- m ;; k" := (bind m (fun x => k))
  (at level 61, m at next level, right associativity).

(** [try: body / except Exception: handler]. *)
Definition try_except {A : Type} (body : result A) (handler : exn -> A) : A :=
  match body with
  | Returned a => a
  | Raised e => handler e
  end.

(* ------------------------------------------------------------------ *)
(** ** Characters *)

Definition code (c : ascii) : nat := nat_of_ascii c.

Definition in_range (lo hi : nat) (c : ascii) : bool :=
  (lo <=? code c)%nat && (code c <=? hi)%nat.

(** [0-9] *)
Definition is_digit (c : ascii) : bool := in_range 48 57 c.

(** [A-Z] *)
Definition is_upper (c : ascii) : bool := in_range 65 90 c.

(** Whitespace of Python's [str.strip()] and [str.isspace()]. *)
Definition py_isspace (c : ascii) : bool :=
  in_range 9 13 c || in_range 28 32 c.

(** Whitespace of C's [isspace], used inside [float()], and of JavaScript's
    [\s] and [trim()]. *)
Definition c_isspace (c : ascii) : bool :=
  in_range 9 13 c || (code c =? 32)%nat.

Definition lower_char (c : ascii) : ascii :=
  if is_upper c then ascii_of_nat (code c + 32) else c.

(* ------------------------------------------------------------------ *)
(** ** String primitives *)

(** [s.lower()] / [s.toLowerCase()] *)
Fixpoint lower (s : string) : string :=
  match s with
  | EmptyString => EmptyString
  | String c t => String (lower_char c) (lower t)
  end.

(** [s.replace(c, "")] for a one-character [c]. *)
Fixpoint remove_char (c : ascii) (s : string) : string :=
  match s with
  | EmptyString => EmptyString
  | String a t => if Ascii.eqb a c then remove_char c t else String a (remove_char c t)
  end.

Fixpoint lstrip (sp : ascii -> bool) (s : string) : string :=
  match s with
  | EmptyString => EmptyString
  | String c t => if sp c then lstrip sp t else s
  end.

Fixpoint rstrip (sp : ascii -> bool) (s : string) : string :=
  match s with
  | EmptyString => EmptyString
  | String c t =>
      match rstrip sp t with
      | EmptyString => if sp c then EmptyString else String c EmptyString
      | t' => String c t'
      end
  end.

Definition strip (sp : ascii -> bool) (s : string) : string :=
  rstrip sp (lstrip sp s).

(** [s.startswith(p)] *)
Fixpoint startswith (p s : string) : bool :=
  match p, s with
  | EmptyString, _ => true
  | String a p', String b s' => Ascii.eqb a b && startswith p' s'
  | String _ _, EmptyString => false
  end.

(** [needle in hay] / [hay.includes(needle)] *)
Fixpoint contains (needle hay : string) : bool :=
  startswith needle hay ||
  match hay with
  | EmptyString => false
  | String _ t => contains needle t
  end.

(** Position of the first occurrence of the character [c]. *)
Fixpoint find_char (c : ascii) (s : string) : option nat :=
  match s with
  | EmptyString => None
  | String a t => if Ascii.eqb a c then Some O else option_map S (find_char c t)
  end.

(** [s.index(c)]: raises [ValueError] when [c] does not occur. *)
Definition str_index (c : ascii) (s : string) : result nat :=
  match find_char c s with
  | Some i => Returned i
  | None => Raised ValueError
  end.

(** [s[i:j]] for non-negative [i] and [j]. *)
Definition slice (i j : nat) (s : string) : string := substring i (j - i) s.

(** [s.split(c)]: the result is never empty. *)
Fixpoint split (c : ascii) (s : string) : list string :=
  match s with
  | EmptyString => [EmptyString]
  | String a t =>
      if Ascii.eqb a c then EmptyString :: split c t
      else match split c t with
           | [] => [String a EmptyString]
           | h :: r => String a h :: r
           end
  end.

(** [xs[i]]: raises [IndexError] out of range. *)
Definition list_item {A : Type} (xs : list A) (i : nat) : result A :=
  match nth_error xs i with
  | Some x => Returned x
  | None => Raised IndexError
  end.

(** The longest prefix of characters satisfying [p], and the rest. *)
Fixpoint span (p : ascii -> bool) (s : string) : string * string :=
  match s with
  | EmptyString => (EmptyString, EmptyString)
  | String c t =>
      if p c then let (a, b) := span p t in (String c a, b)
      else (EmptyString, s)
  end.

Definition is_empty (s : string) : bool :=
  match s with
  | EmptyString => true
  | String _ _ => false
  end.

(* ------------------------------------------------------------------ *)
(** ** Python floats *)

(** A binary64 value: a finite number given by its exact rational value (in
    lowest terms), an infinity, or NaN.  The sign of zero is not kept. *)
Inductive pyfloat : Type :=
| PyFinite (q : Q)
| PyInf (negative : bool)
| PyNaN.

(** [floor (log2 (n / d))] for positive [n] and [d]. *)
Definition ilog2_ratio (n d : Z) : Z :=
  let l := (Z.log2 n - Z.log2 d)%Z in
  if (if 0 <=? l then d * 2 ^ l <=? n else d <=? n * 2 ^ (- l))%Z
  then l else (l - 1)%Z.

(** The integer nearest to [num / den], ties to even. *)
Definition round_half_even (num den : Z) : Z :=
  let q := (num / den)%Z in
  let r := (num mod den)%Z in
  if ((den <? 2 * r) || ((den =? 2 * r) && Z.odd q))%Z then (q + 1)%Z else q.

(** The binary64 number nearest to [n / d] (ties to even), for [0 <= n] and
    [0 < d]: 53 significant bits, least exponent -1074, overflow to
    infinity at [2 ^ 1024]. *)
Definition double_of_ratio (n d : Z) : pyfloat :=
  if (n =? 0)%Z then PyFinite (0 # 1)
  else
    let e := Z.max (ilog2_ratio n d - 52) (-1074) in
    if (0 <=? e)%Z then
      let m := round_half_even n (d * 2 ^ e) in
      if (2 ^ 1024 <=? m * 2 ^ e)%Z then PyInf false
      else PyFinite (Qred ((m * 2 ^ e) # 1))
    else
      let m := round_half_even (n * 2 ^ (- e)) d in
      PyFinite (Qred (m # Z.to_pos (2 ^ (- e)))).

Definition float_neg (negative : bool) (f : pyfloat) : pyfloat :=
  if negative then
    match f with
    | PyFinite q => PyFinite (Qopp q)
    | PyInf s => PyInf (negb s)
    | PyNaN => PyNaN
    end
  else f.

(** Truth value of a float: every float but zero is true. *)
Definition float_truthy (f : pyfloat) : bool :=
  match f with
  | PyFinite q => negb (Qnum q =? 0)%Z
  | PyInf _ => true
  | PyNaN => true
  end.

(** [int(f)]: truncation towards zero; an infinity raises [OverflowError],
    NaN raises [ValueError]. *)
Definition py_int (f : pyfloat) : result Z :=
  match f with
  | PyFinite q => Returned (Z.quot (Qnum q) (Z.pos (Qden q)))
  | PyInf _ => Raised OverflowError
  | PyNaN => Raised ValueError
  end.

(** The value of a run of decimal digits. *)
Fixpoint digits_value (acc : Z) (s : string) : Z :=
  match s with
  | EmptyString => acc
  | String c t => digits_value (10 * acc + Z.of_nat (code c - 48)) t
  end.

(** Underscores in a numeric literal: allowed only between two digits; they
    are dropped before the literal is read.  [prev] is the previous
    character. *)
Fixpoint drop_underscores (prev : ascii) (s : string) : option string :=
  match s with
  | EmptyString => if Ascii.eqb prev "_" then None else Some EmptyString
  | String c t =>
      if Ascii.eqb c "_" then
        if is_digit prev then drop_underscores c t else None
      else if Ascii.eqb prev "_" && negb (is_digit c) then None
      else option_map (String c) (drop_underscores c t)
  end.

(** An optional sign. *)
Definition read_sign (s : string) : bool * string :=
  match s with
  | String c t =>
      if Ascii.eqb c "-" then (true, t)
      else if Ascii.eqb c "+" then (false, t)
      else (false, s)
  | EmptyString => (false, s)
  end.

(** [inf], [infinity] and [nan], in any letter case. *)
Definition read_inf_nan (s : string) : option pyfloat :=
  let l := lower s in
  if String.eqb l "inf" || String.eqb l "infinity" then Some (PyInf false)
  else if String.eqb l "nan" then Some PyNaN
  else None.

(** The exponent part: empty, or [e] or [E], an optional sign and at least
    one digit, up to the end of the text. *)
Definition read_exponent (s : string) : option Z :=
  match s with
  | EmptyString => Some 0%Z
  | String c t =>
      if Ascii.eqb (lower_char c) "e" then
        let (neg, t1) := read_sign t in
        let (ds, rest) := span is_digit t1 in
        if is_empty ds || negb (is_empty rest) then None
        else Some (if neg then (- digits_value 0 ds)%Z else digits_value 0 ds)
      else None
  end.

(** A literal without its sign: digits with an optional point and at least
    one digit in all, then the exponent part; or an infinity or NaN. *)
Definition read_unsigned (s : string) : option pyfloat :=
  let (ip, s1) := span is_digit s in
  let (fp, s2) :=
    match s1 with
    | String c t => if Ascii.eqb c "." then span is_digit t else (EmptyString, s1)
    | EmptyString => (EmptyString, s1)
    end in
  if is_empty ip && is_empty fp then read_inf_nan s
  else
    match read_exponent s2 with
    | None => None
    | Some ex =>
        let m := digits_value 0 (ip ++ fp) in
        let e10 := (ex - Z.of_nat (String.length fp))%Z in
        Some (if (0 <=? e10)%Z then double_of_ratio (m * 10 ^ e10) 1
              else double_of_ratio m (10 ^ (- e10)))
    end.

(** [float(s)] for a string [s]; [ValueError] when [s] is not a literal.
    The underscores are checked first, with the null character as the
    character before the text; then the whitespace around the literal is
    dropped and the whole of what is left has to be read. *)
Definition py_float (s : string) : result pyfloat :=
  match drop_underscores "000" s with
  | None => Raised ValueError
  | Some s1 =>
      let (neg, s2) := read_sign (strip c_isspace s1) in
      match read_unsigned s2 with
      | Some f => Returned (float_neg neg f)
      | None => Raised ValueError
      end
  end.


(* ------------------------------------------------------------------ *)
(** ** [_num]: the numeric text parser *)

(** [(?:\.\d{1,2})?] matched greedily at the start of [s]. *)
Definition match_fraction (s : string) : string :=
  match s with
  | String c (String d1 r) =>
      if Ascii.eqb c "." && is_digit d1 then
        match r with
        | String d2 _ =>
            if is_digit d2 then String c (String d1 (String d2 EmptyString))
            else String c (String d1 EmptyString)
        | EmptyString => String c (String d1 EmptyString)
        end
      else EmptyString
  | _ => EmptyString
  end.

(** [\d+(?:\.\d{1,2})?] matched greedily at the start of [s], which starts
    with a digit. *)
Definition match_number (s : string) : string :=
  let (ds, rest) := span is_digit s in ds ++ match_fraction rest.

(** [re.search(r"(\d+(?:\.\d{1,2})?)", s)]: group 1 of the leftmost match. *)
Fixpoint re_search_number (s : string) : option string :=
  match s with
  | EmptyString => None
  | String c t => if is_digit c then Some (match_number s) else re_search_number t
  end.

Definition _num (txt : string) : result (option pyfloat) :=
  if is_empty txt then Returned None
  else
    let clean := strip py_isspace (remove_char "$" (remove_char "," txt)) in
    match re_search_number clean with
    | Some g => f <- py_float g;; Returned (Some f)
    | None => Returned None
    end.

(* ------------------------------------------------------------------ *)
(** ** [_guess_units]: unit, pack size and weight *)

Definition UnitClassification : Type := string * option Z * option Z.

Definition _guess_units (url page_text : string) : UnitClassification :=
  let low := lower (url ++ " " ++ page_text) in
  if contains "cerveza-six-pack" low || contains "six pack" low || contains "six-pack" low
  then ("six-pack", Some 6%Z, None)
  else if contains "nectar-mixto" low || contains "v8" low || contains "lata" low
  then ("lata", Some 1%Z, None)
  else if contains "kg" low || contains "kilo" low
          || existsb (fun k => contains k low)
               ["pulpa-de-res"; "jamon-de-pierna"; "tocineta"; "cebolla"]
  then ("kg", None, None)
  else if contains "chorizo" low
  then ("pieza", Some 1%Z, Some 100%Z)
  else if contains "salchicha" low || contains "salchichas" low
  then ("paquete", Some 1%Z, Some 800%Z)
  else if contains "paquete" low
  then ("paquete", Some 1%Z, Some 800%Z)
  else ("pieza", Some 1%Z, None).

(* ------------------------------------------------------------------ *)
(** ** [PRICE_SELECTORS] *)

Definition PRICE_SELECTORS : list string :=
  [ "mat-label.as-discount-price.as-font-red-blood";
    "mat-label.as-price.as-font-red-blood";
    "[class*='as-discount-price'][class*='as-font-red']";
    "[class*='as-price'][class*='as-font-red']";
    "mat-label.as-price";
    "[class*='as-price']";
    "h1 + * [class*='as-price']";
    "h1 ~ * [class*='as-price']" ].

(* ------------------------------------------------------------------ *)
(** ** [_color_is_red_or_black]: the colour classifier *)

(** [int(float(nums[i]))] *)
Definition channel (nums : list string) (i : nat) : result Z :=
  x <- list_item nums i;;
  f <- py_float x;;
  py_int f.

(** The body of the [try] block.  [Returned (Some c)] is [return c];
    [Returned None] is reaching the end of the block. *)
Definition rgb_block (s : string) : result (option string) :=
  i <- str_index "(" s;;
  j <- str_index ")" s;;
  let nums := split "," (slice (i + 1) j s) in
  r <- channel nums 0;;
  g <- channel nums 1;;
  b <- channel nums 2;;
  if ((r <=? 10) && (g <=? 10) && (b <=? 10))%Z then Returned (Some "black")
  else if ((180 <=? r) && (g <=? 60) && (b <=? 60))%Z then Returned (Some "red")
  else Returned None.

(** The [if s.startswith("rgb")] statement: [Some v] when it executes
    [return v], [None] when control goes on to the statements below it. *)
Definition rgb_branch (s : string) : option (option string) :=
  if startswith "rgb" s then
    try_except (c <- rgb_block s;; Returned (option_map Some c))
               (fun _ => Some None)
  else None.

(** [color_str] is a string here; the source maps a missing colour to the
    empty string first ([color_str or ""]). *)
Definition _color_is_red_or_black (color_str : string) : option string :=
  let s := remove_char " " (lower color_str) in
  match rgb_branch s with
  | Some returned => returned
  | None =>
      if String.eqb s "#000" || String.eqb s "#000000" then Some "black"
      else if String.eqb s "#f00" || String.eqb s "#ff0000" then Some "red"
      else if contains "black" s then Some "black"
      else if contains "red" s then Some "red"
      else None
  end.

(* ------------------------------------------------------------------ *)
(** ** [FIND_PRICE_JS]: the in-page query *)

(** What the script reads of an element: its text content and three
    properties of its computed style. *)
Record Element : Type := {
  textContent : string;
  cs_color : string;
  cs_textDecoration : string;
  cs_textDecorationLine : string
}.

(** The rendered page, as [document.querySelectorAll] shows it. *)
Definition DOM : Type := string -> list Element.

(** The record the script pushes, and the dictionary Python receives. *)
Record Candidate : Type := {
  selector : string;
  text : string;
  color : string;
  struck : bool
}.

(** [a || b] on strings: the first one that is not empty. *)
Definition js_or (a b : string) : string := if is_empty a then b else a.

Definition isStruck (el : Element) : bool :=
  let td := lower (js_or (js_or (cs_textDecoration el)
                                (cs_textDecorationLine el)) "") in
  contains "line-through" td.

(** [\s*\d] matched at the start of [s]. *)
Fixpoint spaces_then_digit (s : string) : bool :=
  match s with
  | EmptyString => false
  | String c t => if c_isspace c then spaces_then_digit t else is_digit c
  end.

(** [/\$\s*\d/.test(s)] *)
Fixpoint re_test_dollar_digit (s : string) : bool :=
  match s with
  | EmptyString => false
  | String c t =>
      (Ascii.eqb c "$" && spaces_then_digit t) || re_test_dollar_digit t
  end.

Definition hasDollarDigits (text : string) : bool :=
  if is_empty text then false else re_test_dollar_digit text.

(** The inner loop, over the nodes of one selector. *)
Fixpoint push_nodes (sel : string) (nodes : list Element) (out : list Candidate)
  : list Candidate :=
  match nodes with
  | [] => out
  | el :: rest =>
      let txt := strip c_isspace (js_or (textContent el) "") in
      if negb (hasDollarDigits txt) then push_nodes sel rest out
      else push_nodes sel rest
             (out ++ [ {| selector := sel; text := txt;
                          color := cs_color el; struck := isStruck el |} ])
  end.

(** The outer loop, over the selectors, with its [break]. *)
Fixpoint find_price_loop (document : DOM) (selList : list string)
    (out : list Candidate) : list Candidate :=
  match selList with
  | [] => out
  | sel :: rest =>
      let out' := push_nodes sel (document sel) out in
      if negb (List.length out' =? 0)%nat then out'
      else find_price_loop document rest out'
  end.

Definition FIND_PRICE_JS (document : DOM) (selList : list string) : list Candidate :=
  find_price_loop document selList [].

(* ------------------------------------------------------------------ *)
(** ** The filter and the pick of one polling attempt *)

(** A candidate that passed the filter: the dictionary with its two new
    keys, [value] and [colorType].  The source adds the keys to the
    dictionary of the candidate in place; [raw_list] is read again by the
    debug output only. *)
Record Priced : Type := {
  item : Candidate;
  value : pyfloat;
  colorType : string
}.

(** The [for it in raw_list] loop; [filtered] is the list built so far. *)
Fixpoint filter_loop (raw_list : list Candidate) (filtered : list Priced)
  : result (list Priced) :=
  match raw_list with
  | [] => Returned filtered
  | it :: rest =>
      if struck it then filter_loop rest filtered
      else
        match _color_is_red_or_black (color it) with
        | None => filter_loop rest filtered
        | Some ct =>
            if is_empty ct then filter_loop rest filtered
            else
              val <- _num (text it);;
              match val with
              | Some v =>
                  if float_truthy v then
                    filter_loop rest
                      (filtered ++ [ {| item := it; value := v; colorType := ct |} ])
                  else filter_loop rest filtered
              | None => filter_loop rest filtered
              end
        end
  end.

(** [xs[0] if xs else alt] *)
Definition first_or {A : Type} (xs : list A) (alt : option A) : option A :=
  match xs with
  | x :: _ => Some x
  | [] => alt
  end.

(** Lines 196-211: from [raw_list] to [pick]. *)
Definition pick_price (raw_list : list Candidate) : result (option Priced) :=
  filtered <- filter_loop raw_list [];;
  let red_first := filter (fun x => String.eqb (colorType x) "red") filtered in
  let black_next := filter (fun x => String.eqb (colorType x) "black") filtered in
  Returned (first_or red_first (first_or black_next None)).

(* ------------------------------------------------------------------ *)
(** ** The polling loop *)

(** What the browser does during one turn of the loop: the page that
    [page.evaluate] sees (or the exception it raises), the time the [try]
    block takes, and by how much [page.wait_for_timeout(350)] overshoots. *)
Record Attempt : Type := {
  snapshot : result DOM;
  eval_ms : N;
  wait_extra_ms : N
}.

(** The body of the [try] block: the pick, if there is one. *)
Definition attempt_body (a : Attempt) : result (option Priced) :=
  document <- snapshot a;;
  pick_price (FIND_PRICE_JS document PRICE_SELECTORS).

(** The [try] statement of one turn: an exception is swallowed and the turn
    has no pick. *)
Definition attempt_pick (a : Attempt) : option Priced :=
  try_except (attempt_body a) (fun _ => None).

(** How long [page.wait_for_timeout(350)] takes after a turn without a
    pick. *)
Definition wait_ms (a : Attempt) : N := (350 + wait_extra_ms a)%N.

Inductive PollOutcome : Type :=
| Found (picked : Priced)
| TimedOut.

(** The [while] loop from its [k]-th turn on, at clock [now]; the result is
    the outcome and the clock at the exit.  [None]: out of fuel. *)
Fixpoint poll (fuel : nat) (attempts : nat -> Attempt) (k : nat)
    (deadline now : N) : option (PollOutcome * N) :=
  match fuel with
  | O => None
  | S fuel' =>
      if (now <? deadline)%N then
        let a := attempts k in
        match attempt_pick a with
        | Some pick => Some (Found pick, (now + eval_ms a)%N)
        | None =>
            poll fuel' attempts (S k) deadline (now + eval_ms a + wait_ms a)%N
        end
      else Some (TimedOut, now)
  end.

(** 18 seconds. *)
Definition poll_window : N := 18000.

(** More turns than the loop can take in 18 seconds. *)
Definition poll_fuel : nat := 53.

(* ------------------------------------------------------------------ *)
(** ** The response and the cache *)

Record PriceResponse : Type := {
  url : string;
  product_name : option string;
  price_per_kg : option pyfloat;
  unit_price : option pyfloat;
  unit_pack_size : option Z;
  unit_weight_g : option Z;
  currency : string;
  raw_unit : option string
}.

(** What the client receives: the record, or an [HTTPException]. *)
Inductive HTTPResponse : Type :=
| OK200 (body : PriceResponse)
| HTTPException (status_code : Z) (detail : string).

(** [TTLCache(maxsize=128, ttl=300)], a primitive of the [cachetools]
    library: entries in the order they were stored, each with the clock value
    at which it expires.  The library keeps its entries in the order of their
    last use, [cache[k]] being a use; the two orders are the same as long as
    the only record read is the one stored last, and they matter only for
    which entry makes room in a full cache. *)
Record Entry : Type := {
  key : string;
  expires : N;
  stored : PriceResponse
}.

Definition TTLCache : Type := list Entry.

Definition maxsize : nat := 128.

(** 300 seconds. *)
Definition ttl : N := 300000.

Definition has_key (k : string) (e : Entry) : bool := String.eqb (key e) k.

Definition live (now : N) (e : Entry) : bool := (now <? expires e)%N.

(** [k in cache] followed by [cache[k]], both at clock [now]: the live
    entry of [k]. *)
Definition cache_lookup (now : N) (k : string) (cache : TTLCache)
  : option PriceResponse :=
  match find (has_key k) cache with
  | Some e => if live now e then Some (stored e) else None
  | None => None
  end.

(** [cache[k] = v] at clock [now]: expired entries go, the entries stored
    first make room when the cache is full, the new entry lives for [ttl]. *)
Definition cache_store (now : N) (k : string) (v : PriceResponse)
    (cache : TTLCache) : TTLCache :=
  let alive := filter (live now) cache in
  let others := filter (fun e => negb (has_key k e)) alive in
  let room := skipn (List.length others + 1 - maxsize) others in
  room ++ [ {| key := k; expires := (now + ttl)%N; stored := v |} ].

(* ------------------------------------------------------------------ *)
(** ** [get_price]: the request handler *)

(** What the browser and the clocks do during one request. *)
Record Browser : Type := {
  cache_clock : N;               (* the cache's timer at the lookup *)
  load : result unit;            (* goto, network idle, scroll, banners, h1 *)
  h1_inner_text : result string;
  poll_clock : N;                (* [time.time()] when the deadline is set *)
  poll_delay : N;                (* from there to the first test of the loop *)
  attempts : nat -> Attempt;
  body_inner_text : result string;
  store_clock : N                (* the cache's timer at the store *)
}.

(** [str(e)] *)
Definition exn_str (e : exn) : string :=
  match e with
  | ValueError => "ValueError"
  | IndexError => "IndexError"
  | OverflowError => "OverflowError"
  | BrowserError msg => msg
  end.

Definition price_not_found : string :=
  "No se encontró precio visible no tachado con '$' (rojo/negro) usando selectores de Alsuper.".

(** The handler; [debug] only prints and is left out.  The result is the
    response and the cache after the request; [None] only if the polling
    loop runs out of fuel. *)
Definition get_price (cache : TTLCache) (url : string) (page : Browser)
  : option (HTTPResponse * TTLCache) :=
  match cache_lookup (cache_clock page) url cache with
  | Some cached => Some (OK200 cached, cache)
  | None =>
      match load page with
      | Raised e =>
          Some (HTTPException 502
                  ("No se pudo cargar " ++ url ++ ": " ++ exn_str e), cache)
      | Returned _ =>
          let product_name :=
            try_except (t <- h1_inner_text page;;
                        Returned (Some (strip py_isspace t)))
                       (fun _ => None) in
          let deadline := (poll_clock page + poll_window)%N in
          match poll poll_fuel (attempts page) 0 deadline
                     (poll_clock page + poll_delay page)%N with
          | None => None
          | Some (TimedOut, _) => Some (HTTPException 500 price_not_found, cache)
          | Some (Found picked, _) =>
              let price_val := value picked in
              let page_text := try_except (body_inner_text page) (fun _ => "") in
              let '(unit, pack_size, unit_weight_g) := _guess_units url page_text in
              let is_kg := String.eqb unit "kg" in
              let resp :=
                {| url := url;
                   product_name := product_name;
                   price_per_kg := if is_kg then Some price_val else None;
                   unit_price := if is_kg then None else Some price_val;
                   unit_pack_size := pack_size;
                   unit_weight_g := unit_weight_g;
                   currency := "MXN";
                   raw_unit := Some unit |} in
              Some (OK200 resp, cache_store (store_clock page) url resp cache)
          end
      end
  end.

(** The server: requests handled one after the other, the cache threaded
    through; the result is the list of responses and the last cache. *)
Fixpoint serve (cache : TTLCache) (requests : list (string * Browser))
  : option (list HTTPResponse * TTLCache) :=
  match requests with
  | [] => Some ([], cache)
  | (url, page) :: rest =>
      match get_price cache url page with
      | None => None
      | Some (resp, cache') =>
          match serve cache' rest with
          | None => None
          | Some (resps, cache'') => Some (resp :: resps, cache'')
          end
      end
  end.

(* ------------------------------------------------------------------ *)
(** ** Vocabulary of the specification *)

(** Every character of [s] satisfies [p]. *)
Fixpoint all_chars (p : ascii -> bool) (s : string) : bool :=
  match s with
  | EmptyString => true
  | String c t => p c && all_chars p t
  end.

Definition not_digit (c : ascii) : bool := negb (is_digit c).

(** [needle] is a substring of [hay]. *)
Definition occurs (needle hay : string) : Prop :=
  exists pre post, hay = (pre ++ needle ++ post)%string.

(** *** Numeric text (4.1) *)

(** [number_run run ip fp]: [run] has the form digits, or digits, a point
    and one or two digits; [ip] and [fp] are its integer and fraction
    digits. *)
Inductive number_run : string -> string -> string -> Prop :=
| run_integer : forall ip,
    ip <> EmptyString -> all_chars is_digit ip = true ->
    number_run ip ip EmptyString
| run_decimal : forall ip fp,
    ip <> EmptyString -> all_chars is_digit ip = true ->
    all_chars is_digit fp = true ->
    (1 <= String.length fp <= 2)%nat ->
    number_run (ip ++ String "." fp)%string ip fp.

(** The decimal number a run denotes, as a float. *)
Definition run_value (ip fp : string) : pyfloat :=
  double_of_ratio (digits_value 0 (ip ++ fp)) (10 ^ Z.of_nat (String.length fp)).

(** [run] is the first run of [clean]: no digit comes before it, and no
    longer run starts where it starts. *)
Definition first_run (clean run ip fp : string) : Prop :=
  number_run run ip fp /\
  exists pre post,
    clean = (pre ++ run ++ post)%string /\
    all_chars not_digit pre = true /\
    forall run' ip' fp',
      number_run run' ip' fp' -> startswith run' (run ++ post)%string = true ->
      (String.length run' <= String.length run)%nat.

(** The first character of [s] satisfies [p]. *)
Definition head_is (p : ascii -> bool) (s : string) : bool :=
  match s with
  | EmptyString => false
  | String c _ => p c
  end.

(** A character of a run: a digit or the point. *)
Definition run_char (c : ascii) : bool := is_digit c || Ascii.eqb c ".".

(** *** The decision table of the unit heuristic (4.6) *)

(** A rule: the markers, any of which fires it, and its result. *)
Definition Rule : Type := list string * UnitClassification.

Definition decision_table : list Rule :=
  [ (["six-pack"; "six pack"], ("six-pack", Some 6%Z, None));
    (["nectar-mixto"; "v8"; "lata"], ("lata", Some 1%Z, None));
    (["kg"; "kilo"; "pulpa-de-res"; "jamon-de-pierna"; "tocineta"; "cebolla"],
     ("kg", None, None));
    (["chorizo"], ("pieza", Some 1%Z, Some 100%Z));
    (["salchicha"; "salchichas"], ("paquete", Some 1%Z, Some 800%Z));
    (["paquete"], ("paquete", Some 1%Z, Some 800%Z)) ].

Definition default_unit : UnitClassification := ("pieza", Some 1%Z, None).

Definition rule_fires (low : string) (r : Rule) : bool :=
  existsb (fun m => contains m low) (fst r).

(** The result of the first rule that fires, or the default. *)
Fixpoint first_match (table : list Rule) (low : string) : UnitClassification :=
  match table with
  | [] => default_unit
  | r :: rest => if rule_fires low r then snd r else first_match rest low
  end.

(** The markers of the rules above the chorizo rule. *)
Definition markers_above_chorizo : list string :=
  flat_map fst (firstn 3 decision_table).

(** The text of a product, as the heuristic reads it. *)
Definition folded (url page_text : string) : string :=
  lower (url ++ " " ++ page_text).

(** The URL or the page text mentions [marker], in any letter case. *)
Definition mentions (marker url page_text : string) : Prop :=
  contains marker (lower url) = true \/ contains marker (lower page_text) = true.

(** *** The colour classes (4.2) *)

(** The colour string as the classifier compares it: lower case, without
    spaces. *)
Definition normal (color_str : string) : string :=
  remove_char " " (lower color_str).

(** The three channels of an [rgb(...)] or [rgba(...)] form; an exception
    when the form cannot be read. *)
Definition rgb_channels (s : string) : result (Z * Z * Z) :=
  i <- str_index "(" s;;
  j <- str_index ")" s;;
  let nums := split "," (slice (i + 1) j s) in
  r <- channel nums 0;;
  g <- channel nums 1;;
  b <- channel nums 2;;
  Returned (r, g, b).

Definition near_black (rgb : Z * Z * Z) : bool :=
  let '(r, g, b) := rgb in ((r <=? 10) && (g <=? 10) && (b <=? 10))%Z.

Definition strong_red (rgb : Z * Z * Z) : bool :=
  let '(r, g, b) := rgb in ((180 <=? r) && (g <=? 60) && (b <=? 60))%Z.

(** The exact hexadecimal forms, then the colour words. *)
Definition by_hex_or_word (s : string) : option string :=
  if String.eqb s "#000" || String.eqb s "#000000" then Some "black"
  else if String.eqb s "#f00" || String.eqb s "#ff0000" then Some "red"
  else if contains "black" s then Some "black"
  else if contains "red" s then Some "red"
  else None.

(** The classes of 4.2, in the order the specification lists them. *)
Definition classify (color_str : string) : option string :=
  let s := normal color_str in
  if startswith "rgb" s then
    match rgb_channels s with
    | Raised _ => None
    | Returned rgb =>
        if near_black rgb then Some "black"
        else if strong_red rgb then Some "red"
        else by_hex_or_word s
    end
  else by_hex_or_word s.

(** The rgb form does not decide: the string is not an rgb form, or its
    channels are read and are neither near black nor strong red. *)
Definition rgb_undecided (s : string) : Prop :=
  startswith "rgb" s = false \/
  exists rgb, rgb_channels s = Returned rgb /\
              near_black rgb = false /\ strong_red rgb = false.

Definition is_hex_form (s : string) : bool :=
  String.eqb s "#000" || String.eqb s "#000000" ||
  String.eqb s "#f00" || String.eqb s "#ff0000".

(** *** The locator (4.3) *)

(** The trimmed text of an element. *)
Definition trimmed (el : Element) : string := strip c_isspace (textContent el).

(** The text has a currency symbol followed, after optional whitespace, by
    a digit. *)
Definition dollar_space_digit (s : string) : Prop :=
  exists pre ws d post,
    s = (pre ++ String "$" (ws ++ String d post))%string /\
    all_chars c_isspace ws = true /\ is_digit d = true.

(** The text has a currency symbol immediately followed by a digit. *)
Fixpoint dollar_then_digit (s : string) : bool :=
  match s with
  | EmptyString => false
  | String c t => (Ascii.eqb c "$" && head_is is_digit t) || dollar_then_digit t
  end.

Definition qualifies (el : Element) : bool := hasDollarDigits (trimmed el).

(** What is reported of an element found at [sel]. *)
Definition report (sel : string) (el : Element) : Candidate :=
  {| selector := sel; text := trimmed el;
     color := cs_color el; struck := isStruck el |}.

(** The qualifying elements of one selector, in page order. *)
Definition collected (document : DOM) (sel : string) : list Candidate :=
  map (report sel) (filter qualifies (document sel)).

(** The selector yields at least one qualifying element. *)
Definition yields (document : DOM) (sel : string) : Prop :=
  exists el, In el (document sel) /\ dollar_space_digit (trimmed el).

(** A page whose only price is written with a space after the symbol. *)
Definition spaced_price_page : DOM :=
  fun sel =>
    if String.eqb sel "mat-label.as-price" then
      [ {| textContent := " $ 5 "; cs_color := "rgb(0, 0, 0)";
           cs_textDecoration := "none"; cs_textDecorationLine := "none" |} ]
    else [].

(** *** The filter and picker (4.4) *)

(** Step 1: candidates that are not struck. *)
Definition step1_not_struck (l : list Candidate) : list Candidate :=
  filter (fun c => negb (struck c)) l.

(** Step 2: candidates whose colour has a class, with the class. *)
Definition step2_classified (l : list Candidate) : list (Candidate * string) :=
  flat_map (fun c => match _color_is_red_or_black (color c) with
                     | Some ct => [(c, ct)]
                     | None => []
                     end) l.

(** Step 3: candidates whose text has a numeric value that [keep] accepts,
    with the value. *)
Definition step3_numeric (keep : pyfloat -> bool) (l : list (Candidate * string))
  : list Priced :=
  flat_map (fun cc => match _num (text (fst cc)) with
                      | Returned (Some v) =>
                          if keep v
                          then [ {| item := fst cc; value := v; colorType := snd cc |} ]
                          else []
                      | _ => []
                      end) l.

(** Step 4: the red group and the black group, each in input order. *)
Definition step4_partition (l : list Priced) : list Priced * list Priced :=
  (filter (fun x => String.eqb (colorType x) "red") l,
   filter (fun x => String.eqb (colorType x) "black") l).

(** Step 5: the first red candidate, otherwise the first black one. *)
Definition step5_pick (groups : list Priced * list Priced) : option Priced :=
  match fst groups with
  | x :: _ => Some x
  | [] => match snd groups with
          | x :: _ => Some x
          | [] => None
          end
  end.

Definition reference_pick (keep : pyfloat -> bool) (l : list Candidate)
  : option Priced :=
  step5_pick (step4_partition (step3_numeric keep (step2_classified (step1_not_struck l)))).

(** Step 3 as the specification words it: every numeric value is kept. *)
Definition any_value (v : pyfloat) : bool := true.

(** A candidate that survives the filter of the code with class [ct]. *)
Definition eligible (ct : string) (c : Candidate) : bool :=
  negb (struck c) &&
  match _color_is_red_or_black (color c) with
  | Some x => String.eqb x ct
  | None => false
  end &&
  match _num (text c) with
  | Returned (Some v) => float_truthy v
  | _ => false
  end.

(** A float greater than zero. *)
Definition float_positive (f : pyfloat) : Prop :=
  match f with
  | PyFinite q => (0 < q)%Q
  | PyInf negative => negative = false
  | PyNaN => False
  end.

(** A red price of zero before a black price of five. *)
Definition zero_then_five : list Candidate :=
  [ {| selector := "mat-label.as-price"; text := "$0.00";
       color := "rgb(200, 10, 10)"; struck := false |};
    {| selector := "mat-label.as-price"; text := "$5.00";
       color := "rgb(0, 0, 0)"; struck := false |} ].

(** The first eligible red candidate of the list, otherwise the first
    eligible black one. *)
Definition first_eligible (l : list Candidate) : option Candidate :=
  match find (eligible "red") l with
  | Some c => Some c
  | None => find (eligible "black") l
  end.

(** *** The polling loop (4.5) *)

(** The clock at the test of the loop after [n] turns without a pick, the
    first of them turn [k] at clock [now]. *)
Fixpoint turn_clock (attempts : nat -> Attempt) (k n : nat) (now : N) : N :=
  match n with
  | O => now
  | S n' =>
      turn_clock attempts (S k) n'
                 (now + eval_ms (attempts k) + wait_ms (attempts k))%N
  end.

(** An attempt in which nothing is raised: where [page.evaluate] raised,
    the page is empty instead. *)
Definition calm (a : Attempt) : Attempt :=
  {| snapshot := match snapshot a with
                 | Returned d => Returned d
                 | Raised _ => Returned (fun _ => [])
                 end;
     eval_ms := eval_ms a;
     wait_extra_ms := wait_extra_ms a |}.

(** A float that is zero or greater. *)
Definition float_nonneg (f : pyfloat) : Prop :=
  match f with
  | PyFinite q => (0 <= q)%Q
  | PyInf negative => negative = false
  | PyNaN => False
  end.

(** *** The price record (3, 4.7) *)

(** The record carries [v] in the field its unit label selects, and the other
    field is null. *)
Definition price_assigned (r : PriceResponse) (v : pyfloat) : Prop :=
  (raw_unit r = Some "kg"%string /\ price_per_kg r = Some v /\ unit_price r = None) \/
  (raw_unit r <> Some "kg"%string /\ unit_price r = Some v /\ price_per_kg r = None).

(** The polling loop of a request. *)
Definition request_poll (page : Browser) : option (PollOutcome * N) :=
  poll poll_fuel (attempts page) 0 (poll_clock page + poll_window)%N
       (poll_clock page + poll_delay page)%N.

(** *** Sample pages *)

Definition price_element (txt col decoration : string) : Element :=
  {| textContent := txt; cs_color := col;
     cs_textDecoration := decoration; cs_textDecorationLine := decoration |}.

(** A page with a struck former price, the current price in red and a
    price in black. *)
Definition offer_page : DOM :=
  fun sel =>
    if String.eqb sel "[class*='as-price']" then
      [ price_element " $99.00 " "rgb(0, 0, 0)" "line-through solid rgb(0, 0, 0)";
        price_element "$90.00" "rgb(0, 0, 0)" "none";
        price_element " $85.00 " "rgb(214, 0, 28)" "none" ]
    else [].

(** A page that shows no price. *)
Definition blank_page : DOM := fun _ => [].

(** A page whose only price is a red zero. *)
Definition free_page : DOM :=
  fun sel =>
    if String.eqb sel "mat-label.as-price"
    then [ price_element "$0.00" "rgb(214, 0, 28)" "none" ]
    else [].

(** Every turn sees [d]. *)
Definition steady (d : DOM) : nat -> Attempt :=
  fun _ => {| snapshot := Returned d; eval_ms := 40; wait_extra_ms := 3 |}.

(** Every turn raises. *)
Definition failing : nat -> Attempt :=
  fun _ => {| snapshot := Raised (BrowserError "Execution context was destroyed");
              eval_ms := 5; wait_extra_ms := 0 |}.

(** Two turns raise while the page navigates, then the offer shows. *)
Definition settling : nat -> Attempt :=
  fun k => if (k <? 2)%nat then failing k else steady offer_page k.

Definition browser_with (name : string) (turns : nat -> Attempt) (body : string)
  : Browser :=
  {| cache_clock := 1000;
     load := Returned tt;
     h1_inner_text := Returned name;
     poll_clock := 5000;
     poll_delay := 1;
     attempts := turns;
     body_inner_text := Returned body;
     store_clock := 7000 |}.

Definition product_url : string := "https://www.alsuper.com/producto/queso-chihuahua-400g".

Definition kg_url : string := "https://www.alsuper.com/producto/pulpa-de-res-kg".

(** Three requests: a product sold by the piece, a product sold by the
    kilogram, and the first product again while its record is cached. *)
Definition sample_requests : list (string * Browser) :=
  [ (product_url, browser_with " Queso Chihuahua " (steady offer_page) "Queso Chihuahua 400 g");
    (kg_url, browser_with "Pulpa de Res" settling "Pulpa de res, precio por kg");
    (product_url, browser_with "" failing "") ].

Definition cheese_record : PriceResponse :=
  {| url := product_url;
     product_name := Some "Queso Chihuahua";
     price_per_kg := None;
     unit_price := Some (PyFinite (85 # 1));
     unit_pack_size := Some 1%Z;
     unit_weight_g := None;
     currency := "MXN";
     raw_unit := Some "pieza" |}.

Definition beef_record : PriceResponse :=
  {| url := kg_url;
     product_name := Some "Pulpa de Res";
     price_per_kg := Some (PyFinite (85 # 1));
     unit_price := None;
     unit_pack_size := None;
     unit_weight_g := None;
     currency := "MXN";
     raw_unit := Some "kg" |}.

(* ------------------------------------------------------------------ *)
(** ** Further vocabulary *)

(** The text has a digit. *)
Definition has_digit (s : string) : Prop :=
  exists pre d post, s = (pre ++ String d post)%string /\ is_digit d = true.

(** The results [_guess_units] has: those of the six rules and the
    default. *)
Definition unit_outcomes : list UnitClassification :=
  map snd decision_table ++ [default_unit].

(** The position of the first rule that fires, or the number of rules. *)
Fixpoint rule_rank (table : list Rule) (low : string) : nat :=
  match table with
  | [] => 0
  | r :: rest => if rule_fires low r then 0 else S (rule_rank rest low)
  end.

(** The unit fields of a record agree with each other and with the price
    fields. *)
Definition units_consistent (r : PriceResponse) : Prop :=
  exists label,
    raw_unit r = Some label /\
    In (label, unit_pack_size r, unit_weight_g r) unit_outcomes /\
    (unit_pack_size r = None <-> price_per_kg r <> None) /\
    currency r = "MXN"%string.

(** [0-9], [a-f] or [A-F] *)
Definition is_hex_digit (c : ascii) : bool :=
  in_range 48 57 c || in_range 97 102 c || in_range 65 70 c.

(** A character other than [k] and [r]; each colour word has one of the
    two. *)
Definition not_k_r (c : ascii) : bool :=
  negb (Ascii.eqb c "k") && negb (Ascii.eqb c "r").

(** The parts joined by commas. *)
Fixpoint join_commas (parts : list string) : string :=
  match parts with
  | [] => EmptyString
  | [x] => x
  | x :: rest => (x ++ String "," (join_commas rest))%string
  end.

(** The functional notation [fn(p1,p2,...)]. *)
Definition functional (fn : string) (parts : list string) : string :=
  (fn ++ String "(" (join_commas parts ++ ")"))%string.

(** A character of a number as a browser prints it in a colour: a digit,
    the point or a space. *)
Definition numeric_char (c : ascii) : bool := run_char c || Ascii.eqb c " ".

(** A character other than [d] and [k]; each colour word has one of the
    two. *)
Definition not_d_k (c : ascii) : bool :=
  negb (Ascii.eqb c "d") && negb (Ascii.eqb c "k").

(** A page whose label shows only the struck former price, while an element
    matched by a later selector shows the current price. *)
Definition struck_label_page : DOM :=
  fun sel =>
    if String.eqb sel "mat-label.as-price" then
      [ price_element "$99.00" "rgb(0, 0, 0)" "line-through" ]
    else if String.eqb sel "[class*='as-price']" then
      [ price_element "$99.00" "rgb(0, 0, 0)" "line-through";
        price_element "$85.00" "rgb(214, 0, 28)" "none" ]
    else [].

(** The browser of [browser_with], asked at cache clock [t], with a page that
    does not load. *)
Definition offline_at (t : N) : Browser :=
  {| cache_clock := t;
     load := Raised (BrowserError "net::ERR_INTERNET_DISCONNECTED");
     h1_inner_text := Raised (BrowserError "closed");
     poll_clock := t;
     poll_delay := 0;
     attempts := failing;
     body_inner_text := Raised (BrowserError "closed");
     store_clock := t |}.

(** The URL of another product, one for each [i]. *)
Fixpoint other_url (i : nat) : string :=
  match i with
  | O => "https://www.alsuper.com/producto/articulo-1"
  | S i' => other_url i' ++ "1"
  end.

(** Requests for the first [n] other products, each of them making a record
    at clock 7000. *)
Definition other_requests (n : nat) : list (string * Browser) :=
  map (fun i => (other_url i, browser_with "Articulo" (steady offer_page) "Articulo"))
      (seq 0 n).

(* ------------------------------------------------------------------ *)
(** * Properties *)

(** ** Characters and strings *)

#[local] Arguments Ascii.eqb : simpl never.
#[local] Arguments is_digit : simpl never.
#[local] Arguments c_isspace : simpl never.
#[local] Arguments py_isspace : simpl never.

Lemma is_digit_not_underscore (c : ascii) : is_digit c = true -> Ascii.eqb c "_" = false.
Proof.
  intros H. apply Ascii.eqb_neq. intros ->. discriminate H.
Qed.

Lemma is_digit_not_sign (c : ascii) :
  is_digit c = true -> Ascii.eqb c "-" = false /\ Ascii.eqb c "+" = false.
Proof.
  intros H. split; apply Ascii.eqb_neq; intros ->; discriminate H.
Qed.

Lemma is_digit_not_space (c : ascii) : is_digit c = true -> c_isspace c = false.
Proof.
  unfold is_digit, c_isspace, in_range. intros H.
  apply andb_true_iff in H. destruct H as [H1 H2].
  apply Nat.leb_le in H1.
  apply orb_false_iff. split.
  - apply andb_false_iff. right. apply Nat.leb_gt. lia.
  - apply Nat.eqb_neq. lia.
Qed.

Lemma append_assoc (a b c : string) : ((a ++ b) ++ c = a ++ (b ++ c))%string.
Proof. induction a as [|x a IH]; simpl; [reflexivity | now rewrite IH]. Qed.

Lemma append_empty_r (a : string) : (a ++ "" = a)%string.
Proof. induction a as [|x a IH]; simpl; [reflexivity | now rewrite IH]. Qed.

Lemma length_append (a b : string) :
  String.length (a ++ b) = (String.length a + String.length b)%nat.
Proof. induction a as [|x a IH]; simpl; [reflexivity | now rewrite IH]. Qed.

Lemma all_chars_append (p : ascii -> bool) (a b : string) :
  all_chars p (a ++ b) = all_chars p a && all_chars p b.
Proof.
  induction a as [|x a IH]; simpl; [reflexivity|].
  now rewrite IH, andb_assoc.
Qed.

Lemma all_chars_impl (p q : ascii -> bool) (s : string) :
  (forall c, p c = true -> q c = true) ->
  all_chars p s = true -> all_chars q s = true.
Proof.
  intros Hpq. induction s as [|x s IH]; simpl; [reflexivity|].
  intros H. apply andb_true_iff in H. destruct H as [H1 H2].
  now rewrite (Hpq _ H1), IH.
Qed.

(** *** [startswith] and [contains] *)

Lemma startswith_append (p s : string) : startswith p (p ++ s) = true.
Proof.
  induction p as [|x p IH]; simpl; [reflexivity|].
  now rewrite Ascii.eqb_refl, IH.
Qed.

Lemma startswith_inv (p s : string) :
  startswith p s = true -> exists t, s = (p ++ t)%string.
Proof.
  revert s. induction p as [|x p IH]; intros s H.
  - now exists s.
  - destruct s as [|y s]; simpl in H; [discriminate|].
    apply andb_true_iff in H. destruct H as [H1 H2].
    apply Ascii.eqb_eq in H1. subst y.
    destruct (IH _ H2) as [t ->]. now exists t.
Qed.

Lemma contains_unfold (n h : string) :
  contains n h = startswith n h ||
                 match h with EmptyString => false | String _ t => contains n t end.
Proof. destruct h; reflexivity. Qed.

Lemma contains_occurs (n h : string) : contains n h = true <-> occurs n h.
Proof.
  split.
  - induction h as [|x h IH]; rewrite contains_unfold; intros H;
      apply orb_true_iff in H; destruct H as [H|H].
    + apply startswith_inv in H. destruct H as [t ->]. now exists ""%string, t.
    + discriminate.
    + apply startswith_inv in H. destruct H as [t ->]. now exists ""%string, t.
    + destruct (IH H) as (pre & post & ->). now exists (String x pre), post.
  - intros (pre & post & ->). induction pre as [|x pre IH].
    + change ("" ++ n ++ post)%string with (n ++ post)%string.
      rewrite contains_unfold, startswith_append. reflexivity.
    + change (String x pre ++ n ++ post)%string
        with (String x (pre ++ n ++ post)%string).
      rewrite contains_unfold, IH. apply orb_true_r.
Qed.

Lemma contains_append_l (n a b : string) :
  contains n a = true -> contains n (a ++ b) = true.
Proof.
  rewrite !contains_occurs. intros (pre & post & ->).
  exists pre, (post ++ b)%string. now rewrite !append_assoc.
Qed.

Lemma contains_append_r (n a b : string) :
  contains n b = true -> contains n (a ++ b) = true.
Proof.
  rewrite !contains_occurs. intros (pre & post & ->).
  exists (a ++ pre)%string, post. now rewrite !append_assoc.
Qed.

Lemma lower_append (a b : string) : lower (a ++ b) = (lower a ++ lower b)%string.
Proof. induction a as [|x a IH]; simpl; [reflexivity | now rewrite IH]. Qed.

Lemma contains_lower (n h : string) :
  contains n h = true -> contains (lower n) (lower h) = true.
Proof.
  rewrite !contains_occurs. intros (pre & post & ->).
  exists (lower pre), (lower post). now rewrite !lower_append.
Qed.

(** *** [span] *)

Lemma span_spec (p : ascii -> bool) (s : string) :
  s = (fst (span p s) ++ snd (span p s))%string /\
  all_chars p (fst (span p s)) = true /\
  head_is p (snd (span p s)) = false.
Proof.
  induction s as [|c s IH]; simpl; [auto|].
  destruct (p c) eqn:Hc.
  - destruct (span p s) as [a b]. simpl in *.
    destruct IH as (E & Ha & Hb). rewrite Hc, Ha. repeat split; auto.
    now rewrite <- E.
  - simpl. now rewrite Hc.
Qed.

Lemma span_append (p : ascii -> bool) (a b : string) :
  all_chars p a = true -> head_is p b = false -> span p (a ++ b) = (a, b).
Proof.
  induction a as [|c a IH]; simpl; intros Ha Hb.
  - destruct b as [|d b]; [reflexivity|]. simpl in *. now rewrite Hb.
  - apply andb_true_iff in Ha. destruct Ha as [Hc Ha].
    now rewrite Hc, (IH Ha Hb).
Qed.

Lemma span_all (p : ascii -> bool) (a : string) :
  all_chars p a = true -> span p a = (a, ""%string).
Proof.
  intros Ha. rewrite <- (append_empty_r a) at 1. now apply span_append.
Qed.

(** *** The regular expression of [_num] *)

Lemma digit_split (s : string) :
  all_chars not_digit s = true \/
  exists pre rest, s = (pre ++ rest)%string /\ all_chars not_digit pre = true /\
                   head_is is_digit rest = true.
Proof.
  induction s as [|c s IH].
  - now left.
  - destruct (is_digit c) eqn:Hc.
    + right. exists ""%string, (String c s). simpl. auto.
    + destruct IH as [H | (pre & rest & -> & Hp & Hr)].
      * left. simpl. unfold not_digit at 1. now rewrite Hc.
      * right. exists (String c pre), rest. simpl. unfold not_digit at 1.
        now rewrite Hc.
Qed.

Lemma re_search_number_none (s : string) :
  all_chars not_digit s = true -> re_search_number s = None.
Proof.
  induction s as [|c s IH]; simpl; [reflexivity|].
  unfold not_digit at 1. destruct (is_digit c); simpl; [discriminate | exact IH].
Qed.

Lemma re_search_number_some (pre rest : string) :
  all_chars not_digit pre = true -> head_is is_digit rest = true ->
  re_search_number (pre ++ rest) = Some (match_number rest).
Proof.
  induction pre as [|c pre IH]; simpl; intros Hp Hr.
  - destruct rest as [|d rest]; [discriminate|]. simpl in Hr.
    simpl re_search_number. now rewrite Hr.
  - unfold not_digit at 1 in Hp. destruct (is_digit c); simpl in Hp;
      [discriminate | now apply IH].
Qed.

Lemma match_fraction_spec (r : string) :
  exists post, r = (match_fraction r ++ post)%string /\
    (match_fraction r = ""%string \/
     exists fp, match_fraction r = String "." fp /\
                all_chars is_digit fp = true /\
                (1 <= String.length fp <= 2)%nat).
Proof.
  destruct r as [|c [|d1 r]]; simpl.
  - exists ""%string. auto.
  - exists (String c ""). auto.
  - destruct (Ascii.eqb c ".") eqn:Hc; simpl.
    2:{ exists (String c (String d1 r)). auto. }
    apply Ascii.eqb_eq in Hc. subst c.
    destruct (is_digit d1) eqn:H1.
    2:{ exists (String "." (String d1 r)). auto. }
    destruct r as [|d2 r].
    + exists ""%string. split; [reflexivity|]. right. exists (String d1 "").
      simpl. rewrite H1. repeat split; auto.
    + destruct (is_digit d2) eqn:H2.
      * exists r. split; [reflexivity|]. right. exists (String d1 (String d2 "")).
        simpl. rewrite H1, H2. repeat split; auto.
      * exists (String d2 r). split; [reflexivity|]. right. exists (String d1 "").
        simpl. rewrite H1. repeat split; auto.
Qed.

Lemma match_fraction_longest (r fp : string) :
  all_chars is_digit fp = true -> (1 <= String.length fp <= 2)%nat ->
  startswith (String "." fp) r = true ->
  (String.length (String "." fp) <= String.length (match_fraction r))%nat.
Proof.
  intros Hd Hl Hs.
  destruct fp as [|d1 [|d2 [|d3 fp]]]; simpl in Hl; try lia.
  - destruct r as [|c [|e1 r]]; simpl in Hs; try discriminate.
    { rewrite andb_false_r in Hs. discriminate. }
    apply andb_true_iff in Hs. destruct Hs as [Hc Hs].
    apply andb_true_iff in Hs. destruct Hs as [He _].
    apply Ascii.eqb_eq in Hc, He. subst c e1.
    simpl in Hd. rewrite andb_true_r in Hd.
    simpl. rewrite Hd. destruct r as [|e2 r]; simpl; [lia|].
    destruct (is_digit e2); simpl; lia.
  - destruct r as [|c [|e1 [|e2 r]]]; simpl in Hs; try discriminate.
    { rewrite andb_false_r in Hs. discriminate. }
    { rewrite !andb_false_r in Hs. discriminate. }
    apply andb_true_iff in Hs. destruct Hs as [Hc Hs].
    apply andb_true_iff in Hs. destruct Hs as [He1 Hs].
    apply andb_true_iff in Hs. destruct Hs as [He2 _].
    apply Ascii.eqb_eq in Hc, He1, He2. subst c e1 e2.
    simpl in Hd. rewrite andb_true_r in Hd.
    apply andb_true_iff in Hd. destruct Hd as [Hd1 Hd2].
    simpl. rewrite Hd1, Hd2. simpl. lia.
Qed.

(** A run of digits that starts a text is within the digits the text
    starts with. *)
Lemma digits_prefix_length (a ds r : string) :
  all_chars is_digit a = true -> head_is is_digit r = false ->
  startswith a (ds ++ r) = true ->
  (String.length a <= String.length ds)%nat.
Proof.
  revert ds. induction a as [|c a IH]; intros ds Ha Hr Hs; simpl; [lia|].
  simpl in Ha. apply andb_true_iff in Ha. destruct Ha as [Hc Ha].
  destruct ds as [|d ds].
  - destruct r as [|e r]; simpl in Hs; [discriminate|].
    apply andb_true_iff in Hs. destruct Hs as [He _].
    apply Ascii.eqb_eq in He. subst e. simpl in Hr. congruence.
  - simpl in Hs. apply andb_true_iff in Hs. destruct Hs as [_ Hs].
    specialize (IH ds Ha Hr Hs). simpl. lia.
Qed.

(** Digits, then a point: the digits are all the digits the text starts
    with. *)
Lemma digits_point_prefix (a t ds r : string) :
  all_chars is_digit a = true -> all_chars is_digit ds = true ->
  head_is is_digit r = false ->
  startswith (a ++ String "." t) (ds ++ r) = true ->
  a = ds /\ startswith (String "." t) r = true.
Proof.
  revert ds. induction a as [|c a IH]; intros ds Ha Hds Hr Hs.
  - destruct ds as [|d ds].
    + split; [reflexivity | exact Hs].
    + simpl in Hs. apply andb_true_iff in Hs. destruct Hs as [Hd _].
      apply Ascii.eqb_eq in Hd. subst d. simpl in Hds. discriminate.
  - simpl in Ha. apply andb_true_iff in Ha. destruct Ha as [Hc Ha].
    destruct ds as [|d ds].
    + destruct r as [|e r]; simpl in Hs; [discriminate|].
      apply andb_true_iff in Hs. destruct Hs as [He _].
      apply Ascii.eqb_eq in He. subst e. simpl in Hr. congruence.
    + simpl in Hs. apply andb_true_iff in Hs. destruct Hs as [Hcd Hs].
      apply Ascii.eqb_eq in Hcd. subst d.
      simpl in Hds. apply andb_true_iff in Hds. destruct Hds as [_ Hds].
      destruct (IH ds Ha Hds Hr Hs) as [-> H]. auto.
Qed.

Lemma match_number_spec (rest : string) :
  head_is is_digit rest = true ->
  exists ip fp post,
    rest = (match_number rest ++ post)%string /\
    number_run (match_number rest) ip fp /\
    forall run' ip' fp',
      number_run run' ip' fp' -> startswith run' rest = true ->
      (String.length run' <= String.length (match_number rest))%nat.
Proof.
  intros Hh. unfold match_number.
  destruct (span_spec is_digit rest) as (E & Hds & Hr1).
  destruct (span is_digit rest) as [ds r1]. simpl in E, Hds, Hr1.
  assert (Hne : ds <> ""%string).
  { intros ->. simpl in E. subst r1. congruence. }
  destruct (match_fraction_spec r1) as (post & Er1 & Hfrac).
  assert (Hmax : forall run' ip' fp',
             number_run run' ip' fp' -> startswith run' rest = true ->
             (String.length run' <= String.length (ds ++ match_fraction r1))%nat).
  { intros run' ip' fp' Hrun Hs. rewrite length_append. rewrite E in Hs.
    destruct Hrun as [ip' Hn' Hd' | ip' fp' Hn' Hd' Hf' Hl'].
    - pose proof (digits_prefix_length _ _ _ Hd' Hr1 Hs). lia.
    - destruct (digits_point_prefix _ _ _ _ Hd' Hds Hr1 Hs) as [-> Hs'].
      pose proof (match_fraction_longest _ _ Hf' Hl' Hs').
      rewrite length_append. lia. }
  destruct Hfrac as [Hz | (fp & Hf & Hfd & Hfl)].
  - exists ds, ""%string, post. rewrite Hz in *. simpl in Er1. subst post.
    rewrite append_empty_r in *. repeat split; auto.
    now constructor.
  - exists ds, fp, post. rewrite Hf in *. repeat split; auto.
    + rewrite E at 1. rewrite Er1 at 1. now rewrite append_assoc.
    + now constructor.
Qed.

(** *** [float()]: examples *)

Example py_float_ex1 : py_float "1234.50" = Returned (PyFinite (2469 # 2)).
Proof. vm_compute. reflexivity. Qed.
Example py_float_ex2 : py_float " -1_0.75e1 " = Returned (PyFinite (-215 # 2)).
Proof. vm_compute. reflexivity. Qed.
Example py_float_ex3 :
  py_float "0.1" = Returned (PyFinite (3602879701896397 # 36028797018963968)).
Proof. vm_compute. reflexivity. Qed.
Example py_float_ex4 : py_float "1e309" = Returned (PyInf false).
Proof. vm_compute. reflexivity. Qed.
Example py_float_ex6 : py_float "10.9999999999999999999" = Returned (PyFinite (11 # 1)).
Proof. vm_compute. reflexivity. Qed.
Example py_float_ex7 : py_float "5e-324" = Returned (PyFinite (1 # Z.to_pos (2 ^ 1074))).
Proof. vm_compute. reflexivity. Qed.
Example py_float_ex8 : py_float "2e-324" = Returned (PyFinite (0 # 1)).
Proof. vm_compute. reflexivity. Qed.
Example py_float_ex9 : py_float "9007199254740993" = Returned (PyFinite (9007199254740992 # 1)).
Proof. vm_compute. reflexivity. Qed.
Example py_float_ex10 :
  py_float "1e" = Raised ValueError /\ py_float "." = Raised ValueError /\
  py_float "1_" = Raised ValueError /\ py_float "-Infinity" = Returned (PyInf true) /\
  py_float ".5" = Returned (PyFinite (1 # 2)) /\ py_float "5." = Returned (PyFinite (5 # 1)) /\
  py_float "" = Raised ValueError /\ py_float "50%" = Raised ValueError.
Proof. vm_compute. repeat split; reflexivity. Qed.

Example py_float_ex11 :
  py_float "1e1_0" = Returned (PyFinite (10000000000 # 1)) /\
  py_float "1__0" = Raised ValueError /\ py_float "_1" = Raised ValueError /\
  py_float "1_e5" = Raised ValueError /\ py_float "1e_5" = Raised ValueError /\
  py_float "0x10" = Raised ValueError /\ py_float "1.5.3" = Raised ValueError /\
  py_float "--1" = Raised ValueError /\ py_float "1 2" = Raised ValueError /\
  py_float "+inf" = Returned (PyInf false) /\ py_float "INF" = Returned (PyInf false) /\
  py_float "-nan" = Returned PyNaN /\
  (f <- py_float "10.9";; py_int f) = Returned 10%Z /\
  (f <- py_float "-0.5";; py_int f) = Returned 0%Z /\
  (f <- py_float "1e309";; py_int f) = Raised OverflowError.
Proof. vm_compute. repeat split; reflexivity. Qed.

(** *** [float()] on a run *)

Lemma drop_underscores_id (prev : ascii) (s : string) :
  Ascii.eqb prev "_" = false ->
  all_chars (fun c => negb (Ascii.eqb c "_")) s = true ->
  drop_underscores prev s = Some s.
Proof.
  revert prev. induction s as [|c s IH]; intros prev Hp Hs; simpl.
  - now rewrite Hp.
  - simpl in Hs. apply andb_true_iff in Hs. destruct Hs as [Hc Hs].
    apply negb_true_iff in Hc. rewrite Hc, Hp. simpl.
    now rewrite (IH c Hc Hs).
Qed.

Lemma lstrip_id (sp : ascii -> bool) (s : string) :
  head_is sp s = false -> lstrip sp s = s.
Proof. destruct s as [|c s]; simpl; [reflexivity|]. now intros ->. Qed.

Lemma rstrip_id (sp : ascii -> bool) (s : string) :
  all_chars (fun c => negb (sp c)) s = true -> rstrip sp s = s.
Proof.
  induction s as [|c s IH]; simpl; [reflexivity|]. intros H.
  apply andb_true_iff in H. destruct H as [Hc Hs].
  apply negb_true_iff in Hc. rewrite (IH Hs), Hc. now destruct s.
Qed.

Lemma strip_id (sp : ascii -> bool) (s : string) :
  all_chars (fun c => negb (sp c)) s = true -> strip sp s = s.
Proof.
  intros H. unfold strip. rewrite lstrip_id; [now apply rstrip_id|].
  destruct s as [|c s]; [reflexivity|]. simpl in *.
  apply andb_true_iff in H. destruct H as [Hc _]. now apply negb_true_iff.
Qed.

Lemma number_run_chars (run ip fp : string) :
  number_run run ip fp -> all_chars run_char run = true.
Proof.
  assert (Hd : forall s, all_chars is_digit s = true -> all_chars run_char s = true).
  { intros s. apply all_chars_impl. intros c Hc. unfold run_char. now rewrite Hc. }
  intros [ip' Hn H | ip' fp' Hn H Hf Hl]; [now apply Hd|].
  rewrite all_chars_append. cbn [all_chars]. rewrite (Hd _ H), (Hd _ Hf).
  unfold run_char at 1. rewrite Ascii.eqb_refl. now rewrite orb_true_r.
Qed.

Lemma run_char_not_underscore (c : ascii) :
  run_char c = true -> negb (Ascii.eqb c "_") = true.
Proof.
  unfold run_char. intros H. apply orb_true_iff in H. destruct H as [H|H].
  - now rewrite is_digit_not_underscore.
  - apply Ascii.eqb_eq in H. now subst c.
Qed.

Lemma run_char_not_space (c : ascii) :
  run_char c = true -> negb (c_isspace c) = true.
Proof.
  unfold run_char. intros H. apply orb_true_iff in H. destruct H as [H|H].
  - now rewrite is_digit_not_space.
  - apply Ascii.eqb_eq in H. now subst c.
Qed.

Lemma number_run_head (run ip fp : string) :
  number_run run ip fp -> head_is is_digit run = true.
Proof.
  intros [ip' Hn H | ip' fp' Hn H Hf Hl];
    (destruct ip' as [|c ip']; [congruence|]); simpl in *;
    now apply andb_true_iff in H.
Qed.

Lemma read_sign_digit (s : string) :
  head_is is_digit s = true -> read_sign s = (false, s).
Proof.
  destruct s as [|c s]; simpl; [reflexivity|]. intros H.
  destruct (is_digit_not_sign _ H) as [H1 H2]. now rewrite H1, H2.
Qed.

Lemma is_empty_false (s : string) : s <> ""%string -> is_empty s = false.
Proof. destruct s; [congruence | reflexivity]. Qed.

Lemma read_unsigned_run (run ip fp : string) :
  number_run run ip fp -> read_unsigned run = Some (run_value ip fp).
Proof.
  intros [ip' Hn H | ip' fp' Hn H Hf Hl]; unfold read_unsigned, run_value.
  - rewrite (span_all _ _ H). rewrite (is_empty_false _ Hn). simpl.
    rewrite append_empty_r. now rewrite Z.mul_1_r.
  - rewrite (span_append is_digit ip' (String "." fp') H eq_refl).
    rewrite Ascii.eqb_refl, (span_all _ _ Hf).
    rewrite (is_empty_false _ Hn). cbn [andb read_exponent].
    replace (0 <=? 0 - Z.of_nat (String.length fp'))%Z with false
      by (symmetry; apply Z.leb_gt; lia).
    now replace (- (0 - Z.of_nat (String.length fp')))%Z
      with (Z.of_nat (String.length fp')) by lia.
Qed.

Lemma py_float_run (run ip fp : string) :
  number_run run ip fp -> py_float run = Returned (run_value ip fp).
Proof.
  intros Hrun. unfold py_float.
  pose proof (number_run_chars _ _ _ Hrun) as Hc.
  rewrite drop_underscores_id;
    [| reflexivity | exact (all_chars_impl _ _ _ run_char_not_underscore Hc)].
  rewrite strip_id by exact (all_chars_impl _ _ _ run_char_not_space Hc).
  rewrite (read_sign_digit _ (number_run_head _ _ _ Hrun)).
  now rewrite (read_unsigned_run _ _ _ Hrun).
Qed.

(** ** The numeric text parser *)


(** What [_num] returns, by the digits of the cleaned text. *)
Lemma _num_cases (txt : string) :
  let clean := strip py_isspace (remove_char "$" (remove_char "," txt)) in
  (exists run ip fp,
      first_run clean run ip fp /\
      _num txt = Returned (Some (run_value ip fp))) \/
  (all_chars not_digit clean = true /\ _num txt = Returned None).
Proof.
  intros clean. unfold _num. fold clean.
  destruct (is_empty txt) eqn:Hemp.
  { right. split; [|reflexivity]. destruct txt; [reflexivity | discriminate]. }
  destruct (digit_split clean) as [Hnone | (pre & rest & E & Hpre & Hrest)].
  - right. now rewrite (re_search_number_none _ Hnone).
  - left. rewrite E, (re_search_number_some _ _ Hpre Hrest).
    destruct (match_number_spec _ Hrest) as (ip & fp & post & Er & Hrun & Hmax).
    exists (match_number rest), ip, fp. split.
    + split; [exact Hrun|]. exists pre, post. repeat split; auto.
      * now rewrite <- Er.
      * intros run' ip' fp' Hrun' Hs. rewrite <- Er in Hs. eauto.
    + now rewrite (py_float_run _ _ _ Hrun).
Qed.


(** ** The unit heuristic *)

Lemma occurs_suffix (a b h : string) : occurs (a ++ b) h -> occurs b h.
Proof.
  intros (pre & post & ->). exists (pre ++ a)%string, post.
  now rewrite !append_assoc.
Qed.

Lemma contains_longer (a b h : string) :
  contains (a ++ b) h = true -> contains b h = true.
Proof. rewrite !contains_occurs. apply occurs_suffix. Qed.

Lemma mentions_folded (m url page_text : string) :
  mentions m url page_text -> contains m (folded url page_text) = true.
Proof.
  unfold mentions, folded. rewrite !lower_append. intros [H|H].
  - now apply contains_append_l.
  - now apply contains_append_r, contains_append_r.
Qed.

Lemma _guess_units_table (url page_text : string) :
  _guess_units url page_text = first_match decision_table (folded url page_text).
Proof.
  unfold _guess_units, folded. set (low := lower _).
  assert (H6 : contains "cerveza-six-pack" low || contains "six pack" low
               || contains "six-pack" low
               = contains "six-pack" low || (contains "six pack" low || false)).
  { destruct (contains "six-pack" low) eqn:E1.
    - now rewrite orb_true_r.
    - destruct (contains "cerveza-six-pack" low) eqn:E2.
      + apply (contains_longer "cerveza-" "six-pack") in E2. congruence.
      + simpl. now rewrite !orb_false_r. }
  cbn [first_match decision_table rule_fires fst snd existsb].
  rewrite H6.
  destruct (contains "six-pack" low || (contains "six pack" low || false));
    [reflexivity|].
  rewrite <- !orb_assoc.
  destruct (contains "nectar-mixto" low || (contains "v8" low || (contains "lata" low || false))) eqn:E2.
  { rewrite orb_false_r in E2. now rewrite E2. }
  rewrite orb_false_r in E2. rewrite E2.
  destruct (contains "kg" low || _); [reflexivity|].
  rewrite !orb_false_r.
  destruct (contains "chorizo" low); [reflexivity|].
  destruct (contains "salchicha" low || contains "salchichas" low); [reflexivity|].
  destruct (contains "paquete" low); reflexivity.
Qed.

Lemma first_match_six_pack (low : string) :
  contains "six-pack" low = true \/ contains "six pack" low = true ->
  first_match decision_table low = ("six-pack", Some 6%Z, None).
Proof.
  intros H. cbn [first_match decision_table rule_fires fst snd existsb].
  destruct H as [-> | ->]; [reflexivity | now rewrite orb_true_r].
Qed.

(** The claim as it stands fails: a URL with ["chorizo-"] and a per-kilogram
    marker is classified [kg], not [(pieza, 1, 100)]. *)
Lemma guess_units_chorizo_shadowed :
  contains "chorizo-" "https://www.alsuper.com/producto/chorizo-casero-1kg" = true /\
  _guess_units "https://www.alsuper.com/producto/chorizo-casero-1kg" ""
    = ("kg", None, None) /\
  _guess_units "https://www.alsuper.com/producto/chorizo-casero-1kg" ""
    <> ("pieza", Some 1%Z, Some 100%Z).
Proof.
  repeat split; try (vm_compute; reflexivity).
  vm_compute. discriminate.
Qed.

(** C3, as amended.  [_guess_units] is the ordered, first-match-wins decision
    table on the case-folded concatenation of URL and page text.  An input
    that mentions a six-pack marker is [six-pack] also when it mentions
    ["paquete"]; a URL containing ["cerveza-six-pack"] gives
    [(six-pack, 6, null)]; a URL containing ["chorizo-"] gives
    [(pieza, 1, 100)] provided no marker of the three rules above the
    chorizo rule occurs in the folded text. *)
Theorem guess_units_decision_table :
  (forall url page_text,
      _guess_units url page_text
      = first_match decision_table (lower (url ++ " " ++ page_text))) /\
  (forall url page_text,
      mentions "six-pack" url page_text \/ mentions "six pack" url page_text ->
      mentions "paquete" url page_text ->
      _guess_units url page_text = ("six-pack", Some 6%Z, None)) /\
  (forall url page_text,
      contains "cerveza-six-pack" url = true ->
      _guess_units url page_text = ("six-pack", Some 6%Z, None)) /\
  (forall url page_text,
      contains "chorizo-" url = true ->
      forallb (fun m => negb (contains m (lower (url ++ " " ++ page_text))))
              markers_above_chorizo = true ->
      _guess_units url page_text = ("pieza", Some 1%Z, Some 100%Z)).
Proof.
  split; [|split; [|split]].
  - intros url page_text. apply _guess_units_table.
  - intros url page_text H6 _. rewrite _guess_units_table.
    apply first_match_six_pack.
    destruct H6 as [H|H]; [left | right]; now apply mentions_folded.
  - intros url page_text H. rewrite _guess_units_table.
    apply first_match_six_pack. left.
    apply (contains_longer "cerveza-" "six-pack").
    apply (mentions_folded "cerveza-six-pack"). left.
    now apply (contains_lower "cerveza-six-pack").
  - intros url page_text Hc Hno. rewrite _guess_units_table.
    fold (folded url page_text) in Hno.
    assert (Hch : contains "chorizo" (folded url page_text) = true).
    { apply contains_occurs.
      assert (H : occurs "chorizo-" (folded url page_text)).
      { apply contains_occurs. apply (mentions_folded "chorizo-"). left.
        now apply (contains_lower "chorizo-"). }
      destruct H as (pre & post & E). exists pre, ("-" ++ post)%string.
      rewrite E. reflexivity. }
    cbn [markers_above_chorizo decision_table firstn flat_map fst app forallb] in Hno.
    repeat (apply andb_true_iff in Hno; destruct Hno as [?H Hno]).
    repeat match goal with H : negb _ = true |- _ => apply negb_true_iff in H end.
    cbn [first_match decision_table rule_fires fst snd existsb].
    repeat match goal with H : contains _ _ = false |- _ => rewrite H; clear H end.
    now rewrite Hch.
Qed.

Lemma guess_units_decision_table_witness :
  _guess_units "https://www.alsuper.com/producto/cerveza-six-pack-355ml"
               "Paquete de 6 botellas" = ("six-pack", Some 6%Z, None) /\
  _guess_units "https://www.alsuper.com/producto/cerveza-six-pack-lager" ""
    = ("six-pack", Some 6%Z, None) /\
  _guess_units "https://www.alsuper.com/producto/chorizo-argentino" "Chorizo argentino"
    = ("pieza", Some 1%Z, Some 100%Z).
Proof.
  destruct guess_units_decision_table as (_ & Hshadow & Hsix & Hchorizo).
  split; [|split].
  - apply Hshadow.
    + left. left. vm_compute. reflexivity.
    + right. vm_compute. reflexivity.
  - apply Hsix. vm_compute. reflexivity.
  - apply Hchorizo; vm_compute; reflexivity.
Defined.

(** ** The colour classifier *)

Lemma rgb_block_channels (s : string) :
  rgb_block s =
  (rgb <- rgb_channels s;;
   if near_black rgb then Returned (Some "black")
   else if strong_red rgb then Returned (Some "red")
   else Returned None).
Proof.
  unfold rgb_block, rgb_channels.
  destruct (str_index "(" s) as [i|e]; [|reflexivity].
  destruct (str_index ")" s) as [j|e]; [|reflexivity].
  cbn [bind].
  destruct (channel _ 0) as [r|e]; [|reflexivity].
  destruct (channel _ 1) as [g|e]; [|reflexivity].
  destruct (channel _ 2) as [b|e]; reflexivity.
Qed.

Lemma _color_is_red_or_black_classify (color_str : string) :
  _color_is_red_or_black color_str = classify color_str.
Proof.
  unfold _color_is_red_or_black, classify, rgb_branch. fold (normal color_str).
  set (s := normal color_str). fold (by_hex_or_word s).
  destruct (startswith "rgb" s); [|reflexivity].
  rewrite rgb_block_channels.
  destruct (rgb_channels s) as [rgb|e]; [|reflexivity].
  cbn [bind try_except].
  destruct (near_black rgb); [reflexivity|].
  destruct (strong_red rgb); reflexivity.
Qed.

Lemma by_hex_or_word_range (s : string) :
  by_hex_or_word s = Some "red" \/ by_hex_or_word s = Some "black" \/
  by_hex_or_word s = None.
Proof.
  unfold by_hex_or_word.
  repeat match goal with |- context [if ?b then _ else _] => destruct b end; auto.
Qed.

Lemma classify_undecided (c : string) :
  rgb_undecided (normal c) -> classify c = by_hex_or_word (normal c).
Proof.
  unfold classify. intros [H | (rgb & H & Hb & Hr)].
  - now rewrite H.
  - rewrite H, Hb, Hr. now destruct (startswith "rgb" (normal c)).
Qed.

Lemma by_hex_or_word_not_hex (s : string) :
  is_hex_form s = false ->
  by_hex_or_word s =
  if contains "black" s then Some "black"
  else if contains "red" s then Some "red" else None.
Proof.
  unfold is_hex_form, by_hex_or_word. intros H.
  apply orb_false_iff in H. destruct H as [H H4].
  apply orb_false_iff in H. destruct H as [H H3].
  apply orb_false_iff in H. destruct H as [H1 H2].
  now rewrite H1, H2, H3, H4.
Qed.

(** C6. The classifier is a total function into [red], [black] and none:
    an rgb form whose channels are read is [black] when all three are at
    most 10 and [red] when red is at least 180 and green and blue at most
    60; an rgb form that cannot be read is none; the exact forms [#000] and
    [#000000] are [black], [#f00] and [#ff0000] are [red]; when none of these
    decides, the word [black], then the word [red], decides as a substring;
    every other input is none.  The examples of the specification hold. *)
Theorem color_classifier_classes :
  (forall c, _color_is_red_or_black c = classify c) /\
  (forall c, _color_is_red_or_black c = Some "red" \/
             _color_is_red_or_black c = Some "black" \/
             _color_is_red_or_black c = None) /\
  (forall c r g b,
      startswith "rgb" (normal c) = true ->
      rgb_channels (normal c) = Returned (r, g, b) ->
      (r <= 10 /\ g <= 10 /\ b <= 10)%Z ->
      _color_is_red_or_black c = Some "black") /\
  (forall c r g b,
      startswith "rgb" (normal c) = true ->
      rgb_channels (normal c) = Returned (r, g, b) ->
      (180 <= r /\ g <= 60 /\ b <= 60)%Z ->
      _color_is_red_or_black c = Some "red") /\
  (forall c e,
      startswith "rgb" (normal c) = true ->
      rgb_channels (normal c) = Raised e ->
      _color_is_red_or_black c = None) /\
  (forall c, normal c = "#000" \/ normal c = "#000000" ->
             _color_is_red_or_black c = Some "black") /\
  (forall c, normal c = "#f00" \/ normal c = "#ff0000" ->
             _color_is_red_or_black c = Some "red") /\
  (forall c, rgb_undecided (normal c) -> is_hex_form (normal c) = false ->
             contains "black" (normal c) = true ->
             _color_is_red_or_black c = Some "black") /\
  (forall c, rgb_undecided (normal c) -> is_hex_form (normal c) = false ->
             contains "black" (normal c) = false ->
             contains "red" (normal c) = true ->
             _color_is_red_or_black c = Some "red") /\
  (forall c, rgb_undecided (normal c) -> is_hex_form (normal c) = false ->
             contains "black" (normal c) = false ->
             contains "red" (normal c) = false ->
             _color_is_red_or_black c = None) /\
  _color_is_red_or_black "rgb(200,10,10)" = Some "red" /\
  _color_is_red_or_black "rgb(5,5,5)" = Some "black" /\
  _color_is_red_or_black "rgb(100,100,100)" = None /\
  _color_is_red_or_black "#000000" = Some "black" /\
  _color_is_red_or_black "#ff0000" = Some "red".
Proof.
  split; [exact _color_is_red_or_black_classify|].
  split.
  { intros c. rewrite _color_is_red_or_black_classify. unfold classify.
    pose proof (by_hex_or_word_range (normal c)).
    destruct (startswith "rgb" (normal c)); [|assumption].
    destruct (rgb_channels (normal c)) as [rgb|e]; [|auto].
    destruct (near_black rgb); [auto|].
    destruct (strong_red rgb); auto. }
  split.
  { intros c r g b Hs Hc (Hr & Hg & Hb).
    rewrite _color_is_red_or_black_classify. unfold classify.
    rewrite Hs, Hc. unfold near_black.
    apply Z.leb_le in Hr, Hg, Hb. now rewrite Hr, Hg, Hb. }
  split.
  { intros c r g b Hs Hc (Hr & Hg & Hb).
    rewrite _color_is_red_or_black_classify. unfold classify.
    rewrite Hs, Hc. unfold near_black, strong_red.
    replace (r <=? 10)%Z with false by (symmetry; apply Z.leb_gt; lia).
    apply Z.leb_le in Hr, Hg, Hb. now rewrite Hr, Hg, Hb. }
  split.
  { intros c e Hs Hc.
    rewrite _color_is_red_or_black_classify. unfold classify.
    now rewrite Hs, Hc. }
  split.
  { intros c H. rewrite _color_is_red_or_black_classify. unfold classify.
    destruct H as [-> | ->]; reflexivity. }
  split.
  { intros c H. rewrite _color_is_red_or_black_classify. unfold classify.
    destruct H as [-> | ->]; reflexivity. }
  split.
  { intros c Hu Hh Hb. rewrite _color_is_red_or_black_classify.
    rewrite (classify_undecided _ Hu), (by_hex_or_word_not_hex _ Hh).
    now rewrite Hb. }
  split.
  { intros c Hu Hh Hb Hr. rewrite _color_is_red_or_black_classify.
    rewrite (classify_undecided _ Hu), (by_hex_or_word_not_hex _ Hh).
    now rewrite Hb, Hr. }
  split.
  { intros c Hu Hh Hb Hr. rewrite _color_is_red_or_black_classify.
    rewrite (classify_undecided _ Hu), (by_hex_or_word_not_hex _ Hh).
    now rewrite Hb, Hr. }
  repeat split; vm_compute; reflexivity.
Qed.

Lemma color_classifier_classes_witness :
  _color_is_red_or_black "rgba(3, 7.9, 10, 0.5)" = Some "black" /\
  _color_is_red_or_black "RGB(255, 60, 0)" = Some "red" /\
  _color_is_red_or_black "rgb(red)" = None /\
  _color_is_red_or_black "# 0 0 0" = Some "black" /\
  _color_is_red_or_black "#F00" = Some "red" /\
  _color_is_red_or_black "Black" = Some "black" /\
  _color_is_red_or_black "darkred" = Some "red" /\
  _color_is_red_or_black "rgb(100,100,100)" = None.
Proof.
  destruct color_classifier_classes
    as (_ & _ & Hblack & Hred & Hbad & Hhexb & Hhexr & Hwb & Hwr & Hnone & _).
  split; [|split; [|split; [|split; [|split; [|split; [|split]]]]]].
  - apply (Hblack _ 3 7 10)%Z; [vm_compute; reflexivity .. | lia].
  - apply (Hred _ 255 60 0)%Z; [vm_compute; reflexivity .. | lia].
  - apply (Hbad _ ValueError); vm_compute; reflexivity.
  - apply Hhexb. left. vm_compute. reflexivity.
  - apply Hhexr. left. vm_compute. reflexivity.
  - apply Hwb; [left | ..]; vm_compute; reflexivity.
  - apply Hwr; [left | ..]; vm_compute; reflexivity.
  - apply Hnone; [right; exists (100, 100, 100)%Z; repeat split | ..];
      vm_compute; reflexivity.
Defined.

(** ** The locator *)

Lemma spaces_then_digit_spec (t : string) :
  spaces_then_digit t = true <->
  exists ws d post, t = (ws ++ String d post)%string /\
                    all_chars c_isspace ws = true /\ is_digit d = true.
Proof.
  split.
  - induction t as [|c t IH]; simpl; [discriminate|].
    destruct (c_isspace c) eqn:Hc.
    + intros H. destruct (IH H) as (ws & d & post & -> & Hws & Hd).
      exists (String c ws), d, post. simpl. now rewrite Hc.
    + intros H. now exists ""%string, c, t.
  - intros (ws & d & post & -> & Hws & Hd).
    induction ws as [|w ws IH]; simpl.
    + now rewrite (is_digit_not_space _ Hd).
    + simpl in Hws. apply andb_true_iff in Hws. destruct Hws as [Hw Hws].
      rewrite Hw. now apply IH.
Qed.

Lemma re_test_dollar_digit_spec (s : string) :
  re_test_dollar_digit s = true <-> dollar_space_digit s.
Proof.
  unfold dollar_space_digit. split.
  - induction s as [|c s IH]; simpl; [discriminate|].
    intros H. apply orb_true_iff in H. destruct H as [H|H].
    + apply andb_true_iff in H. destruct H as [Hc H].
      apply Ascii.eqb_eq in Hc. subst c.
      apply spaces_then_digit_spec in H.
      destruct H as (ws & d & post & -> & Hws & Hd).
      now exists ""%string, ws, d, post.
    + destruct (IH H) as (pre & ws & d & post & -> & Hws & Hd).
      now exists (String c pre), ws, d, post.
  - intros (pre & ws & d & post & -> & Hws & Hd).
    induction pre as [|c pre IH]; simpl.
    + try rewrite Ascii.eqb_refl. simpl.
      replace (spaces_then_digit (ws ++ String d post)) with true; [reflexivity|].
      symmetry. apply spaces_then_digit_spec. now exists ws, d, post.
    + rewrite IH. apply orb_true_r.
Qed.

Lemma hasDollarDigits_spec (s : string) :
  hasDollarDigits s = true <-> dollar_space_digit s.
Proof.
  unfold hasDollarDigits. destruct s as [|c s].
  - simpl. split; [discriminate|].
    intros (pre & ws & d & post & E & _). destruct pre; discriminate.
  - simpl is_empty. cbv iota. apply re_test_dollar_digit_spec.
Qed.

Lemma js_or_empty (a : string) : js_or a "" = a.
Proof. now destruct a. Qed.

Lemma push_nodes_collect (sel : string) (nodes : list Element) (out : list Candidate) :
  push_nodes sel nodes out = out ++ map (report sel) (filter qualifies nodes).
Proof.
  revert out. induction nodes as [|el nodes IH]; intros out; simpl.
  - now rewrite app_nil_r.
  - rewrite js_or_empty. fold (trimmed el). unfold qualifies at 1.
    destruct (hasDollarDigits (trimmed el)); simpl.
    + rewrite IH, <- app_assoc. reflexivity.
    + apply IH.
Qed.

Lemma collected_nil_iff (document : DOM) (sel : string) :
  collected document sel = [] <-> ~ yields document sel.
Proof.
  unfold collected, yields. split.
  - intros H (el & Hin & Hq).
    apply hasDollarDigits_spec in Hq.
    assert (Hf : In el (filter qualifies (document sel)))
      by (apply filter_In; auto).
    destruct (filter qualifies (document sel)); [contradiction | discriminate].
  - intros H. destruct (filter qualifies (document sel)) as [|el l] eqn:E;
      [reflexivity|].
    exfalso. apply H. exists el.
    assert (Hf : In el (filter qualifies (document sel)))
      by (rewrite E; now left).
    apply filter_In in Hf. destruct Hf as [Hin Hq].
    split; [exact Hin | now apply hasDollarDigits_spec].
Qed.

Lemma find_price_loop_first (document : DOM) (selList : list string) :
  (Forall (fun sel => collected document sel = []) selList /\
   find_price_loop document selList [] = []) \/
  exists pre sel post,
    selList = pre ++ sel :: post /\
    Forall (fun s => collected document s = []) pre /\
    collected document sel <> [] /\
    find_price_loop document selList [] = collected document sel.
Proof.
  induction selList as [|sel rest IH]; simpl.
  - left. split; [constructor | reflexivity].
  - rewrite push_nodes_collect. simpl. fold (collected document sel).
    destruct (collected document sel) as [|c l] eqn:E; simpl.
    + destruct IH as [[Hall Hnil] | (pre & s & post & -> & Hpre & Hne & Hres)].
      * left. split; [now constructor | exact Hnil].
      * right. exists (sel :: pre), s, post. repeat split; auto.
    + right. exists [], sel, rest. rewrite E. repeat split; auto.
      discriminate.
Qed.

Lemma collected_yields (document : DOM) (sel : string) :
  collected document sel <> [] -> yields document sel.
Proof.
  unfold collected, yields. intros H.
  destruct (filter qualifies (document sel)) as [|el l] eqn:E; [now elim H|].
  assert (Hf : In el (filter qualifies (document sel))) by (rewrite E; now left).
  apply filter_In in Hf. destruct Hf as [Hin Hq].
  exists el. split; [exact Hin | now apply hasDollarDigits_spec].
Qed.

Lemma collected_In (document : DOM) (sel : string) (c : Candidate) :
  In c (collected document sel) <->
  exists el, In el (document sel) /\ dollar_space_digit (trimmed el) /\
             c = report sel el.
Proof.
  unfold collected. rewrite in_map_iff. split.
  - intros (el & <- & Hf). apply filter_In in Hf. destruct Hf as [Hin Hq].
    exists el. repeat split; auto. now apply hasDollarDigits_spec.
  - intros (el & Hin & Hq & ->). exists el. split; [reflexivity|].
    apply filter_In. split; [exact Hin | now apply hasDollarDigits_spec].
Qed.

(** The claim as it stands fails: a text with whitespace between the
    currency symbol and the digit is reported. *)
Lemma locator_reports_spaced_symbol :
  FIND_PRICE_JS spaced_price_page PRICE_SELECTORS
  = [ {| selector := "mat-label.as-price"; text := "$ 5";
         color := "rgb(0, 0, 0)"; struck := false |} ] /\
  dollar_then_digit "$ 5" = false.
Proof. split; vm_compute; reflexivity. Qed.

(** C2, as amended.  An element qualifies when its trimmed text has a
    currency symbol followed, after optional whitespace, by a digit.  The
    locator returns the qualifying elements, in page order, of exactly the
    first selector of the list that yields one, and nothing of any later
    selector; when no selector yields one it returns nothing.  Every
    reported text qualifies. *)
Theorem locator_first_yielding_selector :
  forall (document : DOM) (selList : list string),
    (forall c, In c (FIND_PRICE_JS document selList) ->
               dollar_space_digit (text c)) /\
    ((Forall (fun sel => ~ yields document sel) selList /\
      FIND_PRICE_JS document selList = []) \/
     (exists pre sel post,
         selList = pre ++ sel :: post /\
         Forall (fun s => ~ yields document s) pre /\
         yields document sel /\
         FIND_PRICE_JS document selList = collected document sel)) /\
    (forall sel c,
        In c (collected document sel) <->
        exists el, In el (document sel) /\ dollar_space_digit (trimmed el) /\
                   c = report sel el).
Proof.
  intros document selList. unfold FIND_PRICE_JS.
  assert (Hnil : forall l, Forall (fun sel => collected document sel = []) l ->
                           Forall (fun sel => ~ yields document sel) l).
  { intros l. apply Forall_impl. intros sel. apply collected_nil_iff. }
  split; [|split].
  - intros c Hin.
    destruct (find_price_loop_first document selList)
      as [[_ E] | (pre & sel & post & _ & _ & _ & E)]; rewrite E in Hin.
    + contradiction.
    + apply collected_In in Hin. destruct Hin as (el & _ & Hq & ->). exact Hq.
  - destruct (find_price_loop_first document selList)
      as [[Hall E] | (pre & sel & post & Esel & Hpre & Hne & E)].
    + left. split; [now apply Hnil | exact E].
    + right. exists pre, sel, post. repeat split; auto.
      now apply collected_yields.
  - intros sel c. apply collected_In.
Qed.

(** ** The filter and the pick *)

Lemma _num_returns (txt : string) : exists v, _num txt = Returned v.
Proof.
  destruct (_num_cases txt) as [(run & ip & fp & _ & H) | [_ H]]; eauto.
Qed.

Lemma _color_is_red_or_black_not_empty (c : string) :
  _color_is_red_or_black c <> Some ""%string.
Proof.
  rewrite _color_is_red_or_black_classify. unfold classify.
  pose proof (by_hex_or_word_range (normal c)) as H.
  assert (Hw : by_hex_or_word (normal c) <> Some ""%string)
    by (destruct H as [-> | [-> | ->]]; discriminate).
  destruct (startswith "rgb" (normal c)); [|assumption].
  destruct (rgb_channels (normal c)) as [rgb|e]; [|discriminate].
  destruct (near_black rgb); [discriminate|].
  destruct (strong_red rgb); [discriminate | assumption].
Qed.

Lemma filter_loop_reference (raw_list : list Candidate) (filtered : list Priced) :
  filter_loop raw_list filtered
  = Returned (filtered ++ step3_numeric float_truthy
                            (step2_classified (step1_not_struck raw_list))).
Proof.
  revert filtered. induction raw_list as [|it rest IH]; intros filtered.
  - simpl. now rewrite app_nil_r.
  - cbn [filter_loop step1_not_struck filter].
    destruct (struck it); cbn [negb]; [apply IH|].
    cbn [step2_classified flat_map].
    pose proof (_color_is_red_or_black_not_empty (color it)) as Hne.
    destruct (_color_is_red_or_black (color it)) as [ct|]; [|apply IH].
    destruct ct as [|a ct]; [congruence|]. cbn [is_empty app].
    cbn [step3_numeric flat_map fst snd].
    destruct (_num_returns (text it)) as [v ->]. cbn [bind].
    destruct v as [v|]; [|apply IH].
    destruct (float_truthy v); [|apply IH].
    rewrite IH, <- app_assoc. reflexivity.
Qed.

Lemma pick_price_reference (l : list Candidate) :
  pick_price l = Returned (reference_pick float_truthy l).
Proof.
  unfold pick_price. rewrite filter_loop_reference. cbn [bind app].
  unfold reference_pick, step5_pick, step4_partition, first_or. cbn [fst snd].
  reflexivity.
Qed.

Lemma pipeline_members (keep : pyfloat -> bool) (l : list Candidate) (p : Priced) :
  In p (step3_numeric keep (step2_classified (step1_not_struck l))) ->
  In (item p) l /\ struck (item p) = false /\
  _color_is_red_or_black (color (item p)) = Some (colorType p) /\
  _num (text (item p)) = Returned (Some (value p)) /\
  keep (value p) = true.
Proof.
  induction l as [|c l IH]; cbn [step1_not_struck filter]; [intros []|].
  destruct (struck c) eqn:Hs; cbn [negb].
  { intros H. destruct (IH H) as (? & ?). split; [now right | assumption]. }
  cbn [step2_classified flat_map].
  destruct (_color_is_red_or_black (color c)) as [ct|] eqn:Hc.
  2:{ intros H. destruct (IH H) as (? & ?). split; [now right | assumption]. }
  cbn [app step3_numeric flat_map fst snd].
  intros H. apply in_app_or in H. destruct H as [H|H].
  2:{ destruct (IH H) as (? & ?). split; [now right | assumption]. }
  destruct (_num (text c)) as [[v|]|e] eqn:Hn; try contradiction.
  destruct (keep v) eqn:Hk; [|contradiction].
  destruct H as [<- | []]. cbn. auto.
Qed.

Lemma pipeline_class (ct : string) (l : list Candidate) :
  map item (filter (fun x => String.eqb (colorType x) ct)
              (step3_numeric float_truthy (step2_classified (step1_not_struck l))))
  = filter (eligible ct) l.
Proof.
  induction l as [|c l IH]; [reflexivity|].
  cbn [step1_not_struck filter]. unfold eligible at 1.
  destruct (struck c); cbn [negb andb]; [exact IH|].
  cbn [step2_classified flat_map].
  destruct (_color_is_red_or_black (color c)) as [x|]; [|exact IH].
  cbn [app step3_numeric flat_map fst snd].
  destruct (_num (text c)) as [[v|]|e];
    try (rewrite andb_false_r; exact IH).
  destruct (float_truthy v); cbn [app filter colorType];
    [|rewrite andb_false_r; exact IH].
  rewrite andb_true_r.
  destruct (String.eqb x ct); cbn [map item]; [now f_equal | exact IH].
Qed.

Lemma head_filter_find {A : Type} (f : A -> bool) (l : list A) :
  match filter f l with x :: _ => Some x | [] => None end = find f l.
Proof.
  induction l as [|a l IH]; [reflexivity|]. simpl. now destruct (f a).
Qed.

Lemma head_map {A B : Type} (g : A -> B) (l : list A) :
  match map g l with x :: _ => Some x | [] => None end
  = option_map g (match l with x :: _ => Some x | [] => None end).
Proof. now destruct l. Qed.

Lemma reference_pick_first (l : list Candidate) :
  option_map item (reference_pick float_truthy l) = first_eligible l.
Proof.
  unfold reference_pick, step5_pick, step4_partition, first_eligible.
  cbn [fst snd].
  rewrite <- !head_filter_find, <- !pipeline_class, !head_map.
  set (reds := filter _ _). set (blacks := filter _ _).
  destruct reds; [|reflexivity]. now destruct blacks.
Qed.

Lemma reference_pick_member (keep : pyfloat -> bool) (l : list Candidate) (p : Priced) :
  reference_pick keep l = Some p ->
  In p (step3_numeric keep (step2_classified (step1_not_struck l))) /\
  (colorType p = "red"%string \/ colorType p = "black"%string).
Proof.
  unfold reference_pick, step5_pick, step4_partition. cbn [fst snd].
  set (s := step3_numeric _ _).
  destruct (filter (fun x => String.eqb (colorType x) "red") s) as [|x r] eqn:Er.
  - destruct (filter (fun x => String.eqb (colorType x) "black") s) as [|x r] eqn:Eb;
      [discriminate|].
    intros [= ->].
    assert (H : In p (filter (fun x => String.eqb (colorType x) "black") s))
      by (rewrite Eb; now left).
    apply filter_In in H. destruct H as [Hin Hc].
    apply String.eqb_eq in Hc. auto.
  - intros [= ->].
    assert (H : In p (filter (fun x => String.eqb (colorType x) "red") s))
      by (rewrite Er; now left).
    apply filter_In in H. destruct H as [Hin Hc].
    apply String.eqb_eq in Hc. auto.
Qed.

(** What is known of a pick. *)
Lemma pick_price_sound (l : list Candidate) (p : Priced) :
  pick_price l = Returned (Some p) ->
  In (item p) l /\ struck (item p) = false /\
  _color_is_red_or_black (color (item p)) = Some (colorType p) /\
  (colorType p = "red"%string \/ colorType p = "black"%string) /\
  _num (text (item p)) = Returned (Some (value p)) /\
  float_truthy (value p) = true.
Proof.
  rewrite pick_price_reference. intros [= H].
  destruct (reference_pick_member _ _ _ H) as [Hin Hc].
  destruct (pipeline_members _ _ _ Hin) as (? & ? & ? & ? & ?). auto 10.
Qed.

Lemma pick_red_before_black (c1 c2 : Candidate) (v1 v2 : pyfloat) :
  struck c1 = false -> _color_is_red_or_black (color c1) = Some "red"%string ->
  _num (text c1) = Returned (Some v1) -> float_truthy v1 = true ->
  struck c2 = false -> _color_is_red_or_black (color c2) = Some "black"%string ->
  _num (text c2) = Returned (Some v2) -> float_truthy v2 = true ->
  pick_price [c1; c2]
    = Returned (Some {| item := c1; value := v1; colorType := "red" |}) /\
  pick_price [c2; c1]
    = Returned (Some {| item := c1; value := v1; colorType := "red" |}).
Proof.
  intros S1 C1 N1 T1 S2 C2 N2 T2.
  split; unfold pick_price; cbn [filter_loop];
    rewrite S1, S2, C1, C2, N1, N2; cbn [is_empty bind];
    rewrite T1, T2; reflexivity.
Qed.

(** The claim as it stands fails: with step 3 keeping every numeric value
    the pipeline picks the red price of zero, the code the black price of
    five. *)
Lemma picker_skips_zero_price :
  (exists p, pick_price zero_then_five = Returned (Some p) /\
             value p = PyFinite (5 # 1) /\ colorType p = "black"%string) /\
  (exists p, reference_pick any_value zero_then_five = Some p /\
             value p = PyFinite (0 # 1) /\ colorType p = "red"%string).
Proof.
  split; eexists; (split; [vm_compute; reflexivity|]); split; reflexivity.
Qed.

(** C1, as amended.  The pick of an attempt is a function of the candidate
    list alone and equals the five-step pipeline in which step 3 discards the
    candidates whose text has no numeric value or the value zero.  The pick
    is the first eligible red candidate of the list, otherwise the first
    eligible black one, otherwise none; a struck candidate is never the
    pick; of a red candidate worth 85.0 and a black one worth 90.0, neither
    struck, the pick is the one worth 85.0, in either order. *)
Theorem picker_reference_pipeline :
  (forall l, pick_price l = Returned (reference_pick float_truthy l)) /\
  (forall l, exists pick, pick_price l = Returned pick /\
                          option_map item pick = first_eligible l) /\
  (forall l p, pick_price l = Returned (Some p) ->
               In (item p) l /\ struck (item p) = false) /\
  (forall c1 c2,
      struck c1 = false ->
      _color_is_red_or_black (color c1) = Some "red"%string ->
      _num (text c1) = Returned (Some (PyFinite (85 # 1))) ->
      struck c2 = false ->
      _color_is_red_or_black (color c2) = Some "black"%string ->
      _num (text c2) = Returned (Some (PyFinite (90 # 1))) ->
      (exists p, pick_price [c1; c2] = Returned (Some p) /\
                 item p = c1 /\ value p = PyFinite (85 # 1)) /\
      (exists p, pick_price [c2; c1] = Returned (Some p) /\
                 item p = c1 /\ value p = PyFinite (85 # 1))).
Proof.
  split; [exact pick_price_reference|].
  split.
  { intros l. exists (reference_pick float_truthy l).
    split; [apply pick_price_reference | apply reference_pick_first]. }
  split.
  { intros l p H. destruct (pick_price_sound _ _ H) as (? & ? & _). auto. }
  intros c1 c2 S1 C1 N1 S2 C2 N2.
  destruct (pick_red_before_black c1 c2 _ _ S1 C1 N1 eq_refl S2 C2 N2 eq_refl)
    as [H12 H21].
  split; eexists; (split; [eassumption|]); split; reflexivity.
Qed.

Lemma picker_reference_pipeline_witness :
  (exists p, pick_price
               [ {| selector := "mat-label.as-price"; text := "$90.00";
                    color := "rgb(0, 0, 0)"; struck := false |};
                 {| selector := "mat-label.as-price"; text := "$85.00";
                    color := "rgb(214, 0, 28)"; struck := false |} ]
             = Returned (Some p) /\
             value p = PyFinite (85 # 1)) /\
  (pick_price
     [ {| selector := "mat-label.as-price"; text := "$99.00";
          color := "rgb(214, 0, 28)"; struck := true |};
       {| selector := "mat-label.as-price"; text := "$90.00";
          color := "rgb(0, 0, 0)"; struck := false |} ]
   = Returned (Some {| item := {| selector := "mat-label.as-price"; text := "$90.00";
                                  color := "rgb(0, 0, 0)"; struck := false |};
                       value := PyFinite (90 # 1); colorType := "black" |}) /\
   struck {| selector := "mat-label.as-price"; text := "$90.00";
             color := "rgb(0, 0, 0)"; struck := false |} = false).
Proof.
  destruct picker_reference_pipeline as (_ & _ & Hstruck & Hex).
  split.
  - destruct (Hex {| selector := "mat-label.as-price"; text := "$85.00";
                     color := "rgb(214, 0, 28)"; struck := false |}
                  {| selector := "mat-label.as-price"; text := "$90.00";
                     color := "rgb(0, 0, 0)"; struck := false |})
      as [_ (p & Hp & _ & Hv)]; try (vm_compute; reflexivity).
    exists p. split; [exact Hp | exact Hv].
  - assert (E : pick_price
     [ {| selector := "mat-label.as-price"; text := "$99.00";
          color := "rgb(214, 0, 28)"; struck := true |};
       {| selector := "mat-label.as-price"; text := "$90.00";
          color := "rgb(0, 0, 0)"; struck := false |} ]
        = Returned (Some {| item := {| selector := "mat-label.as-price"; text := "$90.00";
                                  color := "rgb(0, 0, 0)"; struck := false |};
                       value := PyFinite (90 # 1); colorType := "black" |}))
      by (vm_compute; reflexivity).
    split; [exact E|]. exact (proj2 (Hstruck _ _ E)).
Defined.

(** ** The polling loop *)

Lemma poll_enough_fuel (fuel : nat) (attempts : nat -> Attempt) (k : nat)
    (deadline now : N) :
  (N.to_nat ((deadline - now + 349) / 350) + 1 <= fuel)%nat ->
  exists r, poll fuel attempts k deadline now = Some r.
Proof.
  revert k now. induction fuel as [|fuel IH]; intros k now Hf.
  { rewrite Nat.add_1_r in Hf. inversion Hf. }
  cbn [poll]. destruct (now <? deadline)%N eqn:Hlt; [|eauto].
  destruct (attempt_pick (attempts k)); [eauto|].
  apply N.ltb_lt in Hlt. apply IH. unfold wait_ms.
  set (e := eval_ms (attempts k)) in *.
  set (w := wait_extra_ms (attempts k)) in *.
  assert (H1 : ((deadline - (now + e + (350 + w)) + 349) / 350 + 1
                <= (deadline - now + 349) / 350)%N).
  { zify. Z.div_mod_to_equations. lia. }
  lia.
Qed.

Lemma poll_window_fuel (start delay : N) :
  (N.to_nat ((start + poll_window - (start + delay) + 349) / 350) + 1
   <= poll_fuel)%nat.
Proof.
  unfold poll_window, poll_fuel.
  assert (((start + 18000 - (start + delay) + 349) / 350 <= 52)%N).
  { zify. Z.div_mod_to_equations. lia. }
  lia.
Qed.

Lemma poll_timed_out_late (fuel : nat) (attempts : nat -> Attempt) (k : nat)
    (deadline now t : N) :
  poll fuel attempts k deadline now = Some (TimedOut, t) ->
  (deadline <= t)%N.
Proof.
  revert k now. induction fuel as [|fuel IH]; intros k now; cbn [poll];
    [discriminate|].
  destruct (now <? deadline)%N eqn:Hlt.
  - destruct (attempt_pick (attempts k)); [discriminate | apply IH].
  - intros [= <-]. now apply N.ltb_ge.
Qed.

Lemma poll_no_pick (fuel : nat) (attempts : nat -> Attempt) (k : nat)
    (deadline now : N) (r : PollOutcome * N) :
  (forall j, attempt_pick (attempts j) = None) ->
  poll fuel attempts k deadline now = Some r ->
  fst r = TimedOut.
Proof.
  intros Hno. revert k now. induction fuel as [|fuel IH]; intros k now;
    cbn [poll]; [discriminate|].
  destruct (now <? deadline)%N.
  - rewrite Hno. apply IH.
  - now intros [= <-].
Qed.

Lemma turn_clock_ge (attempts : nat -> Attempt) (k n : nat) (now : N) :
  (now + 350 * N.of_nat n <= turn_clock attempts k n now)%N.
Proof.
  revert k now. induction n as [|n IH]; intros k now; cbn [turn_clock]; [lia|].
  specialize (IH (S k) (now + eval_ms (attempts k) + wait_ms (attempts k))%N).
  unfold wait_ms in *. lia.
Qed.

Lemma poll_found (n fuel : nat) (attempts : nat -> Attempt) (k : nat)
    (deadline now : N) (p : Priced) :
  (forall j, (j < n)%nat -> attempt_pick (attempts (k + j)%nat) = None) ->
  attempt_pick (attempts (k + n)%nat) = Some p ->
  (turn_clock attempts k n now < deadline)%N ->
  (n < fuel)%nat ->
  poll fuel attempts k deadline now
  = Some (Found p, (turn_clock attempts k n now + eval_ms (attempts (k + n)%nat))%N).
Proof.
  revert fuel k now. induction n as [|n IH]; intros fuel k now Hno Hp Ht Hf;
    (destruct fuel as [|fuel]; [lia|]); cbn [poll turn_clock] in *.
  - apply N.ltb_lt in Ht. rewrite Ht. rewrite Nat.add_0_r in *. now rewrite Hp.
  - pose proof (turn_clock_ge attempts (S k) n
                  (now + eval_ms (attempts k) + wait_ms (attempts k))%N) as Hge.
    assert (Hlt : (now <? deadline)%N = true) by (apply N.ltb_lt; lia).
    rewrite Hlt. rewrite <- (Nat.add_0_r k) at 1. rewrite (Hno 0%nat) by lia.
    replace (k + S n)%nat with (S k + n)%nat in * by lia.
    apply IH; auto; [|lia].
    intros j Hj. replace (S k + j)%nat with (k + S j)%nat by lia.
    apply Hno. lia.
Qed.

Lemma pick_price_returns (l : list Candidate) : exists pick, pick_price l = Returned pick.
Proof. rewrite pick_price_reference. eauto. Qed.

Lemma attempt_body_raised (a : Attempt) (e : exn) :
  attempt_body a = Raised e -> snapshot a = Raised e.
Proof.
  unfold attempt_body. destruct (snapshot a) as [d|e']; cbn [bind].
  - destruct (pick_price_returns (FIND_PRICE_JS d PRICE_SELECTORS)) as [p ->].
    discriminate.
  - now intros [= ->].
Qed.

Lemma attempt_pick_calm (a : Attempt) : attempt_pick (calm a) = attempt_pick a.
Proof.
  unfold attempt_pick, attempt_body, calm. cbn [snapshot].
  destruct (snapshot a) as [d|e]; [reflexivity|].
  vm_compute. reflexivity.
Qed.

Lemma poll_calm (fuel : nat) (attempts : nat -> Attempt) (k : nat) (deadline now : N) :
  poll fuel attempts k deadline now
  = poll fuel (fun i => calm (attempts i)) k deadline now.
Proof.
  revert k now. induction fuel as [|fuel IH]; intros k now; cbn [poll];
    [reflexivity|].
  rewrite attempt_pick_calm. unfold wait_ms. cbn [calm eval_ms wait_extra_ms].
  destruct (now <? deadline)%N; [|reflexivity].
  destruct (attempt_pick (attempts k)); [reflexivity | apply IH].
Qed.

(** ** The cache *)

Lemma find_none_Forall {A : Type} (f : A -> bool) (l : list A) :
  Forall (fun x => f x = false) l -> find f l = None.
Proof.
  induction 1 as [|x l Hx _ IH]; [reflexivity|]. simpl. now rewrite Hx.
Qed.

Lemma find_append {A : Type} (f : A -> bool) (l l' : list A) :
  find f (l ++ l') = match find f l with Some x => Some x | None => find f l' end.
Proof.
  induction l as [|x l IH]; [reflexivity|]. simpl. now destruct (f x).
Qed.

Lemma Forall_skipn {A : Type} (P : A -> Prop) (n : nat) (l : list A) :
  Forall P l -> Forall P (skipn n l).
Proof.
  revert l. induction n as [|n IH]; intros l H; [exact H|].
  destruct H; [constructor | now apply IH].
Qed.

Lemma Forall_filter {A : Type} (P : A -> Prop) (f : A -> bool) (l : list A) :
  Forall P l -> Forall P (filter f l).
Proof.
  induction 1 as [|x l Hx _ IH]; [constructor|]. simpl.
  destruct (f x); [now constructor | exact IH].
Qed.

Lemma Forall_filter_false {A : Type} (f : A -> bool) (l : list A) :
  Forall (fun x => f x = false) (filter (fun x => negb (f x)) l).
Proof.
  induction l as [|x l IH]; [constructor|]. simpl.
  destruct (f x) eqn:E; simpl; [exact IH | now constructor].
Qed.

Lemma cache_lookup_store (now : N) (k : string) (v : PriceResponse) (cache : TTLCache) :
  cache_lookup now k (cache_store now k v cache) = Some v.
Proof.
  unfold cache_lookup, cache_store. rewrite find_append.
  rewrite find_none_Forall by (apply Forall_skipn, Forall_filter_false).
  cbn [find]. unfold has_key at 1. cbn [key]. rewrite String.eqb_refl.
  unfold live, ttl. cbn [expires stored].
  replace (now <? now + 300000)%N with true by (symmetry; apply N.ltb_lt; lia).
  reflexivity.
Qed.

Lemma cache_lookup_stored (now : N) (k : string) (cache : TTLCache) (r : PriceResponse) :
  cache_lookup now k cache = Some r ->
  exists e, In e cache /\ key e = k /\ stored e = r.
Proof.
  unfold cache_lookup. destruct (find (has_key k) cache) as [e|] eqn:E;
    [|discriminate].
  apply find_some in E. destruct E as [Hin Hk].
  destruct (live now e); [|discriminate]. intros [= <-].
  exists e. repeat split; auto. now apply String.eqb_eq.
Qed.

Lemma cache_store_Forall (P : Entry -> Prop) (now : N) (k : string)
    (v : PriceResponse) (cache : TTLCache) :
  Forall P cache ->
  P {| key := k; expires := (now + ttl)%N; stored := v |} ->
  Forall P (cache_store now k v cache).
Proof.
  intros Hc Hv. unfold cache_store. apply Forall_app. split.
  - now apply Forall_skipn, Forall_filter, Forall_filter.
  - now constructor.
Qed.

(** ** The request handler *)

Lemma request_poll_returns (page : Browser) : exists r, request_poll page = Some r.
Proof. apply poll_enough_fuel, poll_window_fuel. Qed.

(** The four ways a request ends. *)
Lemma get_price_cases (cache : TTLCache) (u : string) (page : Browser) :
  (exists r,
      cache_lookup (cache_clock page) u cache = Some r /\
      get_price cache u page = Some (OK200 r, cache)) \/
  (exists e,
      cache_lookup (cache_clock page) u cache = None /\
      load page = Raised e /\
      get_price cache u page
      = Some (HTTPException 502 ("No se pudo cargar " ++ u ++ ": " ++ exn_str e), cache)) \/
  (exists t,
      cache_lookup (cache_clock page) u cache = None /\
      (exists x, load page = Returned x) /\
      request_poll page = Some (TimedOut, t) /\
      get_price cache u page = Some (HTTPException 500 price_not_found, cache)) \/
  (exists p t r,
      cache_lookup (cache_clock page) u cache = None /\
      (exists x, load page = Returned x) /\
      request_poll page = Some (Found p, t) /\
      get_price cache u page
      = Some (OK200 r, cache_store (store_clock page) u r cache) /\
      url r = u /\
      price_assigned r (value p) /\
      currency r = "MXN"%string /\
      (raw_unit r, unit_pack_size r, unit_weight_g r)
      = (let '(unit, pack_size, weight) :=
           _guess_units u (try_except (body_inner_text page) (fun _ => ""%string)) in
         (Some unit, pack_size, weight))).
Proof.
  unfold get_price.
  destruct (cache_lookup (cache_clock page) u cache) as [r|] eqn:Hc.
  { left. eauto. }
  right. destruct (load page) as [x|e] eqn:Hl.
  2:{ left. eauto. }
  right. cbv zeta. fold (request_poll page).
  destruct (request_poll_returns page) as [[[p|] t] Hp]; rewrite Hp.
  2:{ left. exists t. eauto 6. }
  right. exists p, t.
  destruct (_guess_units u _) as [[unit pack_size] weight] eqn:Hg.
  eexists. split; [reflexivity|]. split; [eauto|]. split; [reflexivity|].
  split; [reflexivity|]. cbn [url raw_unit price_per_kg unit_price currency
                              unit_pack_size unit_weight_g].
  repeat split.
  unfold price_assigned. cbn [raw_unit price_per_kg unit_price].
  destruct (String.eqb unit "kg") eqn:E.
  - apply String.eqb_eq in E. subst unit. left. auto.
  - apply String.eqb_neq in E. right. repeat split; auto. congruence.
Qed.

Lemma get_price_returns (cache : TTLCache) (u : string) (page : Browser) :
  exists resp cache', get_price cache u page = Some (resp, cache').
Proof.
  destruct (get_price_cases cache u page)
    as [(r & _ & H) | [(e & _ & _ & H) | [(t & _ & _ & _ & H)
       | (p & t & r & _ & _ & _ & H & _)]]]; eauto.
Qed.

Lemma serve_returns (requests : list (string * Browser)) (cache : TTLCache) :
  exists resps cache', serve cache requests = Some (resps, cache').
Proof.
  revert cache. induction requests as [|[u page] rest IH]; intros cache;
    cbn [serve]; [eauto|].
  destruct (get_price_returns cache u page) as (resp & cache1 & ->).
  destruct (IH cache1) as (resps & cache2 & ->). eauto.
Qed.

(** A property of every record made by a request that misses the cache holds
    of every record the server returns and keeps. *)
Lemma serve_invariant (P : PriceResponse -> Prop) :
  (forall cache u page r cache',
      cache_lookup (cache_clock page) u cache = None ->
      get_price cache u page = Some (OK200 r, cache') -> P r) ->
  forall requests cache resps cache',
    Forall (fun e => P (stored e)) cache ->
    serve cache requests = Some (resps, cache') ->
    (forall r, In (OK200 r) resps -> P r) /\
    Forall (fun e => P (stored e)) cache'.
Proof.
  intros Hfresh requests.
  induction requests as [|[u page] rest IH]; intros cache resps cache' Hinv;
    cbn [serve].
  - intros [= <- <-]. split; [intros r [] | exact Hinv].
  - destruct (get_price cache u page) as [[resp cache1]|] eqn:Hg; [|discriminate].
    destruct (serve cache1 rest) as [[resps1 cache2]|] eqn:Hs; [|discriminate].
    intros [= <- <-].
    assert (Hstep : (forall r, resp = OK200 r -> P r) /\
                    Forall (fun e => P (stored e)) cache1).
    { destruct (get_price_cases cache u page)
        as [(r & Hc & H) | [(e & _ & _ & H) | [(t & _ & _ & _ & H)
           | (p & t & r & Hc & _ & _ & H & _)]]];
        rewrite H in Hg; injection Hg as <- <-.
      - split; [|exact Hinv]. intros r' [= <-].
        destruct (cache_lookup_stored _ _ _ _ Hc) as (e & Hin & _ & <-).
        rewrite Forall_forall in Hinv. now apply Hinv.
      - split; [discriminate | exact Hinv].
      - split; [discriminate | exact Hinv].
      - assert (Hr : P r) by (eapply Hfresh; eauto).
        split; [now intros r' [= <-]|].
        now apply cache_store_Forall. }
    destruct Hstep as [Hresp Hinv1].
    destruct (IH _ _ _ Hinv1 Hs) as [Hrest Hinv2].
    split; [|exact Hinv2].
    intros r [E | Hin]; [now apply Hresp | now apply Hrest].
Qed.

(** ** Signs of the floats *)

Lemma round_half_even_nonneg (num den : Z) :
  (0 <= num)%Z -> (0 < den)%Z -> (0 <= round_half_even num den)%Z.
Proof.
  intros Hn Hd. unfold round_half_even.
  assert (0 <= num / den)%Z by (apply Z.div_pos; lia).
  destruct (_ || _); lia.
Qed.

Lemma Qred_nonneg (q : Q) : (0 <= q)%Q -> (0 <= Qred q)%Q.
Proof. intros H. now rewrite Qred_correct. Qed.

Lemma double_of_ratio_nonneg (n d : Z) :
  (0 <= n)%Z -> (0 < d)%Z -> float_nonneg (double_of_ratio n d).
Proof.
  intros Hn Hd. unfold double_of_ratio.
  destruct (n =? 0)%Z; [cbn; unfold Qle; simpl; lia|].
  set (e := Z.max _ _).
  destruct (0 <=? e)%Z eqn:He.
  - apply Z.leb_le in He.
    assert (H2 : (0 < 2 ^ e)%Z) by (apply Z.pow_pos_nonneg; lia).
    assert (Hm : (0 <= round_half_even n (d * 2 ^ e))%Z)
      by (apply round_half_even_nonneg; nia).
    destruct (_ <=? _)%Z; [reflexivity|].
    cbn [float_nonneg]. apply Qred_nonneg. unfold Qle. cbn [Qnum Qden]. nia.
  - apply Z.leb_gt in He.
    assert (H2 : (0 < 2 ^ (- e))%Z) by (apply Z.pow_pos_nonneg; lia).
    assert (Hm : (0 <= round_half_even (n * 2 ^ (- e)) d)%Z)
      by (apply round_half_even_nonneg; nia).
    cbn [float_nonneg]. apply Qred_nonneg. unfold Qle. cbn [Qnum Qden]. lia.
Qed.

Lemma digits_value_nonneg (s : string) (acc : Z) :
  (0 <= acc)%Z -> (0 <= digits_value acc s)%Z.
Proof.
  revert acc. induction s as [|c s IH]; intros acc H; cbn [digits_value];
    [exact H|]. apply IH. lia.
Qed.

Lemma run_value_nonneg (ip fp : string) : float_nonneg (run_value ip fp).
Proof.
  unfold run_value. apply double_of_ratio_nonneg.
  - now apply digits_value_nonneg.
  - apply Z.pow_pos_nonneg; lia.
Qed.

Lemma _num_nonneg (txt : string) (v : pyfloat) :
  _num txt = Returned (Some v) -> float_nonneg v.
Proof.
  destruct (_num_cases txt) as [(run & ip & fp & _ & ->) | [_ ->]];
    [|discriminate].
  intros [= <-]. apply run_value_nonneg.
Qed.

Lemma float_truthy_positive (v : pyfloat) :
  float_nonneg v -> float_truthy v = true -> float_positive v.
Proof.
  destruct v as [q| |]; cbn; auto.
  intros H0 Hn. apply negb_true_iff, Z.eqb_neq in Hn.
  unfold Qle in H0. unfold Qlt. cbn [Qnum Qden] in *. lia.
Qed.

Lemma pick_price_positive (l : list Candidate) (p : Priced) :
  pick_price l = Returned (Some p) -> float_positive (value p).
Proof.
  intros H. destruct (pick_price_sound _ _ H) as (_ & _ & _ & _ & Hn & Ht).
  apply float_truthy_positive; [exact (_num_nonneg _ _ Hn) | exact Ht].
Qed.

Lemma attempt_pick_positive (a : Attempt) (p : Priced) :
  attempt_pick a = Some p -> float_positive (value p).
Proof.
  unfold attempt_pick, attempt_body.
  destruct (snapshot a) as [d|e]; cbn [bind try_except]; [|discriminate].
  destruct (pick_price (FIND_PRICE_JS d PRICE_SELECTORS)) as [pick|e] eqn:E;
    cbn [try_except]; [|discriminate].
  intros ->. exact (pick_price_positive _ _ E).
Qed.

Lemma poll_found_pick (fuel : nat) (attempts : nat -> Attempt) (k : nat)
    (deadline now t : N) (p : Priced) :
  poll fuel attempts k deadline now = Some (Found p, t) ->
  exists j, attempt_pick (attempts j) = Some p.
Proof.
  revert k now. induction fuel as [|fuel IH]; intros k now; cbn [poll];
    [discriminate|].
  destruct (now <? deadline)%N; [|discriminate].
  destruct (attempt_pick (attempts k)) as [q|] eqn:E.
  - intros [= <- _]. eauto.
  - apply IH.
Qed.

(** ** The polling loop and the handler: the claims *)

Lemma poll_all_no_pick (attempts : nat -> Attempt) (start delay : N) :
  (forall k, attempt_pick (attempts k) = None) ->
  exists t, poll poll_fuel attempts 0 (start + poll_window) (start + delay)
            = Some (TimedOut, t) /\ (start + poll_window <= t)%N.
Proof.
  intros Hno.
  destruct (poll_enough_fuel poll_fuel attempts 0 _ _ (poll_window_fuel start delay))
    as [[o t] Hr].
  pose proof (poll_no_pick _ _ _ _ _ _ Hno Hr) as Ho. cbn [fst] in Ho. subst o.
  exists t. split; [exact Hr | exact (poll_timed_out_late _ _ _ _ _ _ Hr)].
Qed.

Lemma get_price_no_pick (cache : TTLCache) (u : string) (page : Browser) :
  cache_lookup (cache_clock page) u cache = None ->
  (exists x, load page = Returned x) ->
  (forall k, attempt_pick (attempts page k) = None) ->
  get_price cache u page = Some (HTTPException 500 price_not_found, cache).
Proof.
  intros Hc [x Hl] Hno.
  destruct (poll_all_no_pick (attempts page) (poll_clock page) (poll_delay page) Hno)
    as (t & Ht & _).
  destruct (get_price_cases cache u page)
    as [(r & Hc' & _) | [(e & _ & Hl' & _) | [(t' & _ & _ & _ & H)
       | (p & t' & r & _ & _ & Hp & _)]]]; try congruence.
  unfold request_poll in Hp. congruence.
Qed.

(** C7. On a clock that every wait advances by at least 350 milliseconds,
    the polling loop always ends.  When no turn has a pick it ends timed out,
    at a clock value at or after the deadline of 18 seconds set at entry, and
    the handler then answers 500 with the fixed message.  A turn with a pick
    ends the loop at once, found, with that pick. *)
Theorem polling_ends_at_deadline :
  (forall attempts start delay,
      exists r, poll poll_fuel attempts 0 (start + poll_window) (start + delay)
                = Some r) /\
  (forall attempts start delay,
      (forall k, attempt_pick (attempts k) = None) ->
      exists t, poll poll_fuel attempts 0 (start + poll_window) (start + delay)
                = Some (TimedOut, t) /\ (start + poll_window <= t)%N) /\
  (forall cache u page,
      cache_lookup (cache_clock page) u cache = None ->
      (exists x, load page = Returned x) ->
      (forall k, attempt_pick (attempts page k) = None) ->
      get_price cache u page = Some (HTTPException 500 price_not_found, cache)) /\
  (forall fuel attempts k deadline now p,
      (now < deadline)%N ->
      attempt_pick (attempts k) = Some p ->
      poll (S fuel) attempts k deadline now
      = Some (Found p, (now + eval_ms (attempts k))%N)) /\
  (forall attempts start delay n p,
      (forall j, (j < n)%nat -> attempt_pick (attempts j) = None) ->
      attempt_pick (attempts n) = Some p ->
      (turn_clock attempts 0 n (start + delay) < start + poll_window)%N ->
      poll poll_fuel attempts 0 (start + poll_window) (start + delay)
      = Some (Found p,
              (turn_clock attempts 0 n (start + delay) + eval_ms (attempts n))%N)).
Proof.
  split; [|split; [|split; [|split]]].
  - intros attempts start delay. apply poll_enough_fuel, poll_window_fuel.
  - apply poll_all_no_pick.
  - apply get_price_no_pick.
  - intros fuel attempts k deadline now p Hlt Hp. cbn [poll].
    apply N.ltb_lt in Hlt. now rewrite Hlt, Hp.
  - intros attempts start delay n p Hno Hp Ht.
    apply (poll_found n poll_fuel attempts 0); auto.
    pose proof (turn_clock_ge attempts 0 n (start + delay)) as Hge.
    unfold poll_window, poll_fuel in *. lia.
Qed.

Lemma polling_ends_at_deadline_witness :
  (exists t, poll poll_fuel (steady blank_page) 0 (5000 + poll_window) (5000 + 1)
             = Some (TimedOut, t) /\ (5000 + poll_window <= t)%N) /\
  get_price [] product_url (browser_with "Queso" (steady blank_page) "Queso")
    = Some (HTTPException 500 price_not_found, []) /\
  (exists p, poll 1 (steady offer_page) 0 23000 5001 = Some (Found p, 5041%N) /\
             value p = PyFinite (85 # 1)) /\
  (exists p, poll poll_fuel settling 0 (5000 + poll_window) (5000 + 1)
             = Some (Found p, (turn_clock settling 0 2 (5000 + 1) + 40)%N) /\
             value p = PyFinite (85 # 1)).
Proof.
  destruct polling_ends_at_deadline as (_ & Hout & Hresp & Hstep & Hfound).
  split; [|split; [|split]].
  - apply Hout. intros k. vm_compute. reflexivity.
  - apply Hresp.
    + reflexivity.
    + exists tt. reflexivity.
    + intros k. vm_compute. reflexivity.
  - eexists. split.
    + apply (Hstep 0%nat (steady offer_page) 0%nat 23000%N 5001%N);
        [reflexivity | vm_compute; reflexivity].
    + reflexivity.
  - eexists. split.
    + apply (Hfound settling 5000%N 1%N 2%nat).
      * intros j Hj. destruct j as [|[|j]]; [vm_compute; reflexivity .. | lia].
      * vm_compute. reflexivity.
      * vm_compute. reflexivity.
    + reflexivity.
Defined.

Lemma attempt_raised_no_pick (a : Attempt) (e : exn) :
  attempt_body a = Raised e -> attempt_pick a = None.
Proof. unfold attempt_pick. now intros ->. Qed.

(** The loop times out at the clock of the first turn that would begin at
    or after the deadline, when the turns before it have no pick. *)
Lemma poll_timed_out_at (n fuel : nat) (attempts : nat -> Attempt) (k : nat)
    (deadline now : N) :
  (forall j, (j < n)%nat ->
             attempt_pick (attempts (k + j)%nat) = None /\
             (turn_clock attempts k j now < deadline)%N) ->
  (deadline <= turn_clock attempts k n now)%N ->
  (n < fuel)%nat ->
  poll fuel attempts k deadline now = Some (TimedOut, turn_clock attempts k n now).
Proof.
  revert fuel k now. induction n as [|n IH]; intros fuel k now Hno Ht Hf;
    (destruct fuel as [|fuel]; [lia|]); cbn [poll turn_clock] in *.
  - apply N.ltb_ge in Ht. now rewrite Ht.
  - destruct (Hno 0%nat) as [Hp Hlt]; [lia|].
    rewrite Nat.add_0_r in Hp. cbn [turn_clock] in Hlt.
    apply N.ltb_lt in Hlt. rewrite Hlt, Hp.
    apply IH; [|exact Ht | lia].
    intros j Hj. destruct (Hno (S j)) as [Hpj Hltj]; [lia|].
    replace (S k + j)%nat with (k + S j)%nat by lia.
    split; [exact Hpj | exact Hltj].
Qed.

(** A pick in turn [n], after turns without a pick, makes the response. *)
Lemma get_price_found (cache : TTLCache) (u : string) (page : Browser)
    (n : nat) (p : Priced) :
  cache_lookup (cache_clock page) u cache = None ->
  (exists x, load page = Returned x) ->
  (forall j, (j < n)%nat -> attempt_pick (attempts page j) = None) ->
  attempt_pick (attempts page n) = Some p ->
  (turn_clock (attempts page) 0 n (poll_clock page + poll_delay page)
   < poll_clock page + poll_window)%N ->
  exists r,
    get_price cache u page
    = Some (OK200 r, cache_store (store_clock page) u r cache) /\
    url r = u /\ price_assigned r (value p).
Proof.
  intros Hc Hl Hno Hp Ht.
  assert (Hpoll : request_poll page
                  = Some (Found p,
                          (turn_clock (attempts page) 0 n
                             (poll_clock page + poll_delay page)
                           + eval_ms (attempts page n))%N)).
  { unfold request_poll. apply (poll_found n poll_fuel (attempts page) 0); auto.
    pose proof (turn_clock_ge (attempts page) 0 n
                  (poll_clock page + poll_delay page)) as Hge.
    unfold poll_window, poll_fuel in *. lia. }
  destruct (get_price_cases cache u page)
    as [(r & Hc' & _) | [(e & _ & Hl' & _) | [(t & _ & _ & Hp' & _)
       | (p' & t & r & _ & _ & Hp' & H & Hu & Ha & _)]]].
  - congruence.
  - destruct Hl as [x Hl]. congruence.
  - congruence.
  - rewrite Hpoll in Hp'. injection Hp' as <- _. eauto.
Qed.

(** C8. An exception raised in a turn of the polling loop is swallowed: the
    turn has no pick, the loop waits at least 350 milliseconds and goes on
    with the next turn, exactly as if the page had shown nothing.  The loop
    still ends, timed out only at or after the deadline; when every turn
    raises, the client receives the 500 of a price not found.  The turns
    after a raising turn are evaluated: when the turns before turn [n] raise
    and turn [n], begun before the deadline, has a pick, the loop ends found
    with that pick, each raising turn having taken its evaluation and its
    wait, and the client receives the 200 with that price; when the turns
    raise until the deadline has passed, the loop ends timed out at the clock
    of the first turn that is not begun. *)
Theorem attempt_exceptions_swallowed :
  (forall fuel attempts k deadline now e,
      (now < deadline)%N ->
      attempt_body (attempts k) = Raised e ->
      attempt_pick (attempts k) = None /\
      (350 <= wait_ms (attempts k))%N /\
      poll (S fuel) attempts k deadline now
      = poll fuel attempts (S k) deadline
             (now + eval_ms (attempts k) + wait_ms (attempts k))%N) /\
  (forall fuel attempts k deadline now,
      poll fuel attempts k deadline now
      = poll fuel (fun i => calm (attempts i)) k deadline now) /\
  (forall attempts start delay,
      exists outcome t,
        poll poll_fuel attempts 0 (start + poll_window) (start + delay)
        = Some (outcome, t) /\
        (outcome = TimedOut -> (start + poll_window <= t)%N)) /\
  (forall cache u page,
      cache_lookup (cache_clock page) u cache = None ->
      (exists x, load page = Returned x) ->
      (forall k, exists e, attempt_body (attempts page k) = Raised e) ->
      get_price cache u page = Some (HTTPException 500 price_not_found, cache)) /\
  (forall attempts start delay n p,
      (forall j, (j < n)%nat -> exists e, attempt_body (attempts j) = Raised e) ->
      attempt_pick (attempts n) = Some p ->
      (turn_clock attempts 0 n (start + delay) < start + poll_window)%N ->
      poll poll_fuel attempts 0 (start + poll_window) (start + delay)
      = Some (Found p,
              (turn_clock attempts 0 n (start + delay) + eval_ms (attempts n))%N) /\
      (start + delay + 350 * N.of_nat n
       <= turn_clock attempts 0 n (start + delay))%N) /\
  (forall attempts start delay n,
      (forall j, (j < n)%nat ->
                 (exists e, attempt_body (attempts j) = Raised e) /\
                 (turn_clock attempts 0 j (start + delay) < start + poll_window)%N) ->
      (start + poll_window <= turn_clock attempts 0 n (start + delay))%N ->
      poll poll_fuel attempts 0 (start + poll_window) (start + delay)
      = Some (TimedOut, turn_clock attempts 0 n (start + delay))) /\
  (forall cache u page n p,
      cache_lookup (cache_clock page) u cache = None ->
      (exists x, load page = Returned x) ->
      (forall j, (j < n)%nat ->
                 exists e, attempt_body (attempts page j) = Raised e) ->
      attempt_pick (attempts page n) = Some p ->
      (turn_clock (attempts page) 0 n (poll_clock page + poll_delay page)
       < poll_clock page + poll_window)%N ->
      exists r,
        get_price cache u page
        = Some (OK200 r, cache_store (store_clock page) u r cache) /\
        url r = u /\ price_assigned r (value p)).
Proof.
  split; [|split; [|split; [|split; [|split; [|split]]]]].
  - intros fuel attempts k deadline now e Hlt Hr.
    pose proof (attempt_raised_no_pick _ _ Hr) as Hno.
    split; [exact Hno|]. split; [unfold wait_ms; lia|].
    cbn [poll]. apply N.ltb_lt in Hlt. now rewrite Hlt, Hno.
  - apply poll_calm.
  - intros attempts start delay.
    destruct (poll_enough_fuel poll_fuel attempts 0 _ _ (poll_window_fuel start delay))
      as [[o t] Hr].
    exists o, t. split; [exact Hr|]. intros ->.
    exact (poll_timed_out_late _ _ _ _ _ _ Hr).
  - intros cache u page Hc Hl Hraise. apply get_price_no_pick; auto.
    intros k. destruct (Hraise k) as [e He].
    exact (attempt_raised_no_pick _ _ He).
  - intros attempts start delay n p Hraise Hp Ht.
    pose proof (turn_clock_ge attempts 0 n (start + delay)) as Hge.
    split; [|exact Hge].
    apply (poll_found n poll_fuel attempts 0); auto.
    + intros j Hj. destruct (Hraise j Hj) as [e He].
      exact (attempt_raised_no_pick _ _ He).
    + unfold poll_window, poll_fuel in *. lia.
  - intros attempts start delay n Hraise Ht.
    apply (poll_timed_out_at n poll_fuel attempts 0); auto.
    + intros j Hj. destruct (Hraise j Hj) as [[e He] Hlt].
      split; [exact (attempt_raised_no_pick _ _ He) | exact Hlt].
    + destruct n as [|n]; [unfold poll_fuel; lia|].
      destruct (Hraise n) as [_ Hlt]; [lia|].
      pose proof (turn_clock_ge attempts 0 n (start + delay)) as Hge.
      unfold poll_window, poll_fuel in *. lia.
  - intros cache u page n p Hc Hl Hraise Hp Ht.
    apply (get_price_found cache u page n p); auto.
    intros j Hj. destruct (Hraise j Hj) as [e He].
    exact (attempt_raised_no_pick _ _ He).
Qed.

Lemma attempt_exceptions_swallowed_witness :
  (attempt_pick (settling 0) = None /\
   poll 3 settling 0 23000 5001 = poll 2 settling 1 23000 (5001 + 5 + 350)%N) /\
  get_price [] product_url (browser_with "Queso" failing "Queso")
    = Some (HTTPException 500 price_not_found, []) /\
  (exists p, poll poll_fuel settling 0 (5000 + poll_window) (5000 + 1)
             = Some (Found p, 5751%N) /\ value p = PyFinite (85 # 1)) /\
  poll poll_fuel settling 0 (5000 + poll_window) (5000 + 17500)
    = Some (TimedOut, 23210%N) /\
  (exists r, get_price [] product_url (browser_with "Queso" settling "Queso")
             = Some (OK200 r, cache_store 7000 product_url r []) /\
             price_assigned r (PyFinite (85 # 1))).
Proof.
  destruct attempt_exceptions_swallowed
    as (Hstep & _ & _ & Hresp & Hfound & Hout & Hclient).
  assert (Hraise : forall j, (j < 2)%nat ->
                     exists e, attempt_body (settling j) = Raised e).
  { intros j Hj. exists (BrowserError "Execution context was destroyed").
    destruct j as [|[|j]]; [reflexivity | reflexivity | lia]. }
  split; [|split; [|split; [|split]]].
  - destruct (Hstep 2%nat settling 0%nat 23000%N 5001%N
                    (BrowserError "Execution context was destroyed"))
      as (Hno & _ & Hpoll); [reflexivity | reflexivity |].
    split; [exact Hno | exact Hpoll].
  - apply Hresp.
    + reflexivity.
    + exists tt. reflexivity.
    + intros k. exists (BrowserError "Execution context was destroyed").
      reflexivity.
  - eexists. split.
    + apply (Hfound settling 5000%N 1%N 2%nat); [exact Hraise | |].
      * vm_compute. reflexivity.
      * vm_compute. reflexivity.
    + reflexivity.
  - apply (Hout settling 5000%N 17500%N 2%nat).
    + intros j Hj. split; [exact (Hraise j Hj)|].
      destruct j as [|[|j]]; [vm_compute; reflexivity .. | lia].
    + vm_compute. discriminate.
  - destruct (Hclient [] product_url (browser_with "Queso" settling "Queso") 2%nat
                {| item := {| selector := "[class*='as-price']"; text := "$85.00";
                              color := "rgb(214, 0, 28)"; struck := false |};
                   value := PyFinite (85 # 1); colorType := "red" |})
      as (r & Hr & _ & Ha).
    + reflexivity.
    + exists tt. reflexivity.
    + exact Hraise.
    + vm_compute. reflexivity.
    + vm_compute. reflexivity.
    + exists r. split; [exact Hr | exact Ha].
Defined.

(** C9. A request changes the cache only when it returns a record that it
    made: after a 502 or a 500 the cache is what it was; a record returned
    from the cache leaves the cache as it was; a record made by the request
    is stored under the URL of the request, which is the URL of the record,
    and is complete; a look-up at the time of the store finds it. *)
Theorem cache_written_on_success_only :
  forall cache u page,
  exists resp cache',
    get_price cache u page = Some (resp, cache') /\
    match resp with
    | HTTPException status _ =>
        (status = 502 \/ status = 500)%Z /\ cache' = cache
    | OK200 r =>
        (cache_lookup (cache_clock page) u cache = Some r /\ cache' = cache) \/
        (cache_lookup (cache_clock page) u cache = None /\
         url r = u /\
         (exists v, price_assigned r v) /\
         cache' = cache_store (store_clock page) u r cache /\
         cache_lookup (store_clock page) u cache' = Some r)
    end.
Proof.
  intros cache u page.
  destruct (get_price_cases cache u page)
    as [(r & Hc & H) | [(e & _ & _ & H) | [(t & _ & _ & _ & H)
       | (p & t & r & Hc & _ & _ & H & Hu & Ha & _)]]];
    rewrite H; eexists; eexists; (split; [reflexivity|]); cbv beta iota.
  - left. auto.
  - auto.
  - auto.
  - right. repeat split; eauto. apply cache_lookup_store.
Qed.

Lemma price_assigned_exclusive (r : PriceResponse) (v : pyfloat) :
  price_assigned r v ->
  ((price_per_kg r <> None /\ unit_price r = None) \/
   (price_per_kg r = None /\ unit_price r <> None)) /\
  (price_per_kg r <> None <-> raw_unit r = Some "kg"%string).
Proof.
  intros [(Hu & Hk & Hp) | (Hu & Hp & Hk)]; rewrite Hk, Hp; split.
  - left. split; [discriminate | reflexivity].
  - split; [auto | discriminate].
  - right. split; [reflexivity | discriminate].
  - split; [congruence | contradiction].
Qed.

Lemma get_price_fresh (cache : TTLCache) (u : string) (page : Browser)
    (r : PriceResponse) (cache' : TTLCache) :
  cache_lookup (cache_clock page) u cache = None ->
  get_price cache u page = Some (OK200 r, cache') ->
  exists p t, request_poll page = Some (Found p, t) /\
              price_assigned r (value p).
Proof.
  intros Hc Hg.
  destruct (get_price_cases cache u page)
    as [(r' & Hc' & _) | [(e & _ & _ & H) | [(t & _ & _ & _ & H)
       | (p & t & r' & _ & _ & Hp & H & _ & Ha & _)]]]; try congruence.
  rewrite H in Hg. injection Hg as <- _. eauto.
Qed.

(** C4. Every record the server returns, made by the request or taken from
    the cache, has exactly one of [price_per_kg] and [unit_price] set;
    [price_per_kg] is the one that is set exactly when [raw_unit] is [kg].
    In a record made by the request the field that is set carries the value
    of the pick of the polling loop. *)
Theorem price_fields_exclusive :
  (forall requests resps cache',
      serve [] requests = Some (resps, cache') ->
      forall r, In (OK200 r) resps ->
        ((price_per_kg r <> None /\ unit_price r = None) \/
         (price_per_kg r = None /\ unit_price r <> None)) /\
        (price_per_kg r <> None <-> raw_unit r = Some "kg"%string)) /\
  (forall cache u page r cache',
      cache_lookup (cache_clock page) u cache = None ->
      get_price cache u page = Some (OK200 r, cache') ->
      exists p t, request_poll page = Some (Found p, t) /\
                  price_assigned r (value p)).
Proof.
  split; [|exact get_price_fresh].
  intros requests resps cache' Hs r Hin.
  destruct (serve_invariant (fun r => exists v, price_assigned r v)) with
    (requests := requests) (cache := @nil Entry) (resps := resps) (cache' := cache')
    as [Hall _]; auto.
  - intros cache u page r0 c' Hc Hg.
    destruct (get_price_fresh _ _ _ _ _ Hc Hg) as (p & t & _ & Ha). eauto.
  - destruct (Hall r Hin) as [v Hv]. exact (price_assigned_exclusive _ _ Hv).
Qed.

Lemma sample_run :
  exists cache',
    serve [] sample_requests
    = Some ([OK200 cheese_record; OK200 beef_record; OK200 cheese_record], cache').
Proof. eexists. vm_compute. reflexivity. Qed.

Lemma price_fields_exclusive_witness :
  (((price_per_kg beef_record <> None /\ unit_price beef_record = None) \/
    (price_per_kg beef_record = None /\ unit_price beef_record <> None)) /\
   (price_per_kg beef_record <> None <-> raw_unit beef_record = Some "kg"%string)) /\
  (exists p t,
      request_poll (browser_with " Queso Chihuahua " (steady offer_page) "Queso Chihuahua 400 g")
      = Some (Found p, t) /\
      price_assigned cheese_record (value p)).
Proof.
  destruct price_fields_exclusive as [Hrun Hfresh].
  split.
  - assert (E : exists resps cache',
               serve [] sample_requests = Some (resps, cache') /\
               In (OK200 beef_record) resps).
    { eexists. eexists. split; [vm_compute; reflexivity|].
      right. left. reflexivity. }
    destruct E as (resps & cache' & Hs & Hin).
    exact (Hrun _ _ _ Hs _ Hin).
  - apply (Hfresh [] product_url _ cheese_record
                  (cache_store 7000 product_url cheese_record []));
      vm_compute; reflexivity.
Defined.

(** C10. A pick always has a value that its text parses to and that is not
    zero, so a candidate whose text parses to zero is never the pick although
    the parser returns a value for it; the value of a pick is greater than
    zero, and so is the price set in every record the server returns. *)
Theorem zero_price_never_picked :
  (forall l p,
      pick_price l = Returned (Some p) ->
      _num (text (item p)) = Returned (Some (value p)) /\
      float_truthy (value p) = true /\
      float_positive (value p)) /\
  (forall l c v,
      In c l ->
      _num (text c) = Returned (Some v) -> float_truthy v = false ->
      forall p, pick_price l = Returned (Some p) -> item p <> c) /\
  (_num "$0" = Returned (Some (PyFinite (0 # 1))) /\
   _num "$0.00" = Returned (Some (PyFinite (0 # 1))) /\
   pick_price (FIND_PRICE_JS free_page PRICE_SELECTORS) = Returned None) /\
  (forall requests resps cache',
      serve [] requests = Some (resps, cache') ->
      forall r, In (OK200 r) resps ->
        exists v, price_assigned r v /\ float_positive v).
Proof.
  split; [|split; [|split]].
  - intros l p H.
    destruct (pick_price_sound _ _ H) as (_ & _ & _ & _ & Hn & Ht).
    repeat split; auto. exact (pick_price_positive _ _ H).
  - intros l c v _ Hn Hz p H E. subst c.
    destruct (pick_price_sound _ _ H) as (_ & _ & _ & _ & Hn' & Ht).
    congruence.
  - repeat split; vm_compute; reflexivity.
  - intros requests resps cache' Hs r Hin.
    destruct (serve_invariant
                (fun r => exists v, price_assigned r v /\ float_positive v))
      with (requests := requests) (cache := @nil Entry)
           (resps := resps) (cache' := cache') as [Hall _]; auto.
    intros cache u page r0 c' Hc Hg.
    destruct (get_price_fresh _ _ _ _ _ Hc Hg) as (p & t & Hp & Ha).
    exists (value p). split; [exact Ha|].
    destruct (poll_found_pick _ _ _ _ _ _ _ Hp) as [j Hj].
    exact (attempt_pick_positive _ _ Hj).
Qed.

Lemma zero_price_never_picked_witness :
  (_num "$85.00" = Returned (Some (PyFinite (85 # 1))) /\
   float_truthy (PyFinite (85 # 1)) = true /\
   float_positive (PyFinite (85 # 1))) /\
  (exists v, price_assigned cheese_record v /\ float_positive v).
Proof.
  destruct zero_price_never_picked as (Hpick & _ & _ & Hrun).
  split.
  - exact (Hpick (FIND_PRICE_JS offer_page PRICE_SELECTORS)
                 {| item := {| selector := "[class*='as-price']"; text := "$85.00";
                               color := "rgb(214, 0, 28)"; struck := false |};
                    value := PyFinite (85 # 1); colorType := "red" |}
                 eq_refl).
  - assert (E : exists resps cache',
               serve [] sample_requests = Some (resps, cache') /\
               In (OK200 cheese_record) resps).
    { eexists. eexists. split; [vm_compute; reflexivity|]. left. reflexivity. }
    destruct E as (resps & cache' & Hs & Hin).
    exact (Hrun _ _ _ Hs _ Hin).
Defined.

(* ------------------------------------------------------------------ *)
(** * Further properties of the code *)

(** ** [_num] *)

Lemma all_chars_false_split (p : ascii -> bool) (s : string) :
  all_chars p s = false ->
  exists pre d post, s = (pre ++ String d post)%string /\ p d = false.
Proof.
  induction s as [|c s IH]; simpl; [discriminate|].
  destruct (p c) eqn:Hc; simpl.
  - intros H. destruct (IH H) as (pre & d & post & -> & Hd).
    now exists (String c pre), d, post.
  - intros _. now exists ""%string, c, s.
Qed.

Lemma has_digit_iff (s : string) : has_digit s <-> all_chars not_digit s = false.
Proof.
  split.
  - intros (pre & d & post & -> & Hd). rewrite all_chars_append. simpl.
    unfold not_digit at 2. rewrite Hd. simpl. apply andb_false_r.
  - intros H. destruct (all_chars_false_split _ _ H) as (pre & d & post & E & Hd).
    exists pre, d, post. split; [exact E|].
    unfold not_digit in Hd. now apply negb_false_iff in Hd.
Qed.

Lemma all_chars_remove_char (p : ascii -> bool) (c : ascii) (s : string) :
  p c = true -> all_chars p (remove_char c s) = all_chars p s.
Proof.
  intros Hc. induction s as [|a s IH]; simpl; [reflexivity|].
  destruct (Ascii.eqb a c) eqn:E.
  - apply Ascii.eqb_eq in E. subst a. now rewrite Hc, IH.
  - simpl. now rewrite IH.
Qed.

Lemma all_chars_lstrip (p sp : ascii -> bool) (s : string) :
  (forall c, sp c = true -> p c = true) ->
  all_chars p (lstrip sp s) = all_chars p s.
Proof.
  intros H. induction s as [|a s IH]; simpl; [reflexivity|].
  destruct (sp a) eqn:E; [|reflexivity]. now rewrite IH, (H _ E).
Qed.

Lemma all_chars_rstrip (p sp : ascii -> bool) (s : string) :
  (forall c, sp c = true -> p c = true) ->
  all_chars p (rstrip sp s) = all_chars p s.
Proof.
  intros H. induction s as [|a s IH]; simpl; [reflexivity|].
  rewrite <- IH. destruct (rstrip sp s) as [|b t] eqn:E.
  - destruct (sp a) eqn:Ea; simpl; [now rewrite (H _ Ea) | now rewrite andb_true_r].
  - reflexivity.
Qed.

Lemma py_isspace_not_digit (c : ascii) : py_isspace c = true -> not_digit c = true.
Proof.
  unfold py_isspace, not_digit, is_digit, in_range. intros H.
  apply negb_true_iff. apply andb_false_iff.
  apply orb_true_iff in H. destruct H as [H|H];
    apply andb_true_iff in H; destruct H as [H1 H2];
    apply Nat.leb_le in H1, H2; left; apply Nat.leb_gt; lia.
Qed.

Lemma clean_digits (txt : string) :
  all_chars not_digit (strip py_isspace (remove_char "$" (remove_char "," txt)))
  = all_chars not_digit txt.
Proof.
  unfold strip.
  rewrite all_chars_rstrip, all_chars_lstrip by exact py_isspace_not_digit.
  now rewrite !all_chars_remove_char by reflexivity.
Qed.

Lemma _num_some_iff_digit (txt : string) :
  (exists v, _num txt = Returned (Some v)) <-> has_digit txt.
Proof.
  rewrite has_digit_iff, <- clean_digits.
  destruct (_num_cases txt) as [(run & ip & fp & Hrun & ->) | [Hnone ->]].
  - split; [intros _ | eauto].
    destruct Hrun as (Hr & pre & post & -> & _).
    rewrite !all_chars_append.
    pose proof (number_run_head _ _ _ Hr) as Hh.
    destruct run as [|c run]; [discriminate|]. simpl in Hh |- *.
    unfold not_digit at 2. rewrite Hh. simpl. apply andb_false_r.
  - rewrite Hnone. split; [intros [v H]; discriminate | discriminate].
Qed.

(** X1. [_num] returns a value exactly when the text has a digit. *)
Theorem num_value_iff_digit :
  forall txt, (exists v, _num txt = Returned (Some v)) <-> has_digit txt.
Proof. exact _num_some_iff_digit. Qed.

Lemma remove_char_idem (c : ascii) (s : string) :
  remove_char c (remove_char c s) = remove_char c s.
Proof.
  induction s as [|a s IH]; simpl; [reflexivity|].
  destruct (Ascii.eqb a c) eqn:E; [exact IH|]. simpl. now rewrite E, IH.
Qed.

Lemma remove_char_comm (c d : ascii) (s : string) :
  remove_char c (remove_char d s) = remove_char d (remove_char c s).
Proof.
  induction s as [|a s IH]; simpl; [reflexivity|].
  destruct (Ascii.eqb a d) eqn:Ed; destruct (Ascii.eqb a c) eqn:Ec; simpl;
    rewrite ?Ed, ?Ec, IH; reflexivity.
Qed.

Lemma remove_char_append (c : ascii) (a b : string) :
  remove_char c (a ++ b) = (remove_char c a ++ remove_char c b)%string.
Proof.
  induction a as [|x a IH]; simpl; [reflexivity|].
  destruct (Ascii.eqb x c); simpl; now rewrite IH.
Qed.

(** [_num] by the cleaned text alone. *)
Lemma _num_clean (txt : string) :
  _num txt =
  match re_search_number
          (strip py_isspace (remove_char "$" (remove_char "," txt))) with
  | Some g => f <- py_float g;; Returned (Some f)
  | None => Returned None
  end.
Proof.
  unfold _num. destruct txt; reflexivity.
Qed.

(** X2. Commas and dollar signs are ignored wherever they stand: removing
    them from the text, or putting one in, does not change the result. *)
Theorem num_ignores_separators :
  forall txt a b,
    _num (remove_char "," txt) = _num txt /\
    _num (remove_char "$" txt) = _num txt /\
    _num (a ++ String "," b) = _num (a ++ b) /\
    _num (a ++ String "$" b) = _num (a ++ b).
Proof.
  intros txt a b.
  assert (Hc : forall t, _num (remove_char "," t) = _num t).
  { intros t. rewrite !_num_clean. now rewrite remove_char_idem. }
  assert (Hd : forall t, _num (remove_char "$" t) = _num t).
  { intros t. rewrite !_num_clean.
    now rewrite (remove_char_comm "," "$"), remove_char_idem. }
  split; [apply Hc|]. split; [apply Hd|]. split.
  - rewrite <- (Hc (a ++ String "," b)%string), <- (Hc (a ++ b)%string).
    rewrite !remove_char_append. reflexivity.
  - rewrite <- (Hd (a ++ String "$" b)%string), <- (Hd (a ++ b)%string).
    rewrite !remove_char_append. reflexivity.
Qed.

Lemma rstrip_cons (sp : ascii -> bool) (c : ascii) (t : string) :
  sp c = false -> rstrip sp (String c t) = String c (rstrip sp t).
Proof. intros H. simpl. rewrite H. now destruct (rstrip sp t). Qed.

Lemma rstrip_append (sp : ascii -> bool) (a r : string) :
  all_chars (fun c => negb (sp c)) a = true ->
  rstrip sp (a ++ r) = (a ++ rstrip sp r)%string.
Proof.
  induction a as [|c a IH]; intros H; [reflexivity|].
  simpl in H. apply andb_true_iff in H. destruct H as [Hc Ha].
  apply negb_true_iff in Hc.
  change (String c a ++ r)%string with (String c (a ++ r)%string).
  rewrite (rstrip_cons _ _ _ Hc), (IH Ha). reflexivity.
Qed.

Lemma run_char_not_py_space (c : ascii) :
  run_char c = true -> negb (py_isspace c) = true.
Proof.
  unfold run_char. intros H. apply orb_true_iff in H. destruct H as [H|H].
  - apply negb_true_iff.
    destruct (py_isspace c) eqn:E; [|reflexivity].
    apply py_isspace_not_digit in E. unfold not_digit in E. now rewrite H in E.
  - apply Ascii.eqb_eq in H. now subst c.
Qed.

Lemma run_char_not_separator (c : ascii) :
  run_char c = true -> Ascii.eqb c "," = false /\ Ascii.eqb c "$" = false.
Proof.
  unfold run_char. intros H. apply orb_true_iff in H. destruct H as [H|H].
  - split; apply Ascii.eqb_neq; intros ->; discriminate H.
  - apply Ascii.eqb_eq in H. now subst c.
Qed.

Lemma remove_char_id (c : ascii) (s : string) :
  all_chars (fun a => negb (Ascii.eqb a c)) s = true -> remove_char c s = s.
Proof.
  induction s as [|a s IH]; simpl; [reflexivity|]. intros H.
  apply andb_true_iff in H. destruct H as [Ha Hs].
  apply negb_true_iff in Ha. now rewrite Ha, (IH Hs).
Qed.

(** X3. Only two decimals are read and the third is dropped, not rounded:
    a text that starts with digits, a point and two digits has the value of
    that start, whatever follows. *)
Theorem num_reads_two_decimals :
  forall ip d1 d2 rest,
    ip <> ""%string -> all_chars is_digit ip = true ->
    is_digit d1 = true -> is_digit d2 = true ->
    _num (ip ++ String "." (String d1 (String d2 rest)))
    = Returned (Some (run_value ip (String d1 (String d2 "")))).
Proof.
  intros ip d1 d2 rest Hne Hip H1 H2.
  set (fp := String d1 (String d2 "")).
  assert (Hrun : number_run (ip ++ String "." fp) ip fp).
  { constructor; auto; unfold fp; simpl; [now rewrite H1, H2 | lia]. }
  pose proof (number_run_chars _ _ _ Hrun) as Hchars.
  assert (E : (ip ++ String "." (String d1 (String d2 rest))
               = (ip ++ String "." fp) ++ rest)%string).
  { rewrite append_assoc. reflexivity. }
  rewrite E, _num_clean. clear E.
  rewrite (remove_char_append "," (ip ++ String "." fp) rest).
  rewrite (remove_char_id "," (ip ++ String "." fp))
    by (apply (all_chars_impl run_char); [|exact Hchars];
        intros c Hc; apply negb_true_iff; apply (run_char_not_separator c Hc)).
  rewrite (remove_char_append "$" (ip ++ String "." fp) (remove_char "," rest)).
  rewrite (remove_char_id "$" (ip ++ String "." fp))
    by (apply (all_chars_impl run_char); [|exact Hchars];
        intros c Hc; apply negb_true_iff; apply (run_char_not_separator c Hc)).
  set (rest' := remove_char "$" (remove_char "," rest)).
  unfold strip.
  rewrite lstrip_id.
  2:{ destruct ip as [|c ip]; [congruence|]. simpl in *.
      apply andb_true_iff in Hip. destruct Hip as [Hc _].
      destruct (py_isspace c) eqn:Es; [|reflexivity].
      apply py_isspace_not_digit in Es. unfold not_digit in Es.
      now rewrite Hc in Es. }
  rewrite rstrip_append
    by (exact (all_chars_impl _ _ _ run_char_not_py_space Hchars)).
  set (X := ((ip ++ String "." fp) ++ rstrip py_isspace rest')%string).
  assert (Hhead : head_is is_digit X = true).
  { unfold X. destruct ip as [|c ip]; [congruence|]. simpl in *.
    now apply andb_true_iff in Hip. }
  pose proof (re_search_number_some ""%string X eq_refl Hhead) as Hs.
  change ("" ++ X)%string with X in Hs. rewrite Hs. unfold X.
  assert (Em : match_number ((ip ++ String "." fp) ++ rstrip py_isspace rest')
               = (ip ++ String "." fp)%string).
  { unfold match_number. rewrite append_assoc.
    rewrite (span_append is_digit ip
               (String "." fp ++ rstrip py_isspace rest')%string Hip eq_refl).
    unfold fp. simpl. rewrite H1, H2. simpl.
    destruct (Ascii.eqb "." "." ) eqn:Edot; [reflexivity|].
    now rewrite Ascii.eqb_refl in Edot. }
  rewrite Em, (py_float_run _ _ _ Hrun). reflexivity.
Qed.

Lemma num_reads_two_decimals_witness :
  _num "12.999 kg" = Returned (Some (run_value "12" "99")) /\
  run_value "12" "99" = PyFinite (7312719894942843 # 562949953421312).
Proof.
  split.
  - apply (num_reads_two_decimals "12" "9" "9" "9 kg"); try reflexivity.
    discriminate.
  - vm_compute. reflexivity.
Defined.

Lemma re_search_number_skip (c : ascii) (s : string) :
  is_digit c = false -> re_search_number (String c s) = re_search_number s.
Proof. intros H. simpl. now rewrite H. Qed.

Lemma py_isspace_is_digit (c : ascii) : py_isspace c = true -> is_digit c = false.
Proof.
  intros H. apply py_isspace_not_digit in H. unfold not_digit in H.
  now apply negb_true_iff in H.
Qed.

(** Leading whitespace does not matter to the search. *)
Lemma re_search_number_rstrip_lstrip (s : string) :
  re_search_number (rstrip py_isspace (lstrip py_isspace s))
  = re_search_number (rstrip py_isspace s).
Proof.
  induction s as [|c s IH]; [reflexivity|].
  cbn [lstrip]. destruct (py_isspace c) eqn:Hc; [|reflexivity].
  rewrite IH. cbn [rstrip]. rewrite Hc.
  destruct (rstrip py_isspace s) as [|b t]; [reflexivity|].
  now rewrite (re_search_number_skip c _ (py_isspace_is_digit _ Hc)).
Qed.

(** X4. A minus sign before the text is ignored, and no value of [_num] is
    below zero or NaN. *)
Theorem num_sign_ignored :
  (forall s, _num (String "-" s) = _num s) /\
  (forall txt v, _num txt = Returned (Some v) -> float_nonneg v).
Proof.
  split; [|exact _num_nonneg].
  intros s. rewrite !_num_clean.
  change (remove_char "$" (remove_char "," (String "-" s)))
    with (String "-" (remove_char "$" (remove_char "," s))).
  set (s' := remove_char "$" (remove_char "," s)).
  unfold strip. cbn [lstrip].
  replace (py_isspace "-") with false by reflexivity.
  rewrite (rstrip_cons py_isspace "-" s' eq_refl).
  rewrite (re_search_number_skip "-" _ eq_refl).
  now rewrite re_search_number_rstrip_lstrip.
Qed.

Lemma num_sign_ignored_witness :
  _num "-12.50" = _num "12.50" /\ float_nonneg (PyFinite (25 # 2)).
Proof.
  destruct num_sign_ignored as [Hminus Hnonneg].
  split; [apply Hminus|].
  apply (Hnonneg "-12.50"). vm_compute. reflexivity.
Defined.

(** ** [_guess_units] *)

Lemma first_match_rank (table : list Rule) (low : string) :
  first_match table low = nth (rule_rank table low) (map snd table) default_unit.
Proof.
  induction table as [|r rest IH]; [reflexivity|]. simpl.
  destruct (rule_fires low r); [reflexivity | exact IH].
Qed.

Lemma first_match_range (table : list Rule) (low : string) :
  In (first_match table low) (map snd table ++ [default_unit]).
Proof.
  induction table as [|r rest IH]; simpl; [now left|].
  destruct (rule_fires low r); [now left | now right].
Qed.

Lemma rule_fires_append (low extra : string) (r : Rule) :
  rule_fires low r = true -> rule_fires (low ++ extra) r = true.
Proof.
  unfold rule_fires. rewrite !existsb_exists.
  intros (m & Hin & Hm). exists m. split; [exact Hin|].
  now apply contains_append_l.
Qed.

Lemma rule_rank_append (table : list Rule) (low extra : string) :
  (rule_rank table (low ++ extra) <= rule_rank table low)%nat.
Proof.
  induction table as [|r rest IH]; simpl; [lia|].
  destruct (rule_fires low r) eqn:E.
  - now rewrite (rule_fires_append _ extra _ E).
  - destruct (rule_fires (low ++ extra) r); lia.
Qed.

Lemma folded_append (u t extra : string) :
  folded u (t ++ extra) = (folded u t ++ lower extra)%string.
Proof.
  unfold folded. rewrite <- lower_append. f_equal.
  now rewrite !append_assoc.
Qed.

(** X7. More page text never moves the result to a later rule: the result
    is the one at the position of the first rule that fires, and that
    position can only fall when text is added to the page text. *)
Theorem guess_units_more_text :
  forall u t extra,
    _guess_units u t
    = nth (rule_rank decision_table (folded u t))
          (map snd decision_table) default_unit /\
    (rule_rank decision_table (folded u (t ++ extra))
     <= rule_rank decision_table (folded u t))%nat.
Proof.
  intros u t extra. split.
  - rewrite _guess_units_table. apply first_match_rank.
  - rewrite folded_append. apply rule_rank_append.
Qed.

(** X6. Letter case does not matter: two URLs and two page texts that differ
    in letter case only have the same result. *)
Theorem guess_units_ignores_case :
  forall u t u' t',
    lower u = lower u' -> lower t = lower t' ->
    _guess_units u t = _guess_units u' t'.
Proof.
  intros u t u' t' Hu Ht. rewrite !_guess_units_table. unfold folded.
  rewrite !lower_append. now rewrite Hu, Ht.
Qed.

Lemma guess_units_ignores_case_witness :
  _guess_units "https://www.alsuper.com/producto/SALCHICHA-Viena" "Oferta"
  = _guess_units "https://www.alsuper.com/producto/salchicha-viena" "OFERTA".
Proof.
  apply guess_units_ignores_case; vm_compute; reflexivity.
Defined.

Lemma _guess_units_range (u t : string) : In (_guess_units u t) unit_outcomes.
Proof. rewrite _guess_units_table. apply first_match_range. Qed.

Lemma unit_outcomes_pack (label : string) (pack weight : option Z) :
  In (label, pack, weight) unit_outcomes ->
  (pack = None <-> label = "kg"%string).
Proof.
  unfold unit_outcomes. cbn [decision_table map snd app].
  intros H. repeat (destruct H as [H|H]; [injection H as <- <- <-;
    split; intros; discriminate || reflexivity|]).
  destruct H.
Qed.

Lemma get_price_fresh_units (cache : TTLCache) (u : string) (page : Browser)
    (r : PriceResponse) (cache' : TTLCache) :
  cache_lookup (cache_clock page) u cache = None ->
  get_price cache u page = Some (OK200 r, cache') ->
  units_consistent r.
Proof.
  intros Hc Hg.
  destruct (get_price_cases cache u page)
    as [(r' & Hc' & _) | [(e & _ & _ & H) | [(t & _ & _ & _ & H)
       | (p & t & r' & _ & _ & _ & H & _ & Ha & Hcur & Htriple)]]];
    try congruence.
  rewrite H in Hg. injection Hg as <- _.
  pose proof (_guess_units_range u
                (try_except (body_inner_text page) (fun _ => ""%string))) as Hr.
  destruct (_guess_units u _) as [[label pack] weight].
  injection Htriple as Hl Hp Hw. exists label. rewrite Hp, Hw.
  split; [exact Hl|]. split; [exact Hr|]. split; [|exact Hcur].
  rewrite (unit_outcomes_pack _ _ _ Hr).
  destruct (price_assigned_exclusive _ _ Ha) as [_ Hk]. rewrite Hk, Hl.
  split; [now intros -> | now intros [= ->]].
Qed.

(** X5. In every record the server returns, from the browser or from the
    cache, the unit label, the pack size and the unit weight are one of the
    seven results of [_guess_units]; the pack size is null exactly when the
    price is a price per kilogram; the currency is MXN. *)
Theorem response_units_consistent :
  forall requests resps cache' r,
    serve [] requests = Some (resps, cache') ->
    In (OK200 r) resps ->
    units_consistent r.
Proof.
  intros requests resps cache' r Hs Hin.
  destruct (serve_invariant units_consistent get_price_fresh_units
              requests [] resps cache' (Forall_nil _) Hs) as [Hall _].
  now apply Hall.
Qed.

Lemma response_units_consistent_witness : units_consistent beef_record.
Proof.
  assert (E : exists resps cache',
             serve [] sample_requests = Some (resps, cache') /\
             In (OK200 beef_record) resps).
  { eexists. eexists. split; [vm_compute; reflexivity|]. right. left. reflexivity. }
  destruct E as (resps & cache' & Hs & Hin).
  exact (response_units_consistent _ _ _ _ Hs Hin).
Defined.

(** ** [_color_is_red_or_black] *)

Lemma code_lower_char (c : ascii) :
  code (lower_char c) = if is_upper c then (code c + 32)%nat else code c.
Proof.
  unfold lower_char. destruct (is_upper c) eqn:E; [|reflexivity].
  unfold code at 1. apply nat_ascii_embedding.
  unfold is_upper, in_range in E. apply andb_true_iff in E.
  destruct E as [_ E]. apply Nat.leb_le in E. lia.
Qed.

Lemma is_upper_range (c : ascii) :
  is_upper c = true <-> (65 <= code c <= 90)%nat.
Proof.
  unfold is_upper, in_range. rewrite andb_true_iff, !Nat.leb_le. tauto.
Qed.

Lemma code_neq (a b : ascii) : code a <> code b -> Ascii.eqb a b = false.
Proof. intros H. apply Ascii.eqb_neq. intros ->. now apply H. Qed.

Lemma lower_char_idem (c : ascii) : lower_char (lower_char c) = lower_char c.
Proof.
  unfold lower_char at 1.
  destruct (is_upper (lower_char c)) eqn:E; [|reflexivity].
  apply is_upper_range in E. rewrite code_lower_char in E.
  destruct (is_upper c) eqn:Eu.
  - apply is_upper_range in Eu. lia.
  - apply is_upper_range in E. congruence.
Qed.

Lemma lower_idem (s : string) : lower (lower s) = lower s.
Proof.
  induction s as [|c s IH]; simpl; [reflexivity|].
  now rewrite lower_char_idem, IH.
Qed.

Lemma lower_char_space (c : ascii) :
  Ascii.eqb (lower_char c) " " = Ascii.eqb c " ".
Proof.
  destruct (is_upper c) eqn:Eu.
  - pose proof (proj1 (is_upper_range c) Eu) as Hr.
    rewrite (code_neq c " ") by (change (code " ") with 32%nat; lia).
    apply code_neq. rewrite code_lower_char, Eu.
    change (code " ") with 32%nat. lia.
  - unfold lower_char. now rewrite Eu.
Qed.

Lemma lower_remove_space (s : string) :
  lower (remove_char " " s) = remove_char " " (lower s).
Proof.
  induction s as [|c s IH]; simpl; [reflexivity|].
  rewrite lower_char_space. destruct (Ascii.eqb c " "); simpl; now rewrite IH.
Qed.

Lemma normal_idem (c : string) : normal (normal c) = normal c.
Proof.
  unfold normal. now rewrite lower_remove_space, lower_idem, remove_char_idem.
Qed.

Lemma normal_append (a b : string) : normal (a ++ b) = (normal a ++ normal b)%string.
Proof. unfold normal. now rewrite lower_append, remove_char_append. Qed.

Lemma _color_is_red_or_black_normal (c c' : string) :
  normal c = normal c' -> _color_is_red_or_black c = _color_is_red_or_black c'.
Proof.
  intros H. rewrite !_color_is_red_or_black_classify. unfold classify.
  now rewrite H.
Qed.

(** X8. Letter case and spaces do not matter to the classifier: lowering
    the letters, removing the spaces, or putting a space in, leaves the
    class as it is. *)
Theorem color_ignores_case_and_spaces :
  forall c a b,
    _color_is_red_or_black (lower c) = _color_is_red_or_black c /\
    _color_is_red_or_black (remove_char " " c) = _color_is_red_or_black c /\
    _color_is_red_or_black (normal c) = _color_is_red_or_black c /\
    _color_is_red_or_black (a ++ String " " b) = _color_is_red_or_black (a ++ b).
Proof.
  intros c a b. repeat split; apply _color_is_red_or_black_normal.
  - unfold normal. now rewrite lower_idem.
  - unfold normal. now rewrite lower_remove_space, remove_char_idem.
  - apply normal_idem.
  - rewrite !normal_append. reflexivity.
Qed.

Lemma in_range_iff (lo hi : nat) (c : ascii) :
  in_range lo hi c = true <-> (lo <= code c <= hi)%nat.
Proof. unfold in_range. rewrite andb_true_iff, !Nat.leb_le. tauto. Qed.

Lemma contains_all_chars (p : ascii -> bool) (n h : string) :
  all_chars p h = true -> contains n h = true -> all_chars p n = true.
Proof.
  intros Hh Hc. apply contains_occurs in Hc. destruct Hc as (pre & post & ->).
  rewrite !all_chars_append in Hh.
  apply andb_true_iff in Hh. destruct Hh as [_ Hh].
  now apply andb_true_iff in Hh.
Qed.

Lemma no_word_without_k_r (s : string) :
  all_chars not_k_r s = true ->
  contains "black" s = false /\ contains "red" s = false.
Proof.
  intros H. split.
  - destruct (contains "black" s) eqn:E; [|reflexivity].
    pose proof (contains_all_chars _ _ _ H E) as Hw. discriminate Hw.
  - destruct (contains "red" s) eqn:E; [|reflexivity].
    pose proof (contains_all_chars _ _ _ H E) as Hw. discriminate Hw.
Qed.

Lemma lower_hex_digit (c : ascii) :
  is_hex_digit c = true ->
  not_k_r (lower_char c) = true /\ Ascii.eqb (lower_char c) " " = false.
Proof.
  unfold is_hex_digit. rewrite !orb_true_iff, !in_range_iff. intros H.
  assert (Hc : (48 <= code (lower_char c) <= 57 \/ 97 <= code (lower_char c) <= 102)%nat).
  { rewrite code_lower_char. destruct (is_upper c) eqn:Eu.
    - apply is_upper_range in Eu. lia.
    - assert (~ (65 <= code c <= 90)%nat)
        by (intros Hr; apply is_upper_range in Hr; congruence).
      lia. }
  unfold not_k_r. split; [apply andb_true_iff; split; apply negb_true_iff|];
    apply code_neq;
    [change (code "k") with 107%nat | change (code "r") with 114%nat
     | change (code " ") with 32%nat]; lia.
Qed.

Lemma normal_hex (s : string) :
  all_chars is_hex_digit s = true ->
  normal s = lower s /\ all_chars not_k_r (lower s) = true.
Proof.
  unfold normal. induction s as [|c s IH]; simpl; [auto|]. intros H.
  apply andb_true_iff in H. destruct H as [Hc Hs].
  destruct (lower_hex_digit _ Hc) as [Hkr Hsp].
  destruct (IH Hs) as [E Hall]. now rewrite Hsp, E, Hkr, Hall.
Qed.

(** X9. Of the hexadecimal colours only the four exact forms have a class:
    [#] followed by hexadecimal digits that are not one of [000], [000000],
    [f00] and [ff0000] is none, however dark or red the colour is. *)
Theorem color_other_hex_is_none :
  forall s,
    all_chars is_hex_digit s = true ->
    is_hex_form (String "#" (lower s)) = false ->
    _color_is_red_or_black (String "#" s) = None.
Proof.
  intros s Hs Hform. destruct (normal_hex _ Hs) as [En Hkr].
  rewrite _color_is_red_or_black_classify. unfold classify.
  change (String "#" s) with ("#" ++ s)%string. rewrite normal_append, En.
  change (normal "#" ++ lower s)%string with (String "#" (lower s)).
  replace (startswith "rgb" (String "#" (lower s))) with false by reflexivity.
  rewrite (by_hex_or_word_not_hex _ Hform).
  assert (Hall : all_chars not_k_r (String "#" (lower s)) = true)
    by (simpl; now rewrite Hkr).
  destruct (no_word_without_k_r _ Hall) as [-> ->]. reflexivity.
Qed.

Lemma color_other_hex_is_none_witness :
  _color_is_red_or_black "#010101" = None /\
  _color_is_red_or_black "#E00000" = None /\
  _color_is_red_or_black "rgb(1, 1, 1)" = Some "black"%string /\
  _color_is_red_or_black "rgb(224, 0, 0)" = Some "red"%string.
Proof.
  split; [|split; [|split]].
  - apply color_other_hex_is_none; vm_compute; reflexivity.
  - apply color_other_hex_is_none; vm_compute; reflexivity.
  - vm_compute. reflexivity.
  - vm_compute. reflexivity.
Defined.

(** *** The functional notation *)

Lemma find_char_append (c : ascii) (x y : string) :
  all_chars (fun a => negb (Ascii.eqb a c)) x = true ->
  find_char c (x ++ String c y) = Some (String.length x).
Proof.
  induction x as [|a x IH]; simpl; intros H.
  - now rewrite Ascii.eqb_refl.
  - apply andb_true_iff in H. destruct H as [Ha Hx].
    apply negb_true_iff in Ha. now rewrite Ha, (IH Hx).
Qed.

Lemma substring_skip (p x : string) (n : nat) :
  substring (String.length p) n (p ++ x) = substring 0 n x.
Proof. induction p as [|a p IH]; simpl; [reflexivity | exact IH]. Qed.

Lemma substring_prefix (m q : string) :
  substring 0 (String.length m) (m ++ q) = m.
Proof.
  induction m as [|a m IH]; simpl; [now destruct q | now rewrite IH].
Qed.

Lemma split_none (c : ascii) (x : string) :
  all_chars (fun a => negb (Ascii.eqb a c)) x = true -> split c x = [x].
Proof.
  induction x as [|a x IH]; simpl; [reflexivity|]. intros H.
  apply andb_true_iff in H. destruct H as [Ha Hx].
  apply negb_true_iff in Ha. now rewrite Ha, (IH Hx).
Qed.

Lemma split_append (c : ascii) (x y : string) :
  all_chars (fun a => negb (Ascii.eqb a c)) x = true ->
  split c (x ++ String c y) = x :: split c y.
Proof.
  induction x as [|a x IH]; simpl; intros H.
  - now rewrite Ascii.eqb_refl.
  - apply andb_true_iff in H. destruct H as [Ha Hx].
    apply negb_true_iff in Ha. now rewrite Ha, (IH Hx).
Qed.

Lemma split_join_commas (parts : list string) :
  parts <> [] ->
  Forall (fun x => all_chars (fun a => negb (Ascii.eqb a ",")) x = true) parts ->
  split "," (join_commas parts) = parts.
Proof.
  intros Hne H. induction H as [|x rest Hx Hrest IH]; [congruence|].
  destruct rest as [|y rest].
  - simpl. now apply split_none.
  - change (join_commas (x :: y :: rest))
      with (x ++ String "," (join_commas (y :: rest)))%string.
    rewrite (split_append _ _ _ Hx), IH by discriminate. reflexivity.
Qed.

Lemma all_chars_join_commas (p : ascii -> bool) (parts : list string) :
  p ","%char = true ->
  Forall (fun x => all_chars p x = true) parts ->
  all_chars p (join_commas parts) = true.
Proof.
  intros Hc H. induction H as [|x rest Hx Hrest IH]; [reflexivity|].
  destruct rest as [|y rest]; [exact Hx|].
  change (join_commas (x :: y :: rest))
    with (x ++ String "," (join_commas (y :: rest)))%string.
  rewrite all_chars_append. cbn [all_chars]. now rewrite Hx, Hc, IH.
Qed.

(** The channels of [fn(p1,p2,...)] are read from the parts. *)
Lemma rgb_channels_functional (fn : string) (parts : list string) :
  all_chars (fun a => negb (Ascii.eqb a "(") && negb (Ascii.eqb a ")")) fn = true ->
  parts <> [] ->
  Forall (fun x => all_chars run_char x = true) parts ->
  rgb_channels (functional fn parts)
  = (r <- channel parts 0;; g <- channel parts 1;; b <- channel parts 2;;
     Returned (r, g, b)).
Proof.
  intros Hfn Hne Hparts. unfold rgb_channels, functional, str_index.
  assert (Hopen : all_chars (fun a => negb (Ascii.eqb a "(")) fn = true).
  { revert Hfn. apply all_chars_impl. intros c Hc.
    now apply andb_true_iff in Hc. }
  assert (Hclose : all_chars (fun a => negb (Ascii.eqb a ")")) fn = true).
  { revert Hfn. apply all_chars_impl. intros c Hc.
    now apply andb_true_iff in Hc. }
  assert (Hj : forall p, (forall c, run_char c = true -> p c = true) ->
                         p ","%char = true ->
                         all_chars p (join_commas parts) = true).
  { intros p Hp Hcomma. apply all_chars_join_commas; [exact Hcomma|].
    revert Hparts. apply Forall_impl. intros x. now apply all_chars_impl. }
  rewrite (find_char_append "(" fn _ Hopen). cbn [bind].
  assert (E : (fn ++ String "(" (join_commas parts ++ ")")
               = (fn ++ String "(" (join_commas parts)) ++ String ")" "")%string).
  { rewrite !append_assoc. reflexivity. }
  rewrite E at 1.
  rewrite (find_char_append ")" (fn ++ String "(" (join_commas parts)) "").
  2:{ rewrite all_chars_append, Hclose. cbn [all_chars andb].
      replace (negb (Ascii.eqb "(" ")")) with true by reflexivity.
      apply Hj; [|reflexivity].
      intros c Hc. apply negb_true_iff.
      unfold run_char in Hc. apply orb_true_iff in Hc. destruct Hc as [Hc|Hc].
      - apply Ascii.eqb_neq. intros ->. discriminate Hc.
      - apply Ascii.eqb_eq in Hc. now subst c. }
  cbn [bind]. unfold slice.
  rewrite length_append. cbn [String.length].
  replace (String.length fn + S (String.length (join_commas parts))
           - (String.length fn + 1))%nat
    with (String.length (join_commas parts)) by lia.
  replace (String.length fn + 1)%nat with (String.length (fn ++ "(")) 
    by (rewrite length_append; reflexivity).
  replace (fn ++ String "(" (join_commas parts ++ ")"))%string
    with ((fn ++ "(") ++ (join_commas parts ++ ")"))%string
    by (rewrite append_assoc; reflexivity).
  rewrite substring_skip, substring_prefix.
  rewrite split_join_commas; [reflexivity | exact Hne |].
  revert Hparts. apply Forall_impl. intros x. apply all_chars_impl.
  intros c Hc. apply negb_true_iff. apply (run_char_not_separator c Hc).
Qed.

Lemma numeric_char_lower (c : ascii) : numeric_char c = true -> lower_char c = c.
Proof.
  intros H. unfold lower_char. destruct (is_upper c) eqn:Eu; [|reflexivity].
  apply is_upper_range in Eu. exfalso.
  unfold numeric_char, run_char in H.
  apply orb_true_iff in H. destruct H as [H|H].
  - apply orb_true_iff in H. destruct H as [H|H].
    + unfold is_digit in H. apply in_range_iff in H. lia.
    + apply Ascii.eqb_eq in H. subst c. change (code ".") with 46%nat in Eu. lia.
  - apply Ascii.eqb_eq in H. subst c. change (code " ") with 32%nat in Eu. lia.
Qed.

Lemma normal_numeric (x : string) :
  all_chars numeric_char x = true ->
  normal x = remove_char " " x /\ all_chars run_char (remove_char " " x) = true.
Proof.
  unfold normal. induction x as [|c x IH]; simpl; [auto|]. intros H.
  apply andb_true_iff in H. destruct H as [Hc Hx].
  destruct (IH Hx) as [E Hr]. rewrite (numeric_char_lower _ Hc), E.
  split; [reflexivity|].
  destruct (Ascii.eqb c " ") eqn:Es; [exact Hr|].
  simpl. rewrite Hr, andb_true_r.
  unfold numeric_char in Hc. now rewrite Es, orb_false_r in Hc.
Qed.

Lemma normal_join_commas (parts : list string) :
  Forall (fun x => all_chars numeric_char x = true) parts ->
  normal (join_commas parts) = join_commas (map (remove_char " ") parts) /\
  Forall (fun x => all_chars run_char x = true) (map (remove_char " ") parts).
Proof.
  induction 1 as [|x rest Hx Hrest IH]; [split; [reflexivity | constructor]|].
  destruct IH as [E Hall]. destruct (normal_numeric _ Hx) as [Ex Hrx].
  split; [|now constructor].
  destruct rest as [|y rest]; [exact Ex|].
  change (join_commas (x :: y :: rest))
    with (x ++ String "," (join_commas (y :: rest)))%string.
  change (String "," (join_commas (y :: rest)))
    with ("," ++ join_commas (y :: rest))%string.
  rewrite !normal_append, Ex, E. reflexivity.
Qed.

Lemma normal_functional (fn : string) (parts : list string) :
  normal fn = fn ->
  Forall (fun x => all_chars numeric_char x = true) parts ->
  normal (functional fn parts) = functional fn (map (remove_char " ") parts).
Proof.
  intros Hfn Hparts. unfold functional.
  change (String "(" (join_commas parts ++ ")"))
    with ("(" ++ (join_commas parts ++ ")"))%string.
  rewrite !normal_append, Hfn, (proj1 (normal_join_commas _ Hparts)).
  reflexivity.
Qed.

Lemma run_char_not_d_k (c : ascii) : run_char c = true -> not_d_k c = true.
Proof.
  unfold run_char, not_d_k. intros H. apply orb_true_iff in H.
  destruct H as [H|H].
  - apply andb_true_iff; split; apply negb_true_iff; apply Ascii.eqb_neq;
      intros ->; discriminate H.
  - apply Ascii.eqb_eq in H. now subst c.
Qed.

Lemma by_hex_or_word_functional (fn : string) (parts : list string) :
  all_chars not_d_k fn = true ->
  is_hex_form (functional fn parts) = false ->
  Forall (fun x => all_chars run_char x = true) parts ->
  by_hex_or_word (functional fn parts) = None.
Proof.
  intros Hfn Hform Hparts. rewrite (by_hex_or_word_not_hex _ Hform).
  assert (Hall : all_chars not_d_k (functional fn parts) = true).
  { unfold functional. rewrite all_chars_append, Hfn. cbn [all_chars andb].
    replace (not_d_k "(") with true by reflexivity. cbn [andb].
    rewrite all_chars_append. cbn [all_chars].
    replace (not_d_k ")") with true by reflexivity.
    rewrite !andb_true_r. apply all_chars_join_commas; [reflexivity|].
    revert Hparts. apply Forall_impl. intros x. apply all_chars_impl.
    exact run_char_not_d_k. }
  destruct (contains "black" (functional fn parts)) eqn:Eb.
  { pose proof (contains_all_chars _ _ _ Hall Eb) as Hw. discriminate Hw. }
  destruct (contains "red" (functional fn parts)) eqn:Er; [|reflexivity].
  pose proof (contains_all_chars _ _ _ Hall Er) as Hw. discriminate Hw.
Qed.

(** The class of [rgb(...)] or [rgba(...)] with numeric parts: decided by
    the first three parts alone. *)
Lemma classify_functional (fn : string) (parts : list string) :
  fn = "rgb"%string \/ fn = "rgba"%string ->
  parts <> [] ->
  Forall (fun x => all_chars numeric_char x = true) parts ->
  _color_is_red_or_black (functional fn parts) =
  match (r <- channel (map (remove_char " ") parts) 0;;
         g <- channel (map (remove_char " ") parts) 1;;
         b <- channel (map (remove_char " ") parts) 2;;
         Returned (r, g, b)) with
  | Raised _ => None
  | Returned rgb =>
      if near_black rgb then Some "black"%string
      else if strong_red rgb then Some "red"%string else None
  end.
Proof.
  intros Hfn Hne Hparts.
  rewrite _color_is_red_or_black_classify. unfold classify.
  rewrite normal_functional; [|destruct Hfn as [-> | ->]; reflexivity | exact Hparts].
  pose proof (proj2 (normal_join_commas _ Hparts)) as Hrun.
  set (parts' := map (remove_char " ") parts) in *.
  assert (Hne' : parts' <> []) by (unfold parts'; destruct parts; [congruence | discriminate]).
  replace (startswith "rgb" (functional fn parts')) with true
    by (destruct Hfn as [-> | ->]; reflexivity).
  rewrite rgb_channels_functional;
    [| destruct Hfn as [-> | ->]; reflexivity | exact Hne' | exact Hrun].
  destruct (r <- channel parts' 0;; _) as [rgb|e]; [|reflexivity].
  destruct (near_black rgb); [reflexivity|].
  destruct (strong_red rgb); [reflexivity|].
  apply by_hex_or_word_functional; [| | exact Hrun];
    destruct Hfn as [-> | ->]; reflexivity.
Qed.

(** X10. The alpha part of a colour is never read: [rgba(r,g,b,a)] has the
    class of [rgb(r,g,b)], whatever the numbers [r], [g], [b] and [a] are. *)
Theorem color_ignores_alpha :
  forall r g b a,
    all_chars numeric_char r = true -> all_chars numeric_char g = true ->
    all_chars numeric_char b = true -> all_chars numeric_char a = true ->
    _color_is_red_or_black (functional "rgba" [r; g; b; a])
    = _color_is_red_or_black (functional "rgb" [r; g; b]).
Proof.
  intros r g b a Hr Hg Hb Ha.
  rewrite !classify_functional; auto; try discriminate.
Qed.

Lemma color_ignores_alpha_witness :
  _color_is_red_or_black "rgba(214, 0, 28, 0)" = _color_is_red_or_black "rgb(214, 0, 28)" /\
  _color_is_red_or_black "rgba(214, 0, 28, 0)" = Some "red"%string.
Proof.
  split.
  - apply (color_ignores_alpha "214" " 0" " 28" " 0"); reflexivity.
  - vm_compute. reflexivity.
Defined.

(** ** The locator and the pick together *)

Lemma dollar_space_digit_has_digit (s : string) :
  dollar_space_digit s -> has_digit s.
Proof.
  intros (pre & ws & d & post & -> & _ & Hd).
  exists (pre ++ String "$" ws)%string, d, post. split; [|exact Hd].
  rewrite append_assoc. reflexivity.
Qed.

Lemma find_price_loop_In (document : DOM) (selList : list string) (c : Candidate) :
  In c (find_price_loop document selList []) ->
  exists sel, In sel selList /\ In c (collected document sel).
Proof.
  destruct (find_price_loop_first document selList)
    as [[_ E] | (pre & sel & post & -> & _ & _ & E)]; rewrite E.
  - intros [].
  - intros H. exists sel. split; [|exact H].
    apply in_or_app. right. now left.
Qed.

(** X11. Every text the locator reports has a numeric value: of its
    candidates the numeric test of the filter can discard only those worth
    zero. *)
Theorem located_text_has_value :
  forall document selList c,
    In c (FIND_PRICE_JS document selList) ->
    In (selector c) selList /\
    exists v, _num (text c) = Returned (Some v).
Proof.
  intros document selList c Hin.
  destruct (find_price_loop_In _ _ _ Hin) as (sel & Hsel & Hc).
  apply collected_In in Hc. destruct Hc as (el & _ & Hq & ->).
  split; [exact Hsel|].
  apply _num_some_iff_digit. now apply dollar_space_digit_has_digit.
Qed.

Lemma located_text_has_value_witness :
  In "[class*='as-price']"%string PRICE_SELECTORS /\
  exists v, _num "$90.00" = Returned (Some v).
Proof.
  apply (located_text_has_value offer_page PRICE_SELECTORS
           {| selector := "[class*='as-price']"; text := "$90.00";
              color := "rgb(0, 0, 0)"; struck := false |}).
  vm_compute. right. left. reflexivity.
Defined.

Lemma find_price_loop_skip (document : DOM) (pre rest : list string) :
  Forall (fun s => collected document s = []) pre ->
  find_price_loop document (pre ++ rest) [] = find_price_loop document rest [].
Proof.
  induction 1 as [|s pre Hs _ IH]; [reflexivity|].
  cbn [app find_price_loop]. rewrite push_nodes_collect. cbn [app].
  fold (collected document s). rewrite Hs. exact IH.
Qed.

Lemma find_price_loop_here (document : DOM) (sel : string) (post : list string) :
  collected document sel <> [] ->
  find_price_loop document (sel :: post) [] = collected document sel.
Proof.
  intros H. cbn [find_price_loop]. rewrite push_nodes_collect. cbn [app].
  fold (collected document sel).
  destruct (collected document sel); [congruence | reflexivity].
Qed.

Lemma FIND_PRICE_JS_first (document : DOM) (pre : list string) (sel : string)
    (post : list string) :
  Forall (fun s => ~ yields document s) pre ->
  yields document sel ->
  FIND_PRICE_JS document (pre ++ sel :: post) = collected document sel.
Proof.
  intros Hpre Hsel. unfold FIND_PRICE_JS.
  rewrite find_price_loop_skip.
  - apply find_price_loop_here. intros E.
    now apply (proj1 (collected_nil_iff document sel)) in E.
  - revert Hpre. apply Forall_impl. intros s. apply collected_nil_iff.
Qed.

Lemma pick_price_none (l : list Candidate) :
  Forall (fun c => eligible "red" c = false) l ->
  Forall (fun c => eligible "black" c = false) l ->
  pick_price l = Returned None.
Proof.
  intros Hr Hb. rewrite pick_price_reference.
  pose proof (reference_pick_first l) as H. unfold first_eligible in H.
  rewrite (find_none_Forall _ _ Hr), (find_none_Forall _ _ Hb) in H.
  destruct (reference_pick float_truthy l); [discriminate | reflexivity].
Qed.

(** X12. A selector of higher priority hides the ones below it: when the
    first selector that yields an element yields no eligible candidate, the
    attempt has no pick, whatever the selectors after it would give. *)
Theorem higher_selector_hides_lower :
  forall document pre sel post,
    Forall (fun s => ~ yields document s) pre ->
    yields document sel ->
    (forall c, In c (collected document sel) ->
               eligible "red" c = false /\ eligible "black" c = false) ->
    FIND_PRICE_JS document (pre ++ sel :: post) = collected document sel /\
    pick_price (FIND_PRICE_JS document (pre ++ sel :: post)) = Returned None.
Proof.
  intros document pre sel post Hpre Hsel Hinel.
  rewrite (FIND_PRICE_JS_first _ _ _ _ Hpre Hsel). split; [reflexivity|].
  apply pick_price_none; apply Forall_forall; intros c Hc;
    now destruct (Hinel c Hc).
Qed.

Lemma higher_selector_hides_lower_witness :
  pick_price (FIND_PRICE_JS struck_label_page PRICE_SELECTORS) = Returned None /\
  exists p, pick_price (collected struck_label_page "[class*='as-price']")
            = Returned (Some p) /\ value p = PyFinite (85 # 1).
Proof.
  split.
  - apply (higher_selector_hides_lower struck_label_page
             (firstn 4 PRICE_SELECTORS) "mat-label.as-price"
             (skipn 5 PRICE_SELECTORS)).
    + repeat constructor; apply collected_nil_iff; vm_compute; reflexivity.
    + apply collected_yields. vm_compute. discriminate.
    + intros c Hc. vm_compute in Hc. destruct Hc as [<- | []].
      split; vm_compute; reflexivity.
  - eexists. split; [vm_compute; reflexivity | reflexivity].
Defined.

(** ** The pick and the order of the candidates *)

Lemma pipeline_append (l l' : list Candidate) :
  step3_numeric float_truthy (step2_classified (step1_not_struck (l ++ l')))
  = step3_numeric float_truthy (step2_classified (step1_not_struck l)) ++
    step3_numeric float_truthy (step2_classified (step1_not_struck l')).
Proof.
  unfold step3_numeric, step2_classified, step1_not_struck.
  now rewrite filter_app, !flat_map_app.
Qed.

(** X18. Candidates that come later in the page do not displace a red pick;
    they displace a black pick only by a red candidate of their own. *)
Theorem later_candidates_keep_pick :
  forall l l' p,
    pick_price l = Returned (Some p) ->
    (colorType p = "red"%string ->
     pick_price (l ++ l') = Returned (Some p)) /\
    (colorType p = "black"%string ->
     pick_price (l ++ l') = Returned (Some p) \/
     exists p', pick_price (l ++ l') = Returned (Some p') /\
                colorType p' = "red"%string /\ In (item p') l').
Proof.
  intros l l' p. rewrite !pick_price_reference. intros [= H].
  unfold reference_pick, step5_pick, step4_partition in *. cbn [fst snd] in *.
  rewrite pipeline_append, !filter_app.
  set (S := step3_numeric float_truthy (step2_classified (step1_not_struck l))) in *.
  set (S' := step3_numeric float_truthy (step2_classified (step1_not_struck l'))) in *.
  set (red := fun x : Priced => String.eqb (colorType x) "red") in *.
  set (black := fun x : Priced => String.eqb (colorType x) "black") in *.
  destruct (filter red S) as [|x reds] eqn:Er.
  - destruct (filter black S) as [|y blacks] eqn:Eb; [discriminate|].
    injection H as ->. split.
    + intros Hc.
      assert (Hin : In p (filter black S)) by (rewrite Eb; now left).
      apply filter_In in Hin. destruct Hin as [_ Hb]. unfold black in Hb.
      apply String.eqb_eq in Hb. rewrite Hc in Hb. discriminate.
    + intros _. cbn [app].
      destruct (filter red S') as [|x' reds'] eqn:Er'; [now left|].
      right. exists x'. split; [reflexivity|].
      assert (Hin : In x' (filter red S')) by (rewrite Er'; now left).
      apply filter_In in Hin. destruct Hin as [Hin Hc]. unfold red in Hc.
      apply String.eqb_eq in Hc. split; [exact Hc|].
      exact (proj1 (pipeline_members _ _ _ Hin)).
  - injection H as ->. split; [reflexivity | now left].
Qed.

Lemma later_candidates_keep_pick_witness :
  pick_price
    ([ {| selector := "mat-label.as-price"; text := "$85.00";
          color := "rgb(214, 0, 28)"; struck := false |} ] ++ zero_then_five)
  = Returned (Some {| item := {| selector := "mat-label.as-price"; text := "$85.00";
                                 color := "rgb(214, 0, 28)"; struck := false |};
                      value := PyFinite (85 # 1); colorType := "red" |}).
Proof.
  apply (later_candidates_keep_pick
           [ {| selector := "mat-label.as-price"; text := "$85.00";
                color := "rgb(214, 0, 28)"; struck := false |} ]
           zero_then_five); reflexivity.
Defined.

(** ** The polling loop: how much it looks at and how long it runs *)

Lemma poll_agree (fuel : nat) (attempts attempts' : nat -> Attempt) (k n : nat)
    (deadline now : N) :
  (N.to_nat ((deadline - now + 349) / 350) <= n)%nat ->
  (forall j, (k <= j < k + n)%nat -> attempts j = attempts' j) ->
  poll fuel attempts k deadline now = poll fuel attempts' k deadline now.
Proof.
  revert k n now. induction fuel as [|fuel IH]; intros k n now Hn Hagree;
    [reflexivity|].
  cbn [poll]. destruct (now <? deadline)%N eqn:Hlt; [|reflexivity].
  apply N.ltb_lt in Hlt.
  assert (Hpos : (1 <= (deadline - now + 349) / 350)%N).
  { zify. Z.div_mod_to_equations. lia. }
  destruct n as [|n]; [lia|].
  rewrite <- (Hagree k) by lia.
  destruct (attempt_pick (attempts k)); [reflexivity|].
  apply (IH (S k) n).
  - unfold wait_ms.
    set (e := eval_ms (attempts k)) in *.
    set (w := wait_extra_ms (attempts k)) in *.
    assert (H1 : ((deadline - (now + e + (350 + w)) + 349) / 350 + 1
                  <= (deadline - now + 349) / 350)%N).
    { zify. Z.div_mod_to_equations. lia. }
    lia.
  - intros j Hj. apply Hagree. lia.
Qed.

(** X13. The loop makes at most 52 attempts: its result depends on nothing
    the browser would do in a later turn. *)
Theorem poll_at_most_52_attempts :
  forall attempts attempts' start delay,
    (forall k, (k < 52)%nat -> attempts k = attempts' k) ->
    poll poll_fuel attempts 0 (start + poll_window) (start + delay)
    = poll poll_fuel attempts' 0 (start + poll_window) (start + delay).
Proof.
  intros attempts attempts' start delay Hagree.
  apply (poll_agree poll_fuel attempts attempts' 0 52).
  - pose proof (poll_window_fuel start delay) as H. unfold poll_fuel in H. lia.
  - intros j Hj. apply Hagree. lia.
Qed.

Lemma poll_ends_soon (fuel : nat) (attempts : nat -> Attempt) (k : nat)
    (deadline now B : N) (o : PollOutcome) (t : N) :
  (forall j, (eval_ms (attempts j) + wait_ms (attempts j) <= B)%N) ->
  (now < deadline + B)%N ->
  poll fuel attempts k deadline now = Some (o, t) ->
  (t < deadline + B)%N.
Proof.
  intros HB. revert k now. induction fuel as [|fuel IH]; intros k now Hnow;
    cbn [poll]; [discriminate|].
  destruct (now <? deadline)%N eqn:Hlt.
  - apply N.ltb_lt in Hlt. pose proof (HB k) as Hk. unfold wait_ms in Hk.
    destruct (attempt_pick (attempts k)).
    + intros [= _ <-]. lia.
    + apply IH. unfold wait_ms. lia.
  - now intros [= _ <-].
Qed.

(** X14. When no turn, evaluation and wait together, takes more than [B]
    milliseconds, a loop entered before its deadline ends less than [B]
    milliseconds after the deadline; when it ends timed out it ends at or
    after the deadline. *)
Theorem poll_ends_soon_after_deadline :
  forall attempts start delay B o t,
    (forall j, (eval_ms (attempts j) + wait_ms (attempts j) <= B)%N) ->
    (delay < poll_window)%N ->
    poll poll_fuel attempts 0 (start + poll_window) (start + delay) = Some (o, t) ->
    (t < start + poll_window + B)%N /\
    (o = TimedOut -> (start + poll_window <= t)%N).
Proof.
  intros attempts start delay B o t HB Hd Hp. split.
  - apply (poll_ends_soon _ _ _ _ _ _ _ _ HB) in Hp; [exact Hp | lia].
  - intros ->. exact (poll_timed_out_late _ _ _ _ _ _ Hp).
Qed.

Lemma poll_ends_soon_after_deadline_witness :
  exists t, poll poll_fuel failing 0 (5000 + poll_window) (5000 + 1)
            = Some (TimedOut, t) /\
            (t < 5000 + poll_window + 355)%N /\ (5000 + poll_window <= t)%N.
Proof.
  assert (E : exists t, poll poll_fuel failing 0 (5000 + poll_window) (5000 + 1)
                        = Some (TimedOut, t))
    by (eexists; vm_compute; reflexivity).
  destruct E as [t Ht]. exists t. split; [exact Ht|].
  destruct (poll_ends_soon_after_deadline failing 5000 1 355 TimedOut t) as [H1 H2].
  - intros j. vm_compute. discriminate.
  - reflexivity.
  - exact Ht.
  - split; [exact H1 | exact (H2 eq_refl)].
Defined.

Lemma poll_at_most_52_attempts_witness :
  poll poll_fuel failing 0 (5000 + poll_window) (5000 + 1)
  = poll poll_fuel (fun k => if (k <? 52)%nat then failing k else steady offer_page k)
         0 (5000 + poll_window) (5000 + 1).
Proof.
  apply poll_at_most_52_attempts.
  intros k Hk. apply Nat.ltb_lt in Hk. now rewrite Hk.
Defined.

(** ** The cache and the handler *)

Lemma cache_lookup_store_at (now now' : N) (k : string) (v : PriceResponse)
    (cache : TTLCache) :
  cache_lookup now' k (cache_store now k v cache)
  = if (now' <? now + ttl)%N then Some v else None.
Proof.
  unfold cache_lookup, cache_store. rewrite find_append.
  rewrite find_none_Forall by (apply Forall_skipn, Forall_filter_false).
  cbn [find]. unfold has_key at 1. cbn [key]. rewrite String.eqb_refl.
  reflexivity.
Qed.

Lemma get_price_fresh_store (cache : TTLCache) (u : string) (page : Browser)
    (r : PriceResponse) (cache' : TTLCache) :
  cache_lookup (cache_clock page) u cache = None ->
  get_price cache u page = Some (OK200 r, cache') ->
  cache' = cache_store (store_clock page) u r cache /\ url r = u.
Proof.
  intros Hc Hg.
  destruct (get_price_cases cache u page)
    as [(r' & Hc' & _) | [(e & _ & _ & H) | [(t & _ & _ & _ & H)
       | (p & t & r' & _ & _ & _ & H & Hu & _)]]]; try congruence.
  rewrite H in Hg. injection Hg as <- <-. auto.
Qed.

(** A request whose page fails to load, or shows no price in any turn,
    makes no record. *)
Lemma get_price_makes_nothing (cache : TTLCache) (u : string) (page : Browser) :
  (exists e, load page = Raised e) \/
  (forall k, attempt_pick (attempts page k) = None) ->
  exists resp,
    get_price cache u page = Some (resp, cache) /\
    (forall r, resp = OK200 r ->
               cache_lookup (cache_clock page) u cache = Some r).
Proof.
  intros Hfail.
  destruct (get_price_cases cache u page)
    as [(r & Hc & H) | [(e & _ & _ & H) | [(t & _ & _ & _ & H)
       | (p & t & r & _ & [x Hl] & Hp & _)]]].
  - exists (OK200 r). split; [exact H|]. now intros r' [= <-].
  - eexists. split; [exact H | discriminate].
  - eexists. split; [exact H | discriminate].
  - exfalso. destruct Hfail as [[e He] | Hno]; [congruence|].
    unfold request_poll in Hp.
    pose proof (poll_no_pick _ _ _ _ _ _ Hno Hp) as Ho. discriminate Ho.
Qed.

(** A request for the key of a fresh record returns the record and leaves
    the cache as it is. *)
Lemma get_price_hit (cache : TTLCache) (u : string) (page : Browser)
    (r : PriceResponse) :
  cache_lookup (cache_clock page) u cache = Some r ->
  get_price cache u page = Some (OK200 r, cache).
Proof. intros Hc. unfold get_price. now rewrite Hc. Qed.

(** X15. A fresh record is served again as it is.  After a request has made
    and stored a record for a URL, the requests for that URL that follow it
    directly, each less than 300 seconds after the store, all return that
    record and leave the cache as it is, whatever the browser would show.
    When requests that make no record come in between (the page fails to
    load, or no turn of the loop has a pick), every request for the URL less
    than 300 seconds after the store still returns that record.  Nothing is
    said of the requests that come after a record has been made for another
    URL: such records can take the room of this one. *)
Theorem fresh_record_served_again :
  forall cache u page r cache',
    cache_lookup (cache_clock page) u cache = None ->
    get_price cache u page = Some (OK200 r, cache') ->
    (forall pages,
        Forall (fun pg => (cache_clock pg < store_clock page + ttl)%N) pages ->
        serve cache' (map (fun pg => (u, pg)) pages)
        = Some (map (fun _ => OK200 r) pages, cache')) /\
    (forall requests,
        Forall (fun req =>
                  (fst req = u /\
                   (cache_clock (snd req) < store_clock page + ttl)%N) \/
                  (exists e, load (snd req) = Raised e) \/
                  (forall k, attempt_pick (attempts (snd req) k) = None))
               requests ->
        exists resps cache'',
          serve cache' requests = Some (resps, cache'') /\
          Forall2 (fun req resp =>
                     fst req = u ->
                     (cache_clock (snd req) < store_clock page + ttl)%N ->
                     resp = OK200 r)
                  requests resps).
Proof.
  intros cache u page r cache' Hc Hg.
  destruct (get_price_fresh_store _ _ _ _ _ Hc Hg) as [-> _].
  assert (Hfresh : forall pg,
             (cache_clock pg < store_clock page + ttl)%N ->
             cache_lookup (cache_clock pg) u
               (cache_store (store_clock page) u r cache) = Some r).
  { intros pg Ht. rewrite cache_lookup_store_at.
    apply N.ltb_lt in Ht. now rewrite Ht. }
  split.
  - intros pages Hall. induction Hall as [|pg pages Ht _ IH]; cbn [map serve].
    + reflexivity.
    + rewrite (get_price_hit _ _ _ _ (Hfresh pg Ht)), IH. reflexivity.
  - intros requests Hall.
    induction Hall as [|[v pg] requests Hreq _ IH]; cbn [serve].
    + exists [], (cache_store (store_clock page) u r cache).
      split; [reflexivity | constructor].
    + destruct IH as (resps & cache'' & Hs & Hall2).
      cbn [fst snd] in Hreq.
      assert (Hstep : exists resp,
                 get_price (cache_store (store_clock page) u r cache) v pg
                 = Some (resp, cache_store (store_clock page) u r cache) /\
                 (v = u ->
                  (cache_clock pg < store_clock page + ttl)%N ->
                  resp = OK200 r)).
      { destruct Hreq as [[-> Ht] | Hfail].
        - exists (OK200 r). split; [|reflexivity].
          exact (get_price_hit _ _ _ _ (Hfresh pg Ht)).
        - destruct (get_price_makes_nothing
                      (cache_store (store_clock page) u r cache) v pg Hfail)
            as (resp & Hgp & Hhit).
          exists resp. split; [exact Hgp|].
          intros -> Ht. rewrite (get_price_hit _ _ _ _ (Hfresh pg Ht)) in Hgp.
          now injection Hgp as <-. }
      destruct Hstep as (resp & Hgp & Hresp).
      exists (resp :: resps), cache''. rewrite Hgp, Hs.
      split; [reflexivity|]. constructor; [exact Hresp | exact Hall2].
Qed.

(** X16. A record is not served once it is 300 seconds old: the handler
    goes to the browser again, and when the page then fails to load the
    answer is the 502, not the old record. *)
Theorem stale_record_not_served :
  forall cache u page r cache' page' e,
    cache_lookup (cache_clock page) u cache = None ->
    get_price cache u page = Some (OK200 r, cache') ->
    (store_clock page + ttl <= cache_clock page')%N ->
    load page' = Raised e ->
    cache_lookup (cache_clock page') u cache' = None /\
    get_price cache' u page'
    = Some (HTTPException 502 ("No se pudo cargar " ++ u ++ ": " ++ exn_str e),
            cache').
Proof.
  intros cache u page r cache' page' e Hc Hg Ht Hl.
  destruct (get_price_fresh_store _ _ _ _ _ Hc Hg) as [-> _].
  assert (Hmiss : cache_lookup (cache_clock page') u
                    (cache_store (store_clock page) u r cache) = None).
  { rewrite cache_lookup_store_at. apply N.ltb_ge in Ht. now rewrite Ht. }
  split; [exact Hmiss|].
  unfold get_price. now rewrite Hmiss, Hl.
Qed.

Lemma fresh_record_served_again_witness :
  serve (cache_store 7000 product_url cheese_record [])
        [(product_url, offline_at 8000); (product_url, offline_at 306999)]
  = Some ([OK200 cheese_record; OK200 cheese_record],
          cache_store 7000 product_url cheese_record []) /\
  exists resps cache'',
    serve (cache_store 7000 product_url cheese_record [])
          [(kg_url, offline_at 8000);
           (product_url, browser_with "Queso" failing "Queso");
           (product_url, offline_at 306999)]
    = Some (resps, cache'') /\
    Forall2 (fun req resp =>
               fst req = product_url ->
               (cache_clock (snd req) < 7000 + ttl)%N ->
               resp = OK200 cheese_record)
            [(kg_url, offline_at 8000);
             (product_url, browser_with "Queso" failing "Queso");
             (product_url, offline_at 306999)]
            resps.
Proof.
  destruct (fresh_record_served_again [] product_url
              (browser_with " Queso Chihuahua " (steady offer_page)
                            "Queso Chihuahua 400 g")
              cheese_record (cache_store 7000 product_url cheese_record []))
    as [Hrun Hmixed]; [vm_compute; reflexivity | vm_compute; reflexivity |].
  split.
  - apply (Hrun [offline_at 8000; offline_at 306999]).
    apply Forall_cons; [vm_compute; reflexivity|].
    apply Forall_cons; [vm_compute; reflexivity|].
    apply Forall_nil.
  - apply Hmixed.
    apply Forall_cons; [right; left; eexists; reflexivity|].
    apply Forall_cons; [right; right; intros k; reflexivity|].
    apply Forall_cons; [left; split; [reflexivity | vm_compute; reflexivity]|].
    apply Forall_nil.
Defined.

(** The room of the cache bounds how long a record is served: after
    records have been made for 127 other URLs the record is still served, and
    after 128 it is gone, a second after it was stored.  No record is read in
    between, so that the oldest entry is also the least recently used. *)
Example record_leaves_after_128_others :
  (exists resps cache',
      serve (cache_store 7000 product_url cheese_record [])
            (other_requests 127 ++ [(product_url, offline_at 8000)])
      = Some (resps, cache') /\
      last resps (OK200 cheese_record) = OK200 cheese_record /\
      List.length cache' = 128%nat) /\
  (exists resps cache',
      serve (cache_store 7000 product_url cheese_record [])
            (other_requests 128 ++ [(product_url, offline_at 8000)])
      = Some (resps, cache') /\
      last resps (OK200 cheese_record)
      = HTTPException 502
          ("No se pudo cargar " ++ product_url ++ ": net::ERR_INTERNET_DISCONNECTED") /\
      List.length cache' = 128%nat).
Proof.
  split; eexists; eexists; (split; [vm_compute; reflexivity|]);
    split; vm_compute; reflexivity.
Qed.

Lemma stale_record_not_served_witness :
  get_price (cache_store 7000 product_url cheese_record []) product_url
            (offline_at 307000)
  = Some (HTTPException 502
            ("No se pudo cargar " ++ product_url ++ ": net::ERR_INTERNET_DISCONNECTED"),
          cache_store 7000 product_url cheese_record []).
Proof.
  apply (stale_record_not_served [] product_url
           (browser_with " Queso Chihuahua " (steady offer_page) "Queso Chihuahua 400 g")
           cheese_record _ (offline_at 307000)
           (BrowserError "net::ERR_INTERNET_DISCONNECTED"));
    vm_compute; try reflexivity. discriminate.
Defined.

(** A property that relates the requested URL and the record: when every
    request that misses the cache establishes it, it holds between every
    request and its response, and between every key of the cache and its
    record. *)
Lemma serve_invariant_keyed (P : string -> PriceResponse -> Prop) :
  (forall cache u page r cache',
      cache_lookup (cache_clock page) u cache = None ->
      get_price cache u page = Some (OK200 r, cache') -> P u r) ->
  forall requests cache resps cache',
    Forall (fun e => P (key e) (stored e)) cache ->
    serve cache requests = Some (resps, cache') ->
    Forall2 (fun req resp => forall r, resp = OK200 r -> P (fst req) r)
            requests resps /\
    Forall (fun e => P (key e) (stored e)) cache'.
Proof.
  intros Hfresh requests.
  induction requests as [|[u page] rest IH]; intros cache resps cache' Hinv;
    cbn [serve].
  - intros [= <- <-]. split; [constructor | exact Hinv].
  - destruct (get_price cache u page) as [[resp cache1]|] eqn:Hg; [|discriminate].
    destruct (serve cache1 rest) as [[resps1 cache2]|] eqn:Hs; [|discriminate].
    intros [= <- <-].
    assert (Hstep : (forall r, resp = OK200 r -> P u r) /\
                    Forall (fun e => P (key e) (stored e)) cache1).
    { destruct (get_price_cases cache u page)
        as [(r & Hc & H) | [(e & _ & _ & H) | [(t & _ & _ & _ & H)
           | (p & t & r & Hc & _ & _ & H & _)]]];
        rewrite H in Hg; injection Hg as <- <-.
      - split; [|exact Hinv]. intros r' [= <-].
        destruct (cache_lookup_stored _ _ _ _ Hc) as (e & Hin & <- & <-).
        rewrite Forall_forall in Hinv. now apply Hinv.
      - split; [discriminate | exact Hinv].
      - split; [discriminate | exact Hinv].
      - assert (Hr : P u r) by (eapply Hfresh; eauto).
        split; [now intros r' [= <-]|].
        now apply cache_store_Forall. }
    destruct Hstep as [Hresp Hinv1].
    destruct (IH _ _ _ Hinv1 Hs) as [Hrest Hinv2].
    split; [|exact Hinv2]. constructor; [exact Hresp | exact Hrest].
Qed.

(** X17. Every record the server returns carries the URL that was asked for,
    also when it comes from the cache; and every record in the cache is kept
    under its own URL. *)
Theorem response_echoes_url :
  forall requests resps cache',
    serve [] requests = Some (resps, cache') ->
    Forall2 (fun req resp => forall r, resp = OK200 r -> url r = fst req)
            requests resps /\
    Forall (fun e => url (stored e) = key e) cache'.
Proof.
  intros requests resps cache' Hs.
  destruct (serve_invariant_keyed (fun u r => url r = u)) with
    (requests := requests) (cache := @nil Entry) (resps := resps) (cache' := cache')
    as [H1 H2]; auto.
  intros cache u page r c' Hc Hg.
  exact (proj2 (get_price_fresh_store _ _ _ _ _ Hc Hg)).
Qed.

Lemma response_echoes_url_witness :
  Forall2 (fun req resp => forall r, resp = OK200 r -> url r = fst req)
          sample_requests
          [OK200 cheese_record; OK200 beef_record; OK200 cheese_record].
Proof.
  destruct sample_run as [cache' Hs].
  exact (proj1 (response_echoes_url _ _ _ Hs)).
Defined.

(** X19. The first turn with a pick decides the response: when the URL is
    not cached, the page loads, the turns before turn [n] have no pick and
    turn [n], begun before the deadline, picks [p], the answer is a 200
    whose price is the value of [p], stored in the cache under the URL. *)
Theorem first_pick_decides_response :
  forall cache u page n p,
    cache_lookup (cache_clock page) u cache = None ->
    (exists x, load page = Returned x) ->
    (forall j, (j < n)%nat -> attempt_pick (attempts page j) = None) ->
    attempt_pick (attempts page n) = Some p ->
    (turn_clock (attempts page) 0 n (poll_clock page + poll_delay page)
     < poll_clock page + poll_window)%N ->
    exists r,
      get_price cache u page
      = Some (OK200 r, cache_store (store_clock page) u r cache) /\
      url r = u /\ price_assigned r (value p).
Proof.
  intros cache u page n p Hc Hl Hno Hp Ht.
  assert (Hpoll : request_poll page
                  = Some (Found p,
                          (turn_clock (attempts page) 0 n
                             (poll_clock page + poll_delay page)
                           + eval_ms (attempts page n))%N)).
  { unfold request_poll. apply (poll_found n poll_fuel (attempts page) 0); auto.
    pose proof (turn_clock_ge (attempts page) 0 n
                  (poll_clock page + poll_delay page)) as Hge.
    unfold poll_window, poll_fuel in *. lia. }
  destruct (get_price_cases cache u page)
    as [(r & Hc' & _) | [(e & _ & Hl' & _) | [(t & _ & _ & Hp' & _)
       | (p' & t & r & _ & _ & Hp' & H & Hu & Ha & _)]]].
  - congruence.
  - destruct Hl as [x Hl]. congruence.
  - congruence.
  - rewrite Hpoll in Hp'. injection Hp' as <- _. eauto.
Qed.

Lemma first_pick_decides_response_witness :
  exists r,
    get_price [] kg_url (browser_with "Pulpa de Res" settling "Pulpa de res, precio por kg")
    = Some (OK200 r, cache_store 7000 kg_url r []) /\
    url r = kg_url /\
    price_assigned r (PyFinite (85 # 1)).
Proof.
  apply (first_pick_decides_response [] kg_url
           (browser_with "Pulpa de Res" settling "Pulpa de res, precio por kg") 2
           {| item := {| selector := "[class*='as-price']"; text := "$85.00";
                         color := "rgb(214, 0, 28)"; struck := false |};
              value := PyFinite (85 # 1); colorType := "red" |}).
  - reflexivity.
  - exists tt. reflexivity.
  - intros j Hj. destruct j as [|[|j]]; [vm_compute; reflexivity .. | lia].
  - vm_compute. reflexivity.
  - vm_compute. reflexivity.
Defined.
